(** * AzSql-fastmcp: the resilient connection and reliability layer

    A shallow embedding of the parts of the repository that create, pool,
    monitor, recover and gate database connections, together with the TTL
    cache of the client:

    - [client/agentic_sql_client.py]: [DatabaseInfo] (the TTL cache entry)
      and the circuit breaker of [AgenticSQLClient];
    - [src/server/connection_monitor.py]: [ConnectionHealthMonitor] and
      [ConnectionRecoveryManager];
    - [src/connection/sql_connection_factory.py]: [SqlConnectionFactory]
      ([create_connection] under tenacity's [retry], [initialize_pool],
      [get_pooled_connection]).

    Conventions.  A Python [int] is a [Z]; [//] and [%] are [Z.div] and
    [Z.modulo] (both round towards minus infinity for a positive divisor, as
    Python does).  A Python [float] is a binary64 [float] of the kernel.  A
    [dict] with string keys is a [gmap string _].  A reading of the clock
    ([time.time()], [datetime.now()]) is an argument of the function that
    reads it, one argument per reading, in the order of the readings. *)

From Stdlib Require Import ZArith List Bool Lia.
From Stdlib Require Import Floats.PrimFloat Floats.FloatOps.
From stdpp Require Import base option list gmap strings.

Local Open Scope Z_scope.

(* ===================================================================== *)
(** * Part I: definitions                                                  *)
(* ===================================================================== *)

(** ** The standard library's [datetime] and [timedelta]

    Only what [DatabaseInfo] uses: naive datetimes, their difference, and
    the [seconds] attribute of the difference. *)
Module datetime.

(** [timedelta]: the normalised triple; [0 <= seconds < 86400] and
    [0 <= microseconds < 1000000] after construction. *)
Record timedelta : Set := mk_timedelta
  { days : Z; seconds : Z; microseconds : Z }.

(** [timedelta(days, seconds, microseconds)] on integer arguments: the
    constructor carries microseconds into seconds and seconds into days. *)
Definition new_timedelta (d s us : Z) : timedelta :=
  let s1 := s + us / 1000000 in
  {| days := d + s1 / 86400;
     seconds := s1 mod 86400;
     microseconds := us mod 1000000 |}.

(** [timedelta.total_seconds()], in microseconds to stay in [Z]. *)
Definition total_microseconds (t : timedelta) : Z :=
  (days t * 86400 + seconds t) * 1000000 + microseconds t.

Record t : Set := mk
  { year : Z; month : Z; day : Z;
    hour : Z; minute : Z; second : Z; microsecond : Z }.

Definition _is_leap (y : Z) : bool :=
  (y mod 4 =? 0) && (negb (y mod 100 =? 0) || (y mod 400 =? 0)).

Definition _days_before_year (y : Z) : Z :=
  let y1 := y - 1 in y1 * 365 + y1 / 4 - y1 / 100 + y1 / 400.

Definition _DAYS_BEFORE_MONTH : list Z :=
  [-1; 0; 31; 59; 90; 120; 151; 181; 212; 243; 273; 304; 334].

Definition _days_before_month (y m : Z) : Z :=
  nth (Z.to_nat m) _DAYS_BEFORE_MONTH 0
  + (if (2 <? m) && _is_leap y then 1 else 0).

Definition _ymd2ord (y m d : Z) : Z :=
  _days_before_year y + _days_before_month y m + d.

Definition toordinal (x : t) : Z := _ymd2ord (year x) (month x) (day x).

(** Seconds since midnight. *)
Definition _secs (x : t) : Z := second x + minute x * 60 + hour x * 3600.

(** [a - b] for two naive datetimes ([datetime.__sub__]). *)
Definition sub (a b : t) : timedelta :=
  new_timedelta (toordinal a - toordinal b)
                (_secs a - _secs b)
                (microsecond a - microsecond b).

(** [datetime.min], 0001-01-01 00:00:00. *)
Definition min : t := mk 1 1 1 0 0 0 0.

(** The time-of-day fields are in range (the constructor of [datetime]
    refuses anything else). *)
Definition time_in_range (x : t) : Prop :=
  0 <= hour x < 24 /\ 0 <= minute x < 60 /\ 0 <= second x < 60
  /\ 0 <= microsecond x < 1000000.

End datetime.

(** ** [DatabaseInfo]: the cache entry of the client
    ([client/agentic_sql_client.py], lines 163-182) *)
Module DatabaseInfo.

Record t : Type := mk
  { name : string;
    version : string;
    tables : list string;
    total_tables : Z;
    server_info : string;
    connection_status : string;
    last_updated : datetime.t;
    cache_ttl : Z }.

(** [(datetime.now() - self.last_updated).seconds < self.cache_ttl];
    [now] is the reading of [datetime.now()]. *)
Definition is_cache_valid (now : datetime.t) (self : t) : bool :=
  datetime.seconds (datetime.sub now (last_updated self)) <? cache_ttl self.

(** [self.last_updated = datetime.min]. *)
Definition invalidate_cache (self : t) : t :=
  {| name := name self; version := version self; tables := tables self;
     total_tables := total_tables self; server_info := server_info self;
     connection_status := connection_status self;
     last_updated := datetime.min;
     cache_ttl := cache_ttl self |}.

(** A fresh entry written at [t0] with the given TTL, the other fields at
    the defaults of the dataclass. *)
Definition written_at (t0 : datetime.t) (ttl : Z) : t :=
  {| name := "Unknown"; version := "Unknown"; tables := [];
     total_tables := 0; server_info := "Unknown";
     connection_status := "Unknown";
     last_updated := t0; cache_ttl := ttl |}.

(** The entry of the examples: written on 2025-03-10 at 12:00:00 with
    the default TTL of 300 seconds. *)
Definition noon_entry : t := written_at (datetime.mk 2025 3 10 12 0 0 0) 300.

End DatabaseInfo.

(** ** [AgenticSQLClient]: its circuit breaker
    ([client/agentic_sql_client.py], lines 222-225 and 253-272) *)
Module AgenticSQLClient.

(** The four [_circuit_breaker_*] attributes of the client.  The source
    initialises [_circuit_breaker_last_failure] and
    [_circuit_breaker_timeout] with the ints [0] and [60]; they only ever
    meet floats ([time.time()]), where Python uses them as [0.0] and
    [60.0]. *)
Record t : Set := mk
  { _circuit_breaker_failures : Z;
    _circuit_breaker_last_failure : float;
    _circuit_breaker_threshold : Z;
    _circuit_breaker_timeout : float }.

(** The attributes as [__init__] sets them. *)
Definition init : t :=
  {| _circuit_breaker_failures := 0;
     _circuit_breaker_last_failure := 0%float;
     _circuit_breaker_threshold := 5;
     _circuit_breaker_timeout := 60%float |}.

Definition set_failures (n : Z) (self : t) : t :=
  {| _circuit_breaker_failures := n;
     _circuit_breaker_last_failure := _circuit_breaker_last_failure self;
     _circuit_breaker_threshold := _circuit_breaker_threshold self;
     _circuit_breaker_timeout := _circuit_breaker_timeout self |}.

(** [_is_circuit_breaker_open]: the answer and the client afterwards.
    [now] is the reading of [time.time()] (taken only over threshold). *)
Definition _is_circuit_breaker_open (now : float) (self : t) : bool * t :=
  if _circuit_breaker_threshold self <=? _circuit_breaker_failures self then
    let time_since_failure :=
      PrimFloat.sub now (_circuit_breaker_last_failure self) in
    if PrimFloat.ltb time_since_failure (_circuit_breaker_timeout self)
    then (true, self)
    else (false, set_failures 0 self)
  else (false, self).

(** [_record_failure]; [now] is the reading of [time.time()]. *)
Definition _record_failure (now : float) (self : t) : t :=
  {| _circuit_breaker_failures := _circuit_breaker_failures self + 1;
     _circuit_breaker_last_failure := now;
     _circuit_breaker_threshold := _circuit_breaker_threshold self;
     _circuit_breaker_timeout := _circuit_breaker_timeout self |}.

(** [_record_success]: the decrement is guarded by [failures > 0]. *)
Definition _record_success (self : t) : t :=
  if 0 <? _circuit_breaker_failures self
  then set_failures (Z.max 0 (_circuit_breaker_failures self - 1)) self
  else self.

(** The calls a client makes on its breaker, each with the clock reading
    it takes. *)
Inductive call : Set :=
| IsOpen (now : float)
| RecordFailure (now : float)
| RecordSuccess.

Definition run_call (c : call) (self : t) : t :=
  match c with
  | IsOpen now => snd (_is_circuit_breaker_open now self)
  | RecordFailure now => _record_failure now self
  | RecordSuccess => _record_success self
  end.

(** The client after a sequence of calls, first call first. *)
Definition run_calls (cs : list call) (self : t) : t :=
  fold_left (fun s c => run_call c s) cs self.

(** Successive calls of [_is_circuit_breaker_open], one per clock
    reading: the answers in order and the client afterwards. *)
Fixpoint is_open_calls (nows : list float) (self : t) : list bool * t :=
  match nows with
  | [] => ([], self)
  | now :: rest =>
      let '(b, self1) := _is_circuit_breaker_open now self in
      let '(bs, self2) := is_open_calls rest self1 in
      (b :: bs, self2)
  end.

(** Whether the cooldown is still running at [now]:
    [now - last_failure < timeout], in floats as the code computes it. *)
Definition cooling_down (now : float) (self : t) : bool :=
  PrimFloat.ltb (PrimFloat.sub now (_circuit_breaker_last_failure self))
                (_circuit_breaker_timeout self).

(** A breaker that a client can reach: [__init__] followed by calls. *)
Definition reachable (self : t) : Prop :=
  exists cs, self = run_calls cs init.

(** The number of [_record_failure] calls of a history. *)
Definition recorded_failures (cs : list call) : Z :=
  Z.of_nat
    (length (List.filter
               (fun c => match c with RecordFailure _ => true | _ => false end)
               cs)).

(** *** [connect]
    ([client/agentic_sql_client.py], lines 279-332) *)

(** The client: the breaker's attributes ([breaker]) and the other
    attributes that [connect] and [get_database_info] read or write.
    [client_handle] is [self.client]: [None], or the [Client] object
    built by the attempt of that number.  The last two fields are the
    ['cache_hits'] and ['cache_misses'] of [_performance_metrics]. *)
Record client : Type := mkClient
  { breaker : t;
    max_retries : Z;
    cache_ttl : Z;
    client_handle : option Z;
    _connection_verified : bool;
    _last_activity : float;
    _db_info_cache : option DatabaseInfo.t;
    cache_hits : Z;
    cache_misses : Z }.

(** [__init__] with the given [max_retries] and [cache_ttl]; [now] is
    the reading of [time.time()]. *)
Definition new_client (max_retries cache_ttl : Z) (now : float) : client :=
  {| breaker := init; max_retries := max_retries; cache_ttl := cache_ttl;
     client_handle := None; _connection_verified := false;
     _last_activity := now; _db_info_cache := None;
     cache_hits := 0; cache_misses := 0 |}.

Definition set_breaker (b : t) (self : client) : client :=
  {| breaker := b; max_retries := max_retries self;
     cache_ttl := cache_ttl self; client_handle := client_handle self;
     _connection_verified := _connection_verified self;
     _last_activity := _last_activity self;
     _db_info_cache := _db_info_cache self;
     cache_hits := cache_hits self; cache_misses := cache_misses self |}.

Definition set_client_handle (h : option Z) (self : client) : client :=
  {| breaker := breaker self; max_retries := max_retries self;
     cache_ttl := cache_ttl self; client_handle := h;
     _connection_verified := _connection_verified self;
     _last_activity := _last_activity self;
     _db_info_cache := _db_info_cache self;
     cache_hits := cache_hits self; cache_misses := cache_misses self |}.

(** What the body of the [try] of [connect] does on one attempt: the
    [Client] constructor raises, [__aenter__] raises (the new client is
    in [self.client] by then), or the client is connected;
    [_verify_connection] and [_initialize_context] catch every
    [Exception] of their own. *)
Inductive attempt_outcome : Set :=
| ClientRaises (msg : string)
| EnterRaises (msg : string)
| Connected.

(** The server as the client meets it: the outcome of the attempt of
    each number. *)
Definition transport : Set := Z -> attempt_outcome.

(** What [connect] does to the outside, in order. *)
Inductive connect_event : Set :=
| Attempt (attempt : Z)          (* the body of the try, for this attempt *)
| Sleep (delay : float).         (* await asyncio.sleep(delay) *)

(** How [connect] ends: it returns, or the [OverflowError] of
    [2.0 ** attempt] leaves the [except] handler. *)
Inductive connect_result : Set :=
| Returns (b : bool)
| RaisesOverflowError.

(** The readings of [time.time()] of a call: the one of
    [_is_circuit_breaker_open] (taken only over threshold) and the one
    of [_update_activity] or [_record_failure]. *)
Record connect_clock : Set := mkConnectClock
  { t_gate : float; t_end : float }.

(** The float [2.0 ** attempt] for an int [attempt >= 0]: exact up to
    [2.0 ** 1023]; from 1024 on Python raises [OverflowError]
    ([None]). *)
Definition float_pow_2 (attempt : Z) : option float :=
  if attempt <? 1024 then Some (FloatOps.Z.ldexp 1%float attempt) else None.

(** [min(2.0 ** attempt, 10.0)]: [min] of two arguments keeps the first
    unless the second is less. *)
Definition retry_delay (attempt : Z) : option float :=
  match float_pow_2 attempt with
  | Some p => Some (if PrimFloat.ltb 10%float p then 10%float else p)
  | None => None
  end.

(** Python's [range(n)]. *)
Definition range (n : Z) : list Z := map Z.of_nat (seq 0 (Z.to_nat n)).

(** The [for] loop of [connect] over the values of [attempt] that are
    left. *)
Fixpoint connect_attempts (tr : transport) (k : connect_clock) (self : client)
    (attempts : list Z) : connect_result * client * list connect_event :=
  match attempts with
  | [] => (Returns false, self, [])
  | attempt :: rest =>
      match tr attempt with
      | Connected =>
          (Returns true,
           {| breaker := _record_success (breaker self);
              max_retries := max_retries self;
              cache_ttl := cache_ttl self;
              client_handle := Some attempt;
              _connection_verified := true;
              _last_activity := t_end k;
              _db_info_cache := _db_info_cache self;
              cache_hits := cache_hits self;
              cache_misses := cache_misses self |},
           [Attempt attempt])
      | failure =>
          let self1 :=
            match failure with
            | EnterRaises _ => set_client_handle (Some attempt) self
            | _ => self
            end in
          if attempt <? max_retries self1 - 1 then
            match retry_delay attempt with
            | Some delay =>
                let '(r, self2, evs) := connect_attempts tr k self1 rest in
                (r, self2, Attempt attempt :: Sleep delay :: evs)
            | None => (RaisesOverflowError, self1, [Attempt attempt])
            end
          else
            let self2 :=
              set_breaker (_record_failure (t_end k) (breaker self1)) self1 in
            let '(r, self3, evs) := connect_attempts tr k self2 rest in
            (r, self3, Attempt attempt :: evs)
      end
  end.

(** [connect]: how it ends, the client afterwards and its events. *)
Definition connect (tr : transport) (k : connect_clock) (self : client)
    : connect_result * client * list connect_event :=
  let '(is_open, b) := _is_circuit_breaker_open (t_gate k) (breaker self) in
  if is_open then (Returns false, set_breaker b self, [])
  else connect_attempts tr k (set_breaker b self) (range (max_retries self)).

(** Successive calls of [connect], each with its transport and clock:
    how they end, the client afterwards and the events of all. *)
Fixpoint connect_calls (calls : list (transport * connect_clock))
    (self : client) : list connect_result * client * list connect_event :=
  match calls with
  | [] => ([], self, [])
  | (tr, k) :: rest =>
      let '(r, self1, evs) := connect tr k self in
      let '(rs, self2, evs') := connect_calls rest self1 in
      (r :: rs, self2, evs ++ evs')
  end.

(** The attempts and the sleeps of a trace. *)
Definition attempts_of (evs : list connect_event) : list Z :=
  omap (fun e => match e with Attempt a => Some a | _ => None end) evs.

Definition sleeps_of (evs : list connect_event) : list float :=
  omap (fun e => match e with Sleep d => Some d | _ => None end) evs.

(** The delays as numbers: 1, 2, 4 and 8 seconds after the first four
    attempts, 10 seconds after any later one. *)
Definition capped_delay (attempt : Z) : float :=
  if attempt =? 0 then 1%float
  else if attempt =? 1 then 2%float
  else if attempt =? 2 then 4%float
  else if attempt =? 3 then 8%float
  else 10%float.

(** A transport that fails on every attempt of the given numbers. *)
Definition fails_before (tr : transport) (n : Z) : Prop :=
  forall a, 0 <= a < n -> tr a <> Connected.

(** What [connect] leaves as it was: the settings of the client and
    its cache of the database information. *)
Definition same_settings_and_cache (self self' : client) : Prop :=
  max_retries self' = max_retries self
  /\ cache_ttl self' = cache_ttl self
  /\ _db_info_cache self' = _db_info_cache self
  /\ cache_hits self' = cache_hits self
  /\ cache_misses self' = cache_misses self.

(** *** [get_database_info]
    ([client/agentic_sql_client.py], lines 378-459) *)

(** What [gather(..., return_exceptions=True)] hands over for one tool
    call: the [Exception] the call raised, as a value, or its answer. *)
Inductive tool_result (A : Set) : Set :=
| ToolRaised (msg : string)
| ToolReturned (answer : A).
Arguments ToolRaised {A} msg.
Arguments ToolReturned {A} answer.

(** What the body of the [try] of [get_database_info] does.  Either
    [gather] returns the results of the two tool calls, [database_info]
    and [list_tables] (the answer of [list_tables] is given by the
    table names parsed from it), and the body goes on to build the
    entry; or the body itself raises an [Exception] (with
    [self.client] still [None], or on an answer it cannot take apart). *)
Inductive fetch_outcome : Set :=
| Fetched (db_result : tool_result unit)
    (tables_result : tool_result (list string))
| FetchRaises (msg : string).

(** [tables]: empty when the result of [list_tables] is an exception. *)
Definition tables_of (tables_result : tool_result (list string))
    : list string :=
  match tables_result with
  | ToolRaised _ => []
  | ToolReturned names => names
  end.

(** The readings of the clock of a call: [datetime.now()] in
    [is_cache_valid] (taken when there is a cached entry),
    [time.time()] in [_update_activity], and [datetime.now()] for
    [last_updated]. *)
Record info_clock : Set := mkInfoClock
  { now_check : datetime.t; t_activity : float; now_store : datetime.t }.

Definition cache_hit (k : info_clock) (self : client) : option DatabaseInfo.t :=
  match _db_info_cache self with
  | Some cached =>
      if DatabaseInfo.is_cache_valid (now_check k) cached
         && String.eqb (DatabaseInfo.connection_status cached) "Connected"
      then Some cached
      else None
  | None => None
  end.

(** [get_database_info]: the object it returns, the client afterwards,
    and whether the server was asked.  On a hit the object returned is
    the cached one.  On a miss, once [gather] has returned, an entry
    with the status ["Connected"] is built, stored and returned, whether
    the tool calls answered or raised: the result of [database_info] is
    not used, and a [list_tables] that raised gives an entry with no
    tables.  Only when the body itself raises is the ["Error"] entry of
    the [except] built; it is returned and not stored. *)
Definition get_database_info (fetch : fetch_outcome) (k : info_clock)
    (self : client) : DatabaseInfo.t * client * bool :=
  match cache_hit k self with
  | Some cached =>
      (cached,
       {| breaker := breaker self; max_retries := max_retries self;
          cache_ttl := cache_ttl self; client_handle := client_handle self;
          _connection_verified := _connection_verified self;
          _last_activity := _last_activity self;
          _db_info_cache := _db_info_cache self;
          cache_hits := cache_hits self + 1;
          cache_misses := cache_misses self |},
       false)
  | None =>
      let missed (cache : option DatabaseInfo.t) : client :=
        {| breaker := breaker self; max_retries := max_retries self;
           cache_ttl := cache_ttl self; client_handle := client_handle self;
           _connection_verified := _connection_verified self;
           _last_activity := t_activity k;
           _db_info_cache := cache;
           cache_hits := cache_hits self;
           cache_misses := cache_misses self + 1 |} in
      match fetch with
      | Fetched _ tables_result =>
          let tables := tables_of tables_result in
          let info :=
            {| DatabaseInfo.name := "Azure SQL Database";
               DatabaseInfo.version := "Unknown";
               DatabaseInfo.tables := tables;
               DatabaseInfo.total_tables := Z.of_nat (length tables);
               DatabaseInfo.server_info := "Azure SQL Server";
               DatabaseInfo.connection_status := "Connected";
               DatabaseInfo.last_updated := now_store k;
               DatabaseInfo.cache_ttl := cache_ttl self |} in
          (info, missed (Some info), true)
      | FetchRaises _ =>
          ({| DatabaseInfo.name := "Unknown";
              DatabaseInfo.version := "Unknown";
              DatabaseInfo.tables := [];
              DatabaseInfo.total_tables := 0;
              DatabaseInfo.server_info := "Unknown";
              DatabaseInfo.connection_status := "Error";
              DatabaseInfo.last_updated := now_store k;
              DatabaseInfo.cache_ttl := 60 |},
           missed (_db_info_cache self), true)
      end
  end.

(** [invalidate_cache()] called on the object that [get_database_info]
    returned from or stored in the cache: it is the object in
    [_db_info_cache], so the cached entry is the one changed. *)
Definition invalidate_cached_info (self : client) : client :=
  {| breaker := breaker self; max_retries := max_retries self;
     cache_ttl := cache_ttl self; client_handle := client_handle self;
     _connection_verified := _connection_verified self;
     _last_activity := _last_activity self;
     _db_info_cache := DatabaseInfo.invalidate_cache <$> _db_info_cache self;
     cache_hits := cache_hits self;
     cache_misses := cache_misses self |}.

(** The calls made on a client. *)
Inductive client_call : Type :=
| Connect (tr : transport) (k : connect_clock)
| GetDatabaseInfo (fetch : fetch_outcome) (k : info_clock)
| InvalidateCachedInfo.

Definition run_client_call (c : client_call) (self : client) : client :=
  match c with
  | Connect tr k => snd (fst (connect tr k self))
  | GetDatabaseInfo fetch k => snd (fst (get_database_info fetch k self))
  | InvalidateCachedInfo => invalidate_cached_info self
  end.

Definition run_client_calls (cs : list client_call) (self : client) : client :=
  fold_left (fun s c => run_client_call c s) cs self.

(** A client that its owner can reach: [__init__] followed by calls. *)
Definition client_reachable (self : client) : Prop :=
  exists (max_retries cache_ttl : Z) (now : float) (cs : list client_call),
    self = run_client_calls cs (new_client max_retries cache_ttl now).

(** The number of [get_database_info] calls of a history. *)
Definition info_calls (cs : list client_call) : Z :=
  Z.of_nat
    (length (List.filter
               (fun c => match c with GetDatabaseInfo _ _ => true | _ => false end)
               cs)).

(** The age of an entry in whole seconds, as [total_seconds()] would
    give it rounded down. *)
Definition age_seconds (now : datetime.t) (info : DatabaseInfo.t) : Z :=
  datetime.total_microseconds (datetime.sub now (DatabaseInfo.last_updated info))
  / 1000000.

End AgenticSQLClient.

(** ** [ConnectionHealthMonitor]
    ([src/server/connection_monitor.py], lines 19-196) *)
Module ConnectionHealthMonitor.

Inductive ConnectionState : Set :=
| HEALTHY | DEGRADED | UNHEALTHY | CLOSED | UNKNOWN.

Record ConnectionHealth : Set := mkHealth
  { state : ConnectionState;
    last_check : float;
    response_time_ms : float;
    error_count : Z;
    last_error : option string;
    recovery_attempts : Z }.

(** The monitor.  A task of [_monitoring_tasks] is opaque here: the
    dict is kept as the set of its keys. *)
Record t : Type := mk
  { check_interval : Z;
    max_errors : Z;
    connection_health : gmap string ConnectionHealth;
    _monitoring_tasks : gset string;
    _shutdown_event : bool }.

(** [__init__], with the defaults 60 and 5 of the signature when called
    as [new 60 5]. *)
Definition new (check_interval max_errors : Z) : t :=
  {| check_interval := check_interval; max_errors := max_errors;
     connection_health := ∅; _monitoring_tasks := ∅;
     _shutdown_event := false |}.

Definition set_health (h : gmap string ConnectionHealth) (self : t) : t :=
  {| check_interval := check_interval self; max_errors := max_errors self;
     connection_health := h;
     _monitoring_tasks := _monitoring_tasks self;
     _shutdown_event := _shutdown_event self |}.

Definition set_tasks (ts : gset string) (self : t) : t :=
  {| check_interval := check_interval self; max_errors := max_errors self;
     connection_health := connection_health self;
     _monitoring_tasks := ts;
     _shutdown_event := _shutdown_event self |}.

(** [start_monitoring]: nothing if a task exists for the identity;
    otherwise a fresh UNKNOWN record and a new task. *)
Definition start_monitoring (connection_id : string) (self : t) : t :=
  if decide (connection_id ∈ _monitoring_tasks self) then self
  else
    set_tasks ({[ connection_id ]} ∪ _monitoring_tasks self)
      (set_health
         (<[ connection_id :=
               {| state := UNKNOWN; last_check := 0%float;
                  response_time_ms := 0%float; error_count := 0;
                  last_error := None; recovery_attempts := 0 |} ]>
            (connection_health self))
         self).

(** [stop_monitoring]: the task is cancelled, awaited and deleted, then
    the health record is deleted; both deletions are guarded by
    membership. *)
Definition stop_monitoring (connection_id : string) (self : t) : t :=
  let self1 :=
    if decide (connection_id ∈ _monitoring_tasks self)
    then set_tasks (_monitoring_tasks self ∖ {[ connection_id ]}) self
    else self in
  match connection_health self1 !! connection_id with
  | Some _ => set_health (delete connection_id (connection_health self1)) self1
  | None => self1
  end.

(** What the body of the [try] of [_check_connection_health] does: the
    test connection is created, queried with [SELECT 1] and closed, or
    some step raises an [Exception] whose [str] is the message. *)
Inductive probe : Set :=
| ProbeSucceeds
| ProbeRaises (error_msg : string).

(** The readings of [time.time()], in the order the function takes them:
    [start_time], the one that ends the response time, and the one
    stored in [last_check]. *)
Record clock : Set := mkClock
  { start_time : float; t_response : float; t_check : float }.

Definition response_time (k : clock) : float :=
  PrimFloat.mul (PrimFloat.sub (t_response k) (start_time k)) 1000%float.

(** The record after a probe (the body of [_check_connection_health]
    from line 116 on). *)
Definition update_health (max_errors : Z) (p : probe) (k : clock)
    (health : ConnectionHealth) : ConnectionHealth :=
  match p with
  | ProbeSucceeds =>
      {| state := HEALTHY;
         last_check := t_check k;
         response_time_ms := response_time k;
         error_count := Z.max 0 (error_count health - 1);
         last_error := None;
         recovery_attempts := recovery_attempts health |}
  | ProbeRaises error_msg =>
      let error_count' := error_count health + 1 in
      {| state :=
           if max_errors <=? error_count' then UNHEALTHY
           else if max_errors / 2 <=? error_count' then DEGRADED
           else HEALTHY;
         last_check := t_check k;
         response_time_ms := response_time k;
         error_count := error_count';
         last_error := Some error_msg;
         recovery_attempts := recovery_attempts health |}
  end.

(** [_check_connection_health]: [None] is the [KeyError] of
    [self.connection_health[connection_id]] on an unknown identity. *)
Definition _check_connection_health (connection_id : string) (p : probe)
    (k : clock) (self : t) : option t :=
  match connection_health self !! connection_id with
  | None => None
  | Some health =>
      Some (set_health
              (<[ connection_id := update_health (max_errors self) p k health ]>
                 (connection_health self))
              self)
  end.

(** [get_connection_health]: [dict.get]. *)
Definition get_connection_health (connection_id : string) (self : t)
    : option ConnectionHealth :=
  connection_health self !! connection_id.

(** [is_connection_healthy]; a [ConnectionHealth] object is always
    truthy, so [not health] holds for [None] only. *)
Definition is_connection_healthy (connection_id : string) (self : t) : bool :=
  match get_connection_health connection_id self with
  | None => false
  | Some health =>
      match state health with
      | HEALTHY | DEGRADED => true
      | _ => false
      end
  end.

(** The calls made on a monitor: by its owner ([start_monitoring],
    [stop_monitoring]) and by the monitoring loop of an identity (a
    health check with its probe and clock readings). *)
Inductive call : Set :=
| Start (connection_id : string)
| Stop (connection_id : string)
| Check (connection_id : string) (p : probe) (k : clock).

(** The monitor after a call.  The [KeyError] of a check on an identity
    without a record is caught by [_monitor_connection] and leaves the
    monitor as it was. *)
Definition run_call (c : call) (self : t) : t :=
  match c with
  | Start connection_id => start_monitoring connection_id self
  | Stop connection_id => stop_monitoring connection_id self
  | Check connection_id p k =>
      match _check_connection_health connection_id p k self with
      | Some self' => self'
      | None => self
      end
  end.

Definition run_calls (cs : list call) (self : t) : t :=
  fold_left (fun s c => run_call c s) cs self.

(** [ConnectionState.value]. *)
Definition value (s : ConnectionState) : string :=
  match s with
  | HEALTHY => "healthy"
  | DEGRADED => "degraded"
  | UNHEALTHY => "unhealthy"
  | CLOSED => "closed"
  | UNKNOWN => "unknown"
  end.

(** One entry of the report of [get_all_health_status]: the dict with
    the keys ["state"], ["last_check"], ["response_time_ms"],
    ["error_count"], ["last_error"] and ["is_healthy"]. *)
Record HealthStatus : Set := mkStatus
  { status_state : string;
    status_last_check : float;
    status_response_time_ms : float;
    status_error_count : Z;
    status_last_error : option string;
    status_is_healthy : bool }.

(** [get_all_health_status]: one entry per health record. *)
Definition get_all_health_status (self : t) : gmap string HealthStatus :=
  (fun health =>
     {| status_state := value (state health);
        status_last_check := last_check health;
        status_response_time_ms := response_time_ms health;
        status_error_count := error_count health;
        status_last_error := last_error health;
        status_is_healthy :=
          match state health with
          | HEALTHY | DEGRADED => true
          | _ => false
          end |}) <$> connection_health self.

(** [shutdown]: the event is set, then [stop_monitoring] is called for
    every key of [_monitoring_tasks], over a copy of the keys taken
    before the first call. *)
Definition shutdown (self : t) : t :=
  let self1 :=
    {| check_interval := check_interval self; max_errors := max_errors self;
       connection_health := connection_health self;
       _monitoring_tasks := _monitoring_tasks self;
       _shutdown_event := true |} in
  fold_left (fun s connection_id => stop_monitoring connection_id s)
    (elements (_monitoring_tasks self1)) self1.

(** A monitor that its owner can reach: [__init__] followed by calls. *)
Definition reachable (self : t) : Prop :=
  exists (check_interval max_errors : Z) (cs : list call),
    self = run_calls cs (new check_interval max_errors).

(** The identity a call is about. *)
Definition call_id (c : call) : string :=
  match c with
  | Start connection_id | Stop connection_id | Check connection_id _ _ =>
      connection_id
  end.

(** Health checks of one identity whose probes all raise, one per
    message and clock. *)
Definition failed_checks (connection_id : string)
    (probes : list (string * clock)) : list call :=
  map (fun p => Check connection_id (ProbeRaises (fst p)) (snd p)) probes.

(** Health checks of one identity that succeed and fail in turn: each
    element is a successful probe (its clock) followed by a probe that
    raises (its message and clock). *)
Definition flapping_checks (connection_id : string)
    (rounds : list (clock * (string * clock))) : list call :=
  flat_map
    (fun r => [Check connection_id ProbeSucceeds (fst r);
               Check connection_id (ProbeRaises (fst (snd r))) (snd (snd r))])
    rounds.

(** What the calls keep of a health record, [max_errors] being the
    monitor's threshold. *)
Definition record_ok (max_errors : Z) (h : ConnectionHealth) : Prop :=
  0 <= error_count h
  /\ state h <> CLOSED
  /\ recovery_attempts h = 0
  /\ (state h = UNKNOWN -> error_count h = 0 /\ last_error h = None)
  /\ (state h = UNHEALTHY -> max_errors <= error_count h)
  /\ (state h = DEGRADED -> max_errors / 2 <= error_count h < max_errors).

(** What the calls keep of a monitor: the identities with a task are
    those with a health record, and every record is as above. *)
Definition consistent (self : t) : Prop :=
  (forall connection_id,
      connection_id ∈ _monitoring_tasks self
      <-> is_Some (connection_health self !! connection_id))
  /\ (forall connection_id h,
        connection_health self !! connection_id = Some h ->
        record_ok (max_errors self) h).

End ConnectionHealthMonitor.

(** ** [ConnectionRecoveryManager]
    ([src/server/connection_monitor.py], lines 199-280) *)
Module ConnectionRecoveryManager.

(** One entry of [_recovery_stats]
    ([{"last_recovery": .., "attempts_used": .., "success": ..}]). *)
Record RecoveryStats : Set := mkStats
  { last_recovery : float; attempts_used : Z; success : bool }.

Record t : Type := mk
  { max_retry_attempts : Z;
    base_delay : float;
    _recovery_stats : gmap string RecoveryStats }.

(** [__init__]. *)
Definition new (max_retry_attempts : Z) (base_delay : float) : t :=
  {| max_retry_attempts := max_retry_attempts; base_delay := base_delay;
     _recovery_stats := ∅ |}.

(** [self._recovery_stats[connection_id] = {...}]. *)
Definition record_stats (connection_id : string) (s : RecoveryStats)
    (self : t) : t :=
  {| max_retry_attempts := max_retry_attempts self;
     base_delay := base_delay self;
     _recovery_stats := <[ connection_id := s ]> (_recovery_stats self) |}.

(** What one pass through [create_connection], the [SELECT 1] query and
    [close_connection] does: the factory is any object with these
    methods, and each of the three steps may raise an [Exception]. *)
Inductive attempt_outcome : Set :=
| RaisesAtCreate (msg : string)
| RaisesAtQuery (msg : string)
| RaisesAtClose (msg : string)
| Recovers.

(** The factory: the outcome of its n-th creation (from 0) within the
    call. *)
Definition factory : Set := nat -> attempt_outcome.

(** What the call does to the outside, in order. *)
Inductive event : Set :=
| Sleep (delay : float)      (* await asyncio.sleep(delay) *)
| CreateConnection           (* await connection_factory.create_connection() *)
| Query                      (* cursor(); execute("SELECT 1"); fetchone(); close() *)
| CloseConnection.           (* await connection_factory.close_connection(conn) *)

(** The int [2 ** e] as a float, as [float * int] converts it: exact up
    to [2 ** 1023]; from [2 ** 1024] on Python raises [OverflowError]
    ([None]). *)
Definition float_of_pow2 (e : Z) : option float :=
  if e <? 1024 then Some (FloatOps.Z.ldexp 1%float e) else None.

(** [2.0 * ... * 2.0], [n] factors: the float [2.0 ** n] by doubling. *)
Fixpoint doubled (n : nat) : float :=
  match n with
  | O => 1%float
  | S n' => PrimFloat.mul 2%float (doubled n')
  end.

(** [self.base_delay * (2 ** (attempt - 1))]. *)
Definition delay_of (self : t) (attempt : Z) : option float :=
  match float_of_pow2 (attempt - 1) with
  | Some p => Some (PrimFloat.mul (base_delay self) p)
  | None => None
  end.

(** The event loop as the call meets it.  [await asyncio.sleep(delay)]
    returns at once for [delay <= 0] and after the delay for a positive
    finite one; for [+inf] its timer never fires, and the call never
    returns.  A NaN is not [<= 0] and its timer is not ordered with the
    other timers of the loop: whether it fires depends on them, which is
    the loop's [nan_timer_fires]. *)
Record event_loop : Set := mkLoop { nan_timer_fires : bool }.

Definition sleep_ends (loop : event_loop) (delay : float) : bool :=
  if PrimFloat.is_nan delay then nan_timer_fires loop
  else negb (PrimFloat.eqb delay PrimFloat.infinity).

(** How the body of the [try] ends for one value of [attempt]. *)
Inductive attempt_end : Set :=
| Succeeds           (* it reaches [return True] *)
| Fails              (* an exception lands in the [except] *)
| NeverReturns.      (* the sleep never ends *)

(** The body of the [try] for one value of [attempt], the factory having
    been asked [creates] times before: how it ends, its events, and the
    number of creations afterwards.  Any exception, the [OverflowError]
    of the delay included, lands in the [except]; the sleep comes before
    the creation, and a sleep that never ends is the last event. *)
Definition try_attempt (loop : event_loop) (f : factory) (self : t)
    (attempt : Z) (creates : nat) : attempt_end * list event * nat :=
  match delay_of self attempt with
  | None => (Fails, [], creates)
  | Some delay =>
      if (1 <? attempt) && negb (sleep_ends loop delay)
      then (NeverReturns, [Sleep delay], creates)
      else
        let wait := if 1 <? attempt then [Sleep delay] else [] in
        match f creates with
        | RaisesAtCreate _ => (Fails, wait ++ [CreateConnection], S creates)
        | RaisesAtQuery _ =>
            (Fails, wait ++ [CreateConnection; Query], S creates)
        | RaisesAtClose _ =>
            (Fails, wait ++ [CreateConnection; Query; CloseConnection],
             S creates)
        | Recovers =>
            (Succeeds, wait ++ [CreateConnection; Query; CloseConnection],
             S creates)
        end
  end.

(** Python's [range(lo, hi)] on ints. *)
Fixpoint range_from (lo : Z) (n : nat) : list Z :=
  match n with
  | O => []
  | S n' => lo :: range_from (lo + 1) n'
  end.

Definition range (lo hi : Z) : list Z := range_from lo (Z.to_nat (hi - lo)).

(** The [for] loop over the values of [attempt] that are left.  [now] is
    the reading of [time.time()] stored in the stats (the call reads the
    clock once, where it writes them).  The answer is [None] when the
    call never returns.  The loop running out is the [return False] of
    the last line, which writes no stats. *)
Fixpoint attempts_over (loop : event_loop) (f : factory)
    (connection_id : string) (now : float) (self : t) (attempts : list Z)
    (creates : nat) : option bool * t * list event :=
  match attempts with
  | [] => (Some false, self, [])
  | attempt :: rest =>
      let '(e, evs, creates') := try_attempt loop f self attempt creates in
      match e with
      | Succeeds =>
          (Some true,
           record_stats connection_id
             {| last_recovery := now; attempts_used := attempt;
                success := true |}
             self,
           evs)
      | NeverReturns => (None, self, evs)
      | Fails =>
          if attempt =? max_retry_attempts self then
            (Some false,
             record_stats connection_id
               {| last_recovery := now; attempts_used := attempt;
                  success := false |}
               self,
             evs)
          else
            let '(r, self', evs') :=
              attempts_over loop f connection_id now self rest creates' in
            (r, self', evs ++ evs')
      end
  end.

(** [recover_connection]: the answer ([None]: the call never returns),
    the manager afterwards and the events of the call. *)
Definition recover_connection (loop : event_loop) (f : factory)
    (connection_id : string) (now : float) (self : t)
    : option bool * t * list event :=
  attempts_over loop f connection_id now self
    (range 1 (max_retry_attempts self + 1)) O.

(** [get_recovery_stats]. *)
Definition get_recovery_stats (self : t) : gmap string RecoveryStats :=
  _recovery_stats self.

(** The creations and the waits of a trace. *)
Definition creations (evs : list event) : nat :=
  length (List.filter
            (fun e => match e with CreateConnection => true | _ => false end)
            evs).

Definition waits (evs : list event) : list float :=
  omap (fun e => match e with Sleep d => Some d | _ => None end) evs.

(** [base_delay * 2 ** (k - 1)] for [k] within the floats' range. *)
Definition backoff (self : t) (k : Z) : float :=
  PrimFloat.mul (base_delay self) (FloatOps.Z.ldexp 1%float (k - 1)).

(** The wait before attempt [k]: none before the first. *)
Definition wait_before (self : t) (k : Z) : option float :=
  if 1 <? k then Some (backoff self k) else None.

(** The creations and the sleeps of a trace, in their order. *)
Definition schedule (evs : list event) : list event :=
  List.filter
    (fun e => match e with Sleep _ | CreateConnection => true | _ => false end)
    evs.

(** The creation of attempt [k], after its wait when [k > 1]. *)
Definition attempt_schedule (self : t) (k : Z) : list event :=
  (if 1 <? k then [Sleep (backoff self k)] else []) ++ [CreateConnection].

End ConnectionRecoveryManager.

(** ** [SqlConnectionFactory]
    ([src/connection/sql_connection_factory.py]) *)
Module SqlConnectionFactory.

(** The exceptions that cross the factory.  All but the last two are
    subclasses of [Exception]; [CancelledError] and [GeneratorExit] are
    [BaseException]s that [except Exception] does not catch. *)
Inductive exn : Set :=
| PyodbcError (msg : string)
| ConnectionError (msg : string)
| RuntimeError (msg : string)
| RetryError (last_attempt : exn)      (* tenacity.RetryError *)
| OtherException (msg : string)
| CancelledError
| GeneratorExit.

Definition is_Exception (e : exn) : bool :=
  match e with
  | CancelledError | GeneratorExit => false
  | _ => true
  end.

(** A connection handle: the number of the [connect()] call that
    returned it. *)
Definition conn : Set := nat.

(** What the body of the [try] of the inner [connect()] does on one
    call: it returns a connection or raises. *)
Inductive connect_outcome : Set :=
| Connects
| ConnectRaises (e : exn).

(** The database as the factory meets it: the outcome of the n-th call
    of [connect()] (from 0), and whether [SELECT 1] succeeds on an open
    connection. *)
Record driver : Set := mkDriver
  { connect : nat -> connect_outcome;
    select_1 : conn -> bool }.

Inductive event : Set :=
| EvConnect (c : conn) (ok : bool)   (* the c-th connect() returned / raised *)
| EvWait (seconds : Z)               (* tenacity sleeps between attempts *)
| EvSelect1 (c : conn) (ok : bool)   (* cursor(); execute("SELECT 1"); close() *)
| EvClose (c : conn)                 (* close() called on c *)
| EvGet (c : conn)                   (* c taken from the queue *)
| EvPut (c : conn).                  (* c put into the queue *)

(** The factory object ([_connection_pool] is [None] or the items of the
    [asyncio.Queue], oldest first) together with the connections it has
    made: how many [connect()] calls there were, which handles had
    [close()] called on them, and the events so far (oldest first). *)
Record t : Set := mk
  { _connection_pool : option (list conn);
    _pool_size : Z;
    _pool_initialized : bool;
    connects : nat;
    closed : list conn;
    trace : list event }.

(** [__init__]; [pool_size] is [int(os.getenv('CONNECTION_POOL_SIZE', '0'))]. *)
Definition new (pool_size : Z) : t :=
  {| _connection_pool := None; _pool_size := pool_size;
     _pool_initialized := false; connects := O; closed := []; trace := [] |}.

Definition set_pool (q : option (list conn)) (self : t) : t :=
  {| _connection_pool := q; _pool_size := _pool_size self;
     _pool_initialized := _pool_initialized self;
     connects := connects self; closed := closed self; trace := trace self |}.

Definition set_initialized (b : bool) (self : t) : t :=
  {| _connection_pool := _connection_pool self; _pool_size := _pool_size self;
     _pool_initialized := b;
     connects := connects self; closed := closed self; trace := trace self |}.

Definition log (e : event) (self : t) : t :=
  {| _connection_pool := _connection_pool self; _pool_size := _pool_size self;
     _pool_initialized := _pool_initialized self;
     connects := connects self; closed := closed self;
     trace := trace self ++ [e] |}.

(** *** [create_connection] under [@retry] *)

(** tenacity's [wait_exponential(multiplier, min, max)] after the given
    attempt, as the library computes it:
    [max(max(0, min), min(multiplier * 2 ** (attempt_number - 1), max))]. *)
Definition wait_exponential (multiplier min max attempt_number : Z) : Z :=
  Z.max (Z.max 0 min) (Z.min (multiplier * 2 ^ (attempt_number - 1)) max).

(** tenacity's [stop_after_attempt(n)]. *)
Definition stop_after_attempt (max_attempt_number attempt_number : Z) : bool :=
  max_attempt_number <=? attempt_number.

(** What leaves the inner [connect()] when its [try] raises [e]: a
    [pyodbc.Error] is turned into a [ConnectionError], anything else
    passes. *)
Definition raised_by_connect (e : exn) : exn :=
  match e with
  | PyodbcError msg =>
      ConnectionError (String.append "Failed to connect to database: " msg)
  | _ => e
  end.

(** One run of the decorated coroutine: [connect()] in the executor; the
    outer [except Exception] logs and re-raises. *)
Definition connect_once (d : driver) (self : t) : (conn + exn) * t :=
  let n := connects self in
  let self1 :=
    {| _connection_pool := _connection_pool self; _pool_size := _pool_size self;
       _pool_initialized := _pool_initialized self;
       connects := S n; closed := closed self; trace := trace self |} in
  match connect d n with
  | Connects => (inl n, log (EvConnect n true) self1)
  | ConnectRaises e => (inr (raised_by_connect e), log (EvConnect n false) self1)
  end.

(** tenacity's retry loop with the arguments of the decorator
    ([stop_after_attempt(3)], [wait_exponential(multiplier=1, min=2,
    max=10)], and the defaults: every [Exception] is retried,
    [reraise=False]).  A result is returned; an exception that is not an
    [Exception] passes; after a failed attempt the loop stops with
    [RetryError] wrapping that attempt once [stop] holds, and otherwise
    sleeps and calls again.  [fuel] is the number of calls that may
    follow the first; the stop condition ends the loop at the third
    attempt, before the fuel of [create_connection] runs out. *)
Fixpoint retrying (d : driver) (fuel : nat) (attempt_number : Z) (self : t)
    : (conn + exn) * t :=
  match connect_once d self with
  | (inl c, self1) => (inl c, self1)
  | (inr e, self1) =>
      if negb (is_Exception e) then (inr e, self1)
      else if stop_after_attempt 3 attempt_number then (inr (RetryError e), self1)
      else
        match fuel with
        | O => (inr (RetryError e), self1)
        | S fuel' =>
            retrying d fuel' (attempt_number + 1)
              (log (EvWait (wait_exponential 1 2 10 attempt_number)) self1)
        end
  end.

Definition create_connection (d : driver) (self : t) : (conn + exn) * t :=
  retrying d 3 1 self.

(** *** The queue and [close] *)

(** [conn.close()] with its errors swallowed, and [close_connection]
    (a connection object is truthy, so [if conn:] always holds). *)
Definition close (c : conn) (self : t) : t :=
  log (EvClose c)
    {| _connection_pool := _connection_pool self; _pool_size := _pool_size self;
       _pool_initialized := _pool_initialized self;
       connects := connects self; closed := c :: closed self;
       trace := trace self |}.

Definition close_connection (c : conn) (self : t) : t := close c self.

(** [await self._connection_pool.get()]: [None] when the queue is empty
    (the caller waits). *)
Definition pool_get (self : t) : option (conn * t) :=
  match _connection_pool self with
  | Some (c :: q) => Some (c, log (EvGet c) (set_pool (Some q) self))
  | _ => None
  end.

(** [await self._connection_pool.put(conn)]: [None] when the queue is
    full ([maxsize = _pool_size > 0]; the caller waits). *)
Definition pool_put (c : conn) (self : t) : option t :=
  match _connection_pool self with
  | Some q =>
      if (0 <? _pool_size self) && (_pool_size self <=? Z.of_nat (length q))
      then None
      else Some (log (EvPut c) (set_pool (Some (q ++ [c])) self))
  | None => None
  end.

(** The validation of a pooled connection: [SELECT 1] succeeds on an
    open connection the database still answers on. *)
Definition validate (d : driver) (c : conn) (self : t) : bool * t :=
  let ok := select_1 d c && negb (bool_decide (c ∈ closed self)) in
  (ok, log (EvSelect1 c ok) self).

(** *** [initialize_pool] *)

(** The [for] loop: each creation that fails with an [Exception] is
    logged and skipped; another exception leaves the loop ([inl]).  The
    queue cannot be full here: it starts empty and at most [_pool_size]
    items are put. *)
Fixpoint fill_pool (d : driver) (n : nat) (self : t) : exn + t :=
  match n with
  | O => inr self
  | S n' =>
      match create_connection d self with
      | (inl c, self1) =>
          match pool_put c self1 with
          | Some self2 => fill_pool d n' self2
          | None => inr self1
          end
      | (inr e, self1) =>
          if is_Exception e then fill_pool d n' self1 else inl e
      end
  end.

Definition initialize_pool (d : driver) (self : t) : exn + t :=
  if (0 <? _pool_size self) && negb (_pool_initialized self) then
    match fill_pool d (Z.to_nat (_pool_size self)) (set_pool (Some []) self) with
    | inr self1 => inr (set_initialized true self1)
    | inl e => inl e
    end
  else inr self.

(** *** [get_pooled_connection]: the async generator

    The generator function is given by its steps: [get_pooled_connection]
    runs it to the first [yield]; [gen_next], [gen_throw] and [gen_close]
    resume it there. *)

(** Where the generator is suspended: at one of its three [yield]s, or
    finished ([Finished] also stands for a generator that raised or that
    never reached a [yield]). *)
Inductive gen_state : Set :=
| AtYieldUnpooled (c : conn)       (* line 56, inside try/finally *)
| AtYieldPooled (c : conn)         (* line 67, inside the try *)
| AtYieldReplacement (c : conn)    (* line 76, inside the except handler *)
| Finished.

(** What a step of the generator ends in. *)
Inductive gen_result : Set :=
| Yields (c : conn) (g : gen_state)
| Stops                             (* StopAsyncIteration *)
| Raises (e : exn)
| Waits.                            (* suspended on the queue *)

(** The [finally] of the pooled branch, then what follows it. *)
Definition finally_put (c : conn) (after : gen_result) (self : t)
    : gen_result * t :=
  match pool_put c self with
  | Some self1 => (after, self1)
  | None => (Waits, self)
  end.

(** The [except Exception] handler of the pooled branch, entered with
    [conn = c]: close it, create another one and yield it; if the
    creation raises, the [finally] puts [c] and the error passes. *)
Definition handler (d : driver) (c : conn) (self : t) : gen_result * t :=
  let self1 := close c self in
  match create_connection d self1 with
  | (inl c', self2) => (Yields c' (AtYieldReplacement c'), self2)
  | (inr e, self2) => finally_put c (Raises e) self2
  end.

Definition pooling_enabled (self : t) : bool :=
  match _connection_pool self with
  | Some _ => negb (_pool_size self =? 0)
  | None => false
  end.

(** [get_pooled_connection], from the call to its first [yield] (what
    [__aenter__] runs). *)
Definition get_pooled_connection (d : driver) (self : t) : gen_result * t :=
  if pooling_enabled self then
    match pool_get self with
    | None => (Waits, self)
    | Some (c, self1) =>
        match validate d c self1 with
        | (true, self2) => (Yields c (AtYieldPooled c), self2)
        | (false, self2) => handler d c self2
        end
    end
  else
    match create_connection d self with
    | (inl c, self1) => (Yields c (AtYieldUnpooled c), self1)
    | (inr e, self1) => (Raises e, self1)
    end.

(** The generator resumed after a [yield] ([anext]). *)
Definition gen_next (g : gen_state) (self : t) : gen_result * t :=
  match g with
  | AtYieldUnpooled c => (Stops, close_connection c self)
  | AtYieldPooled c => finally_put c Stops self
  | AtYieldReplacement c => finally_put c Stops self
  | Finished => (Stops, self)
  end.

(** An exception thrown into the generator at its [yield] ([athrow]). *)
Definition gen_throw (d : driver) (e : exn) (g : gen_state) (self : t)
    : gen_result * t :=
  match g with
  | AtYieldUnpooled c => (Raises e, close_connection c self)
  | AtYieldPooled c =>
      if is_Exception e then handler d c self
      else finally_put c (Raises e) self
  | AtYieldReplacement c => finally_put c (Raises e) self
  | Finished => (Raises e, self)
  end.

(** [aclose()]: [GeneratorExit] thrown at the [yield]; what a suspended
    generator undergoes when it is finalised. *)
Definition gen_close (d : driver) (g : gen_state) (self : t) : t :=
  match g with
  | Finished => self
  | _ => snd (gen_throw d GeneratorExit g self)
  end.

(** *** [asynccontextmanager] around the generator *)

(** What the caller's block does with the connection. *)
Inductive body_outcome : Set :=
| BodyReturns
| BodyRaises (e : exn).

(** How the [async with] statement ends. *)
Inductive exit_result : Set :=
| Completes
| Propagates (e : exn)
| Hangs.

(** [__aexit__] of contextlib's [_AsyncGeneratorContextManager]: the
    generator is resumed, or the exception of the block is thrown into
    it; a generator that yields again is answered with [RuntimeError] and
    stays suspended; one that waits on the queue is left where it was. *)
Definition aexit (d : driver) (b : body_outcome) (g : gen_state) (self : t)
    : exit_result * gen_state * t :=
  match b with
  | BodyReturns =>
      match gen_next g self with
      | (Stops, s) => (Completes, Finished, s)
      | (Yields _ g', s) =>
          (Propagates (RuntimeError "generator didn't stop"), g', s)
      | (Raises e, s) => (Propagates e, Finished, s)
      | (Waits, s) => (Hangs, g, s)
      end
  | BodyRaises e =>
      match gen_throw d e g self with
      | (Stops, s) => (Completes, Finished, s)
      | (Raises e', s) => (Propagates e', Finished, s)
      | (Yields _ g', s) =>
          (Propagates (RuntimeError "generator didn't stop after athrow()"), g', s)
      | (Waits, s) => (Hangs, g, s)
      end
  end.

(** [async with factory.get_pooled_connection() as conn: body]: the
    connection the block received (if it was entered), how the statement
    ends, where the generator is left, and the factory afterwards.  The
    block is a function of the connection it is given. *)
Definition async_with (d : driver) (body : conn -> body_outcome) (self : t)
    : option conn * exit_result * gen_state * t :=
  match get_pooled_connection d self with
  | (Yields c g, s) =>
      let '(r, g', s') := aexit d (body c) g s in (Some c, r, g', s')
  | (Stops, s) => (None, Propagates (RuntimeError "generator didn't yield"), Finished, s)
  | (Raises e, s) => (None, Propagates e, Finished, s)
  | (Waits, s) => (None, Hangs, Finished, s)
  end.

(** The items of the queue. *)
Definition pooled (self : t) : list conn :=
  match _connection_pool self with Some q => q | None => [] end.

(** [c] is a connection the factory has made: the [c]-th [connect()]
    has been called and returned. *)
Definition made (d : driver) (self : t) (c : conn) : Prop :=
  (c < connects self)%nat /\ connect d c = Connects.

(** [c] is out of the factory's hands: made, not closed, and not in the
    queue. *)
Definition outstanding (d : driver) (self : t) (c : conn) : Prop :=
  made d self c /\ (c ∉ closed self) /\ (c ∉ pooled self).

(** The connection a suspended generator holds in its [conn]. *)
Definition held_by (g : gen_state) : list conn :=
  match g with
  | AtYieldUnpooled c | AtYieldPooled c | AtYieldReplacement c => [c]
  | Finished => []
  end.

(** The events of [create_connection]: calls of [connect()] and the
    sleeps between them. *)
Definition connecting (e : event) : Prop :=
  match e with
  | EvConnect _ _ | EvWait _ => True
  | _ => False
  end.

(** What [create_connection] changes: nothing in the queue or among
    the closed handles; it makes at most one connection, the one it
    returns; its events are calls of [connect()] and sleeps; and its
    error is tenacity's [RetryError], unless [connect()] raised something
    that is not an [Exception]. *)
Definition create_connection_effect (d : driver) (s : t) (r : conn + exn)
    (s1 : t) : Prop :=
  _connection_pool s1 = _connection_pool s
  /\ _pool_size s1 = _pool_size s
  /\ closed s1 = closed s
  /\ (connects s <= connects s1)%nat
  /\ (forall c', made d s1 c' -> made d s c' \/ r = inl c')
  /\ (exists evs, trace s1 = trace s ++ evs /\ Forall connecting evs
                  /\ match r with
                     | inl c => EvConnect c true ∈ evs
                     | inr _ => True
                     end)
  /\ match r with
     | inl c => made d s1 c /\ (connects s <= c)%nat
     | inr e => (exists e0, e = RetryError e0 /\ is_Exception e0 = true)
                \/ is_Exception e = false
     end.

(** The queue exists and has room for one more item. *)
Definition has_room (self : t) : Prop :=
  match _connection_pool self with
  | Some q => 0 < _pool_size self -> Z.of_nat (length q) < _pool_size self
  | None => False
  end.

(** Every connection made is closed, in the queue, among [held], or was
    already out of the factory's hands at [self0], where the call
    started. *)
Definition accounted (d : driver) (self0 : t) (held : list conn) (self : t)
    : Prop :=
  forall c', made d self c' ->
    c' ∈ closed self \/ c' ∈ pooled self \/ c' ∈ held \/ outstanding d self0 c'.

(** What holds of the factory while the generator is at [g]: a generator
    of the pooled branch has taken an item from the queue, so there is
    room to put one; and every connection is accounted for, the generator
    holding its [conn]. *)
Definition gen_ok (d : driver) (self0 : t) (g : gen_state) (self : t) : Prop :=
  match g with
  | AtYieldPooled _ | AtYieldReplacement _ => has_room self
  | _ => True
  end
  /\ accounted d self0 (held_by g) self.

(** The factory after [initialize_pool] with [CONNECTION_POOL_SIZE=1] and
    the database up: one connection, in the queue. *)
Definition pool_of_one : t :=
  {| _connection_pool := Some [O]; _pool_size := 1; _pool_initialized := true;
     connects := 1%nat; closed := [];
     trace := [EvConnect O true; EvPut O] |}.

(** A database that is down and one that is up. *)
Definition down (msg : string) : driver :=
  {| connect := fun _ => ConnectRaises (PyodbcError msg);
     select_1 := fun _ => false |}.

Definition up : driver :=
  {| connect := fun _ => Connects; select_1 := fun _ => true |}.

(** The queue holds at most [maxsize] items (what [asyncio.Queue]
    maintains for [maxsize > 0]). *)
Definition queue_within_maxsize (self : t) : Prop :=
  match _connection_pool self with
  | Some q => 0 < _pool_size self -> Z.of_nat (length q) <= _pool_size self
  | None => True
  end.

(** The sleeps of a trace, in seconds. *)
Definition waits_of (evs : list event) : list Z :=
  omap (fun e => match e with EvWait s => Some s | _ => None end) evs.

(** The handles on which [close()] is called in a trace. *)
Definition closes_of (evs : list event) : list conn :=
  omap (fun e => match e with EvClose c => Some c | _ => None end) evs.

(** *** [cleanup_pool] *)

(** The [while] loop of [cleanup_pool].  [get_nowait()] is not a
    coroutine: it takes the connection out of the queue and returns it,
    and [await] on a connection raises [TypeError] (a connection is not
    awaitable); the bare [except] swallows it, so [close_connection] is
    not reached.  [fuel] is the number of turns allowed, the length of
    the queue in [cleanup_pool]. *)
Fixpoint drain (fuel : nat) (self : t) : t :=
  match fuel with
  | O => self
  | S fuel' =>
      match pool_get self with
      | Some (_, self1) => drain fuel' self1
      | None => self
      end
  end.

(** [cleanup_pool] (a queue object is truthy, whatever it holds). *)
Definition cleanup_pool (self : t) : t :=
  match _connection_pool self with
  | Some q =>
      if _pool_initialized self
      then set_initialized false (drain (length q) self)
      else self
  | None => self
  end.

(** *** [_create_token_struct] *)

(** A [str] as the list of its code points, [bytes] as the list of
    8-bit integers. *)
Definition utf16_le_unit (u : Z) : list Z := [u mod 256; u / 256].

(** [str.encode('utf-16-le')] for one code point: two bytes below
    [0x10000], a surrogate pair from there on; a lone surrogate
    ([0xD800] to [0xDFFF]) raises [UnicodeEncodeError] ([None]). *)
Definition encode_code_point (cp : Z) : option (list Z) :=
  if (cp <? 0) || (0x10FFFF <? cp) then None
  else if cp <? 0xD800 then Some (utf16_le_unit cp)
  else if cp <? 0xE000 then None
  else if cp <? 0x10000 then Some (utf16_le_unit cp)
  else
    let v := cp - 0x10000 in
    Some (utf16_le_unit (0xD800 + v / 1024)
            ++ utf16_le_unit (0xDC00 + v mod 1024)).

Fixpoint encode_utf_16_le (s : list Z) : option (list Z) :=
  match s with
  | [] => Some []
  | cp :: rest =>
      match encode_code_point cp, encode_utf_16_le rest with
      | Some b, Some bs => Some (b ++ bs)
      | _, _ => None
      end
  end.

(** [struct.pack('<I', n)]: four bytes, least significant first;
    [struct.error] ([None]) outside [0 .. 2 ** 32 - 1]. *)
Definition pack_uint32_le (n : Z) : option (list Z) :=
  if (n <? 0) || (0xFFFFFFFF <? n) then None
  else Some [n mod 256; (n / 256) mod 256; (n / 65536) mod 256;
             (n / 16777216) mod 256].

(** [_create_token_struct]: [None] stands for the exception of the
    encoding or of [struct.pack].  The format [<I{n}s] has no padding,
    and [{n}s] with [n] the length of the bytes copies them all. *)
Definition _create_token_struct (token : list Z) : option (list Z) :=
  match encode_utf_16_le token with
  | Some token_bytes =>
      match pack_uint32_le (Z.of_nat (length token_bytes)) with
      | Some header => Some (header ++ token_bytes)
      | None => None
      end
  | None => None
  end.

(** The UTF-16 code units a code point takes, and those of a [str]. *)
Definition utf16_units (cp : Z) : Z := if cp <? 0x10000 then 1 else 2.

Definition utf16_length (s : list Z) : Z :=
  fold_right (fun cp n => utf16_units cp + n) 0 s.

(** A code point that [encode] accepts: in range and not a surrogate. *)
Definition encodable (cp : Z) : Prop :=
  0 <= cp <= 0x10FFFF /\ ~ (0xD800 <= cp < 0xE000).

(** A database on which every [connect()] raises an [Exception]. *)
Definition always_fails (d : driver) : Prop :=
  forall i, exists e0, connect d i = ConnectRaises e0
                       /\ is_Exception (raised_by_connect e0) = true.

End SqlConnectionFactory.

(** ** [ServerCore._create_connection_with_retry]
    ([src/server/core.py], lines 101-107) *)
Module ServerCore.
Import SqlConnectionFactory.

(** The retry loop of the decorator of [_create_connection_with_retry]
    (the arguments are those of the decorator of [create_connection])
    around [create_connection], which has its own: an [Exception] of
    [create_connection], its [RetryError] included, is retried. *)
Fixpoint retrying_create (d : driver) (fuel : nat) (attempt_number : Z)
    (factory : t) : (conn + exn) * t :=
  match create_connection d factory with
  | (inl c, factory1) => (inl c, factory1)
  | (inr e, factory1) =>
      if negb (is_Exception e) then (inr e, factory1)
      else if stop_after_attempt 3 attempt_number
           then (inr (RetryError e), factory1)
      else
        match fuel with
        | O => (inr (RetryError e), factory1)
        | S fuel' =>
            retrying_create d fuel' (attempt_number + 1)
              (log (EvWait (wait_exponential 1 2 10 attempt_number)) factory1)
        end
  end.

Definition _create_connection_with_retry (d : driver) (factory : t)
    : (conn + exn) * t :=
  retrying_create d 3 1 factory.

End ServerCore.

(* ===================================================================== *)
(** * Part II: theorems                                                    *)
(* ===================================================================== *)

Section CacheFacts.
Import DatabaseInfo.

(** Sanity: the ordinal of [datetime.min] is 1 and a known date has the
    ordinal that [date.toordinal()] gives (2025-03-10 is day 739320). *)
Example toordinal_min : datetime.toordinal datetime.min = 1.
Proof. reflexivity. Qed.

Example toordinal_2025_03_10 :
  datetime.toordinal (datetime.mk 2025 3 10 12 0 0 0) = 739320.
Proof. reflexivity. Qed.

(** The constructor normalises: the [seconds] of a difference lie within
    one day and its [microseconds] within one second. *)
Lemma new_timedelta_normal d s us :
  0 <= datetime.seconds (datetime.new_timedelta d s us) < 86400
  /\ 0 <= datetime.microseconds (datetime.new_timedelta d s us) < 1000000.
Proof.
  unfold datetime.new_timedelta; simpl; split.
  - apply Z.mod_pos_bound; lia.
  - apply Z.mod_pos_bound; lia.
Qed.

(** [seconds] is the whole seconds of the difference modulo one day: the
    days of the difference are not in it. *)
Lemma seconds_drops_days (x : datetime.timedelta) :
  0 <= datetime.seconds x < 86400 ->
  0 <= datetime.microseconds x < 1000000 ->
  datetime.seconds x = (datetime.total_microseconds x / 1000000) mod 86400.
Proof.
  intros Hs Hu. unfold datetime.total_microseconds.
  rewrite Z.div_add_l by lia.
  rewrite (Z.div_small (datetime.microseconds x)) by lia.
  rewrite Z.add_0_r, Z.add_comm, Z.mod_add by lia.
  symmetry; apply Z.mod_small; lia.
Qed.

(** What the code computes: the age of the entry in whole seconds,
    modulo one day, against the TTL. *)
Lemma is_cache_valid_mod_day now (self : t) :
  is_cache_valid now self
  = ((datetime.total_microseconds (datetime.sub now (last_updated self))
        / 1000000) mod 86400 <? cache_ttl self).
Proof.
  unfold is_cache_valid.
  destruct (new_timedelta_normal
              (datetime.toordinal now - datetime.toordinal (last_updated self))
              (datetime._secs now - datetime._secs (last_updated self))
              (datetime.microsecond now - datetime.microsecond (last_updated self)))
    as [Hs Hu].
  fold (datetime.sub now (last_updated self)) in Hs, Hu.
  now rewrite (seconds_drops_days _ Hs Hu).
Qed.

(** While the entry is less than one day old, the code agrees with
    [now - written_at < ttl]. *)
Lemma is_cache_valid_within_a_day now (self : t) :
  let age := datetime.total_microseconds (datetime.sub now (last_updated self)) in
  0 <= age < 86400 * 1000000 ->
  (is_cache_valid now self = true <-> age < cache_ttl self * 1000000).
Proof.
  intros age Hage. rewrite is_cache_valid_mod_day. fold age.
  assert (H1 : 0 <= age / 1000000 < 86400).
  { split; [apply Z.div_pos; lia | apply Z.div_lt_upper_bound; lia]. }
  rewrite Z.mod_small by exact H1.
  rewrite Z.ltb_lt. split; intros H.
  - pose proof (Z.mul_div_le age 1000000 ltac:(lia)).
    pose proof (Z.mod_pos_bound age 1000000 ltac:(lia)).
    pose proof (Z.div_mod age 1000000 ltac:(lia)). lia.
  - apply Z.div_lt_upper_bound; lia.
Qed.

(** After [invalidate_cache] the code compares the time of day of [now]
    with the TTL. *)
Lemma is_cache_valid_after_invalidate now (self : t) :
  datetime.time_in_range now ->
  is_cache_valid now (invalidate_cache self)
  = (datetime._secs now <? cache_ttl self).
Proof.
  intros (Hh & Hm & Hs & Hu).
  unfold is_cache_valid, invalidate_cache, datetime.sub, datetime.new_timedelta,
    datetime._secs in *; simpl.
  rewrite !Z.sub_0_r.
  rewrite (Z.div_small (datetime.microsecond now)) by lia.
  rewrite Z.add_0_r, Z.mod_small by lia. reflexivity.
Qed.

(** C1 (the code at the failing input).  An entry is invalidated and read
    two minutes after midnight: [is_cache_valid] answers [True], where
    the claim has it answer [False] at every later time.
    [datetime.now() - datetime.min] has 120 in its [seconds], and
    120 < 300. *)
Theorem C1_invalidated_entry_valid_after_midnight :
  is_cache_valid (datetime.mk 2025 3 11 0 2 0 0) (invalidate_cache noon_entry)
  = true.
Proof. reflexivity. Qed.

(** C2 (the code at the failing input).  The entry written at [t0] with
    [ttl = 300] is valid at [t0 + 299 s] and invalid at [t0 + 301 s], as
    the claim says, but one day and ten seconds after [t0] the code
    answers [True] again: the age is 86410 s, its [seconds] are 10. *)
Theorem C2_entry_valid_again_after_one_day :
  is_cache_valid (datetime.mk 2025 3 10 12 4 59 0) noon_entry = true
  /\ is_cache_valid (datetime.mk 2025 3 10 12 5 1 0) noon_entry = false
  /\ datetime.total_microseconds
       (datetime.sub (datetime.mk 2025 3 11 12 0 10 0) (last_updated noon_entry))
     = 86410 * 1000000
  /\ is_cache_valid (datetime.mk 2025 3 11 12 0 10 0) noon_entry = true.
Proof. repeat split; reflexivity. Qed.

End CacheFacts.

Section AgenticSQLClientFacts.
Import AgenticSQLClient.

Lemma run_call_failures_nonneg (c : call) (self : t) :
  0 <= _circuit_breaker_failures self ->
  0 <= _circuit_breaker_failures (run_call c self).
Proof.
  intros H. destruct c as [now | now | ]; simpl.
  - unfold _is_circuit_breaker_open.
    destruct (_ <=? _); [destruct (PrimFloat.ltb _ _) |]; simpl; lia.
  - lia.
  - unfold _record_success. destruct (0 <? _); simpl; lia.
Qed.

Lemma run_calls_failures_nonneg (cs : list call) (self : t) :
  0 <= _circuit_breaker_failures self ->
  0 <= _circuit_breaker_failures (run_calls cs self).
Proof.
  revert self. induction cs as [| c cs IH]; intros self H; simpl.
  - exact H.
  - apply IH, run_call_failures_nonneg, H.
Qed.

(** The failure count of a client is never negative. *)
Lemma reachable_failures_nonneg (self : t) :
  reachable self -> 0 <= _circuit_breaker_failures self.
Proof.
  intros [cs ->]. apply run_calls_failures_nonneg. simpl. lia.
Qed.

(** A call that answers [True] leaves the client as it was. *)
Lemma is_open_true_unchanged (now : float) (self : t) :
  fst (_is_circuit_breaker_open now self) = true ->
  snd (_is_circuit_breaker_open now self) = self.
Proof.
  unfold _is_circuit_breaker_open.
  destruct (_ <=? _); [destruct (PrimFloat.ltb _ _) |]; simpl; congruence.
Qed.

(** While the cooldown runs, every call of an open breaker answers
    [True] and changes nothing. *)
Lemma is_open_calls_cooling (nows : list float) (self : t) :
  _circuit_breaker_threshold self <= _circuit_breaker_failures self ->
  Forall (fun now => cooling_down now self = true) nows ->
  is_open_calls nows self = (repeat true (length nows), self).
Proof.
  intros Hth. induction 1 as [| now nows Hnow _ IH]; simpl.
  - reflexivity.
  - unfold _is_circuit_breaker_open. unfold cooling_down in Hnow.
    apply Z.leb_le in Hth. rewrite Hth, Hnow, IH. reflexivity.
Qed.

Lemma is_open_calls_app (xs ys : list float) (self : t) :
  is_open_calls (xs ++ ys) self
  = let '(bs, self1) := is_open_calls xs self in
    let '(bs', self2) := is_open_calls ys self1 in
    (bs ++ bs', self2).
Proof.
  revert self. induction xs as [| x xs IH]; intros self; simpl.
  - destruct (is_open_calls ys self); reflexivity.
  - destruct (_is_circuit_breaker_open x self) as [b s1].
    rewrite IH. destruct (is_open_calls xs s1) as [bs s2].
    destruct (is_open_calls ys s2); reflexivity.
Qed.

(** The client after five consecutive [_record_failure] calls on a
    fresh client, the clock reading [t1 .. t5] at the calls. *)
Lemma five_failures (t1 t2 t3 t4 t5 : float) :
  run_calls [RecordFailure t1; RecordFailure t2; RecordFailure t3;
             RecordFailure t4; RecordFailure t5] init
  = {| _circuit_breaker_failures := 5;
       _circuit_breaker_last_failure := t5;
       _circuit_breaker_threshold := 5;
       _circuit_breaker_timeout := 60%float |}.
Proof. reflexivity. Qed.

(** C4.  [_is_circuit_breaker_open] answers [True] exactly when
    [failures >= threshold] and [now - last_failure < timeout], and then
    changes nothing; over threshold with the cooldown elapsed it answers
    [False] and resets the failure count to 0, leaving the other three
    attributes as they were; below threshold it answers [False] and
    changes nothing.  With the threshold 5 of [__init__]: after five
    consecutive [_record_failure] calls the count is 5, every call made
    while the cooldown runs answers [True], and the first call after it
    has elapsed answers [False] and leaves a failure count of 0, so that
    any further call answers [False]. *)
Theorem C4_is_circuit_breaker_open :
  (forall (now : float) (self : t),
      (fst (_is_circuit_breaker_open now self) = true <->
         _circuit_breaker_threshold self <= _circuit_breaker_failures self
         /\ cooling_down now self = true)
      /\ (fst (_is_circuit_breaker_open now self) = true ->
            snd (_is_circuit_breaker_open now self) = self)
      /\ (_circuit_breaker_threshold self <= _circuit_breaker_failures self ->
            cooling_down now self = false ->
            _is_circuit_breaker_open now self = (false, set_failures 0 self)
            /\ _circuit_breaker_failures (snd (_is_circuit_breaker_open now self))
               = 0
            /\ _circuit_breaker_last_failure
                 (snd (_is_circuit_breaker_open now self))
               = _circuit_breaker_last_failure self
            /\ _circuit_breaker_threshold
                 (snd (_is_circuit_breaker_open now self))
               = _circuit_breaker_threshold self
            /\ _circuit_breaker_timeout
                 (snd (_is_circuit_breaker_open now self))
               = _circuit_breaker_timeout self)
      /\ (_circuit_breaker_failures self < _circuit_breaker_threshold self ->
            _is_circuit_breaker_open now self = (false, self)))
  /\ (forall (t1 t2 t3 t4 t5 : float) (nows : list float) (late : float),
        let self :=
          run_calls [RecordFailure t1; RecordFailure t2; RecordFailure t3;
                     RecordFailure t4; RecordFailure t5] init in
        Forall (fun now => cooling_down now self = true) nows ->
        cooling_down late self = false ->
        _circuit_breaker_failures self = 5
        /\ is_open_calls (nows ++ [late]) self
           = (repeat true (length nows) ++ [false], set_failures 0 self)
        /\ _circuit_breaker_failures (snd (is_open_calls (nows ++ [late]) self))
           = 0
        /\ (forall again : float,
              fst (_is_circuit_breaker_open again
                     (snd (is_open_calls (nows ++ [late]) self))) = false)).
Proof.
  split.
  - intros now self. unfold _is_circuit_breaker_open, cooling_down.
    destruct (Z.leb_spec (_circuit_breaker_threshold self)
                (_circuit_breaker_failures self)) as [Hle | Hlt];
      [destruct (PrimFloat.ltb _ _) eqn:Hcool |]; simpl;
      repeat split; intros; try tauto; try congruence; try lia.
  - intros t1 t2 t3 t4 t5 nows late self Hnows Hlate.
    assert (Hrun : is_open_calls (nows ++ [late]) self
                   = (repeat true (length nows) ++ [false],
                      set_failures 0 self)).
    { rewrite is_open_calls_app.
      rewrite (is_open_calls_cooling nows self) by (simpl; lia || exact Hnows).
      simpl. unfold _is_circuit_breaker_open. unfold cooling_down in Hlate.
      rewrite Hlate. reflexivity. }
    split; [reflexivity |]. split; [exact Hrun |].
    rewrite Hrun. split; [reflexivity |].
    intros again. reflexivity.
Qed.

(** The scenario of C4 on concrete clock readings: failures at 1000 s
    to 1004 s, calls at 1010 s, 1030 s and 1063.5 s, and one at 1064 s
    (the timeout is 60 s). *)
Lemma C4_is_circuit_breaker_open_witness :
  let self :=
    run_calls [RecordFailure 1000; RecordFailure 1001; RecordFailure 1002;
               RecordFailure 1003; RecordFailure 1004]%float init in
  _circuit_breaker_failures self = 5
  /\ is_open_calls ([1010; 1030; 1063.5] ++ [1064])%float self
     = ([true; true; true; false], set_failures 0 self)
  /\ _circuit_breaker_failures
       (snd (is_open_calls ([1010; 1030; 1063.5] ++ [1064])%float self))
     = 0
  /\ (forall again : float,
        fst (_is_circuit_breaker_open again
               (snd (is_open_calls ([1010; 1030; 1063.5] ++ [1064])%float
                       self))) = false).
Proof.
  intros self.
  apply (proj2 C4_is_circuit_breaker_open 1000 1001 1002 1003 1004
           [1010; 1030; 1063.5] 1064)%float.
  - repeat constructor.
  - reflexivity.
Defined.

(** C9.  On a client (whose failure count is never negative)
    [_record_success] sets the failure count to
    [max(0, failures - 1)]: one less, never below zero, and not zero
    when it was two or more; the time of the last failure, the
    threshold and the timeout stay as they were. *)
Theorem C9_record_success (self : t) :
  0 <= _circuit_breaker_failures self ->
  _circuit_breaker_failures (_record_success self)
    = Z.max 0 (_circuit_breaker_failures self - 1)
  /\ (2 <= _circuit_breaker_failures self ->
        _circuit_breaker_failures (_record_success self) <> 0)
  /\ _circuit_breaker_last_failure (_record_success self)
     = _circuit_breaker_last_failure self
  /\ _circuit_breaker_threshold (_record_success self)
     = _circuit_breaker_threshold self
  /\ _circuit_breaker_timeout (_record_success self)
     = _circuit_breaker_timeout self.
Proof.
  intros H. unfold _record_success.
  destruct (Z.ltb_spec 0 (_circuit_breaker_failures self)); simpl;
    repeat split; lia.
Qed.

(** C9 on the client after five failures: one success leaves four. *)
Lemma C9_record_success_witness :
  let self :=
    run_calls [RecordFailure 1000; RecordFailure 1001; RecordFailure 1002;
               RecordFailure 1003; RecordFailure 1004]%float init in
  _circuit_breaker_failures (_record_success self) = 4
  /\ _circuit_breaker_last_failure (_record_success self) = 1004%float.
Proof.
  intros self.
  destruct (C9_record_success self ltac:(simpl; lia)) as (H1 & _ & H2 & _).
  split; [exact H1 | exact H2].
Defined.

End AgenticSQLClientFacts.

Section ConnectionHealthMonitorFacts.
Import ConnectionHealthMonitor.

(** A monitor with [max_errors = 5] that has one record, for "primary",
    with one error so far. *)
Example one_error_monitor_lookup :
  let m := run_calls [Start "primary";
                      Check "primary" (ProbeRaises "timeout") (mkClock 10 11 11)]
             (new 60 5) in
  option_map error_count (connection_health m !! "primary") = Some 1
  /\ option_map state (connection_health m !! "primary") = Some HEALTHY.
Proof. split; reflexivity. Qed.

(** C3, as stated, fails: with [max_errors = 5] the second failure in a
    row gives [error_count = 2], which is below the exact half 2.5, and
    the state is DEGRADED, not HEALTHY (the code compares with
    [5 // 2 = 2]). *)
Lemma C3_exact_half_counterexample :
  ~ (forall (self self' : t) (connection_id error_msg : string) (k : clock)
            (health' : ConnectionHealth),
        _check_connection_health connection_id (ProbeRaises error_msg) k self
          = Some self' ->
        connection_health self' !! connection_id = Some health' ->
        2 * error_count health' < max_errors self ->
        state health' = HEALTHY).
Proof.
  intros H.
  pose (m := run_calls [Start "primary";
                        Check "primary" (ProbeRaises "timeout") (mkClock 10 11 11)]
               (new 60 5)).
  specialize (H m
                (run_call (Check "primary" (ProbeRaises "timeout") (mkClock 70 71 71)) m)
                "primary" "timeout" (mkClock 70 71 71)
                {| state := DEGRADED; last_check := 71; response_time_ms := 1000;
                   error_count := 2; last_error := Some "timeout";
                   recovery_attempts := 0 |}
                eq_refl eq_refl).
  assert (Hlt : 2 * 2 < 5) by lia.
  specialize (H Hlt). discriminate H.
Qed.

(** C3, amended.  On a probe failure of a monitored identity the record
    gets [error_count + 1] and the message in [last_error], and its state
    is UNHEALTHY if the new count is at least [max_errors], DEGRADED if
    it is at least [max_errors // 2] (the half rounded down) and below
    [max_errors], and HEALTHY if it is below [max_errors // 2]; for
    [max_errors = 5] a count of 2 is DEGRADED. *)
Theorem C3_probe_failure (self : t) (connection_id error_msg : string)
    (k : clock) (health : ConnectionHealth) :
  connection_health self !! connection_id = Some health ->
  exists (self' : t) (health' : ConnectionHealth),
    _check_connection_health connection_id (ProbeRaises error_msg) k self
      = Some self'
    /\ connection_health self' !! connection_id = Some health'
    /\ error_count health' = error_count health + 1
    /\ last_error health' = Some error_msg
    /\ (max_errors self <= error_count health' -> state health' = UNHEALTHY)
    /\ (max_errors self / 2 <= error_count health' < max_errors self ->
          state health' = DEGRADED)
    /\ (0 <= max_errors self \/ 0 <= error_count health ->
        error_count health' < max_errors self / 2 ->
          state health' = HEALTHY)
    /\ (max_errors self = 5 -> error_count health' = 2 ->
          state health' = DEGRADED).
Proof.
  intros Hlook. unfold _check_connection_health. rewrite Hlook.
  eexists _, _. split; [reflexivity |].
  split; [simpl; apply lookup_insert_eq |].
  simpl. repeat split.
  - intros H. apply Z.leb_le in H. now rewrite H.
  - intros [H1 H2]. apply Z.leb_gt in H2. apply Z.leb_le in H1.
    now rewrite H2, H1.
  - intros H0 H.
    assert (Hlt : error_count health + 1 < max_errors self).
    { pose proof (Z.mul_div_le (max_errors self) 2 ltac:(lia)).
      destruct H0 as [H0 | H0]; [lia |].
      destruct (Z.le_gt_cases 0 (max_errors self)) as [Hpos | Hneg]; [lia |].
      pose proof (Z.div_lt_upper_bound (max_errors self) 2 0 ltac:(lia) ltac:(lia)).
      lia. }
    apply Z.leb_gt in Hlt, H. now rewrite Hlt, H.
  - intros H5 H2. rewrite H5, H2. reflexivity.
Qed.

(** C3 on the monitor of the counterexample: the second failure. *)
Lemma C3_probe_failure_witness :
  let m := run_calls [Start "primary";
                      Check "primary" (ProbeRaises "timeout") (mkClock 10 11 11)]
             (new 60 5) in
  exists (self' : t) (health' : ConnectionHealth),
    _check_connection_health "primary" (ProbeRaises "timeout") (mkClock 70 71 71) m
      = Some self'
    /\ connection_health self' !! "primary" = Some health'
    /\ error_count health' = 2
    /\ state health' = DEGRADED.
Proof.
  intros m.
  destruct (C3_probe_failure m "primary" "timeout" (mkClock 70 71 71)
              {| state := HEALTHY; last_check := 11; response_time_ms := 1000;
                 error_count := 1; last_error := Some "timeout";
                 recovery_attempts := 0 |} eq_refl)
    as (self' & health' & H1 & H2 & H3 & _ & _ & _ & _ & H4).
  exists self', health'. repeat split; try assumption.
  apply H4; [reflexivity | exact H3].
Defined.

Lemma start_monitoring_other (a b : string) (self : t) :
  a <> b ->
  connection_health (start_monitoring b self) !! a = connection_health self !! a.
Proof.
  intros Hab. unfold start_monitoring.
  destruct (decide (b ∈ _monitoring_tasks self)); [reflexivity |].
  simpl. apply lookup_insert_ne. congruence.
Qed.

Lemma stop_monitoring_lookup (a b : string) (self : t) :
  connection_health self !! a = None ->
  connection_health (stop_monitoring b self) !! a = None.
Proof.
  intros Ha. unfold stop_monitoring.
  destruct (decide (b ∈ _monitoring_tasks self)); simpl;
    destruct (connection_health self !! b) eqn:Hb; simpl;
    try exact Ha; rewrite lookup_delete_None; now right.
Qed.

Lemma stop_monitoring_deletes (a : string) (self : t) :
  connection_health (stop_monitoring a self) !! a = None.
Proof.
  unfold stop_monitoring.
  destruct (decide (a ∈ _monitoring_tasks self)); simpl;
    destruct (connection_health self !! a) eqn:Ha; simpl;
    try exact Ha; apply lookup_delete_eq.
Qed.

Lemma check_lookup_none (a b : string) (p : probe) (k : clock) (self : t) :
  connection_health self !! a = None ->
  connection_health (run_call (Check b p k) self) !! a = None.
Proof.
  intros Ha. simpl. unfold _check_connection_health.
  destruct (connection_health self !! b) eqn:Hb; [| exact Ha].
  simpl. rewrite lookup_insert_ne; [exact Ha | congruence].
Qed.

(** No record appears for an identity unless [start_monitoring] is
    called for it. *)
Lemma never_started_no_record (a : string) (cs : list call) (self : t) :
  Forall (fun c => c <> Start a) cs ->
  connection_health self !! a = None ->
  connection_health (run_calls cs self) !! a = None.
Proof.
  intros Hcs. revert self.
  induction Hcs as [| c cs Hc _ IH]; intros self Ha; simpl; [exact Ha |].
  apply IH. destruct c as [b | b | b p k].
  - simpl. rewrite start_monitoring_other; [exact Ha | congruence].
  - simpl. now apply stop_monitoring_lookup.
  - now apply check_lookup_none.
Qed.

(** C10.  For an identity without a health record
    [is_connection_healthy] returns [False] and [get_connection_health]
    returns [None], and neither raises: this is so for an identity for
    which [start_monitoring] was never called, whatever else was done
    with the monitor, and for an identity right after
    [stop_monitoring]. *)
Theorem C10_no_health_record :
  (forall (connection_id : string) (self : t),
      connection_health self !! connection_id = None ->
      is_connection_healthy connection_id self = false
      /\ get_connection_health connection_id self = None)
  /\ (forall (connection_id : string) (check_interval max_errors : Z)
             (cs : list call),
        Forall (fun c => c <> Start connection_id) cs ->
        let self := run_calls cs (new check_interval max_errors) in
        is_connection_healthy connection_id self = false
        /\ get_connection_health connection_id self = None)
  /\ (forall (connection_id : string) (self : t),
        is_connection_healthy connection_id (stop_monitoring connection_id self)
          = false
        /\ get_connection_health connection_id (stop_monitoring connection_id self)
           = None).
Proof.
  assert (Hnone : forall (a : string) (self : t),
             connection_health self !! a = None ->
             is_connection_healthy a self = false
             /\ get_connection_health a self = None).
  { intros a self Ha. unfold is_connection_healthy, get_connection_health.
    now rewrite Ha. }
  split; [exact Hnone |]. split.
  - intros a ci me cs Hcs self. apply Hnone.
    apply never_started_no_record; [exact Hcs | apply lookup_empty].
  - intros a self. apply Hnone, stop_monitoring_deletes.
Qed.

(** C10 on a monitor that watches "primary": "replica" was never
    started, and "primary" is unknown once it is stopped. *)
Lemma C10_no_health_record_witness :
  let m := run_calls [Start "primary";
                      Check "primary" ProbeSucceeds (mkClock 10 11 11)]
             (new 60 5) in
  is_connection_healthy "primary" m = true
  /\ is_connection_healthy "replica" m = false
  /\ get_connection_health "replica" m = None
  /\ is_connection_healthy "primary" (stop_monitoring "primary" m) = false.
Proof.
  intros m. split; [reflexivity |].
  pose proof (proj1 (proj2 C10_no_health_record) "replica" 60 5
                [Start "primary";
                 Check "primary" ProbeSucceeds (mkClock 10 11 11)]) as H.
  destruct H as [H1 H2].
  { repeat constructor; discriminate. }
  split; [exact H1 |]. split; [exact H2 |].
  exact (proj1 (proj2 (proj2 C10_no_health_record) "primary" m)).
Defined.

End ConnectionHealthMonitorFacts.

Section ConnectionRecoveryManagerFacts.
Import ConnectionRecoveryManager.

Example float_of_pow2_examples :
  float_of_pow2 0 = Some 1%float /\ float_of_pow2 2 = Some 4%float
  /\ float_of_pow2 1023 = Some 0x1p+1023%float /\ float_of_pow2 1024 = None.
Proof. repeat split; reflexivity. Qed.

(** Up to [2 ** 1023] the conversion agrees with doubling [1.0]. *)
Example float_of_pow2_doubled :
  forallb (fun n => match float_of_pow2 (Z.of_nat n) with
                    | Some x => PrimFloat.eqb x (doubled n)
                    | None => false
                    end)
          (seq 0 1024) = true.
Proof. vm_compute. reflexivity. Qed.

Lemma creations_app (xs ys : list event) :
  creations (xs ++ ys) = (creations xs + creations ys)%nat.
Proof. unfold creations. now rewrite List.filter_app, length_app. Qed.

Lemma waits_app (xs ys : list event) : waits (xs ++ ys) = waits xs ++ waits ys.
Proof. apply omap_app. Qed.

Lemma delay_of_in_range (self : t) (a : Z) :
  a <= 1024 -> delay_of self a = Some (backoff self a).
Proof.
  intros H. unfold delay_of, float_of_pow2, backoff.
  destruct (Z.ltb_spec (a - 1) 1024); [reflexivity | lia].
Qed.

Lemma schedule_app (xs ys : list event) :
  schedule (xs ++ ys) = schedule xs ++ schedule ys.
Proof. unfold schedule. apply List.filter_app. Qed.

(** An attempt on which the factory fails: the wait of the attempt, if
    it has one and the wait ends, then one creation, and the [except]
    branch. *)
Lemma try_attempt_fails (loop : event_loop) (f : factory) (self : t) (a : Z)
    (c : nat) :
  a <= 1024 ->
  (1 < a -> sleep_ends loop (backoff self a) = true) ->
  f c <> Recovers ->
  exists evs, try_attempt loop f self a c = (Fails, evs, S c)
              /\ creations evs = 1%nat
              /\ waits evs = option_list (wait_before self a)
              /\ schedule evs = attempt_schedule self a.
Proof.
  intros Ha Hs Hf. unfold try_attempt, wait_before, attempt_schedule.
  rewrite (delay_of_in_range self a Ha).
  destruct (1 <? a) eqn:H1.
  - apply Z.ltb_lt in H1. rewrite (Hs H1). cbn [negb andb].
    destruct (f c) eqn:Hfc; try congruence;
      eexists; (split; [reflexivity |]); repeat split; reflexivity.
  - cbn [andb].
    destruct (f c) eqn:Hfc; try congruence;
      eexists; (split; [reflexivity |]); repeat split; reflexivity.
Qed.

Lemma try_attempt_recovers (loop : event_loop) (f : factory) (self : t)
    (a : Z) (c : nat) :
  a <= 1024 ->
  (1 < a -> sleep_ends loop (backoff self a) = true) ->
  f c = Recovers ->
  exists evs, try_attempt loop f self a c = (Succeeds, evs, S c)
              /\ creations evs = 1%nat
              /\ waits evs = option_list (wait_before self a)
              /\ schedule evs = attempt_schedule self a
              /\ exists before,
                   evs = before ++ [CreateConnection; Query; CloseConnection].
Proof.
  intros Ha Hs Hf. unfold try_attempt, wait_before, attempt_schedule.
  rewrite (delay_of_in_range self a Ha), Hf.
  destruct (1 <? a) eqn:H1.
  - apply Z.ltb_lt in H1. rewrite (Hs H1). cbn [negb andb].
    eexists; split; [reflexivity |]. repeat split; try reflexivity. eauto.
  - cbn [andb].
    eexists; split; [reflexivity |]. repeat split; try reflexivity.
    exists []. reflexivity.
Qed.

(** An attempt whose wait never ends: the sleep is its only event. *)
Lemma try_attempt_never_returns (loop : event_loop) (f : factory) (self : t)
    (a : Z) (c : nat) :
  1 < a <= 1024 ->
  sleep_ends loop (backoff self a) = false ->
  try_attempt loop f self a c = (NeverReturns, [Sleep (backoff self a)], c).
Proof.
  intros [H1 Ha] Hs. unfold try_attempt.
  rewrite (delay_of_in_range self a Ha), Hs.
  replace (1 <? a) with true by (symmetry; apply Z.ltb_lt; lia).
  reflexivity.
Qed.

Lemma omap_cons_option_list (self : t) (a : Z) (ks : list Z) :
  omap (wait_before self) (a :: ks)
  = option_list (wait_before self a) ++ omap (wait_before self) ks.
Proof. simpl. destruct (wait_before self a); reflexivity. Qed.

(** From the second attempt on every attempt has its wait. *)
Lemma omap_wait_before (self : t) (n : nat) (a : Z) :
  2 <= a ->
  omap (wait_before self) (range_from a n) = map (backoff self) (range_from a n).
Proof.
  revert a. induction n as [| n IH]; intros a Ha; simpl; [reflexivity |].
  unfold wait_before at 1. destruct (Z.ltb_spec 1 a); [| lia].
  now rewrite IH by lia.
Qed.

Lemma flat_map_attempt_schedule (self : t) (n : nat) (a : Z) :
  2 <= a ->
  flat_map (attempt_schedule self) (range_from a n)
  = flat_map (fun k => [Sleep (backoff self k); CreateConnection])
      (range_from a n).
Proof.
  revert a. induction n as [| n IH]; intros a Ha; simpl; [reflexivity |].
  unfold attempt_schedule at 1. destruct (Z.ltb_spec 1 a); [| lia].
  now rewrite IH by lia.
Qed.

Lemma range_from_app (m r : nat) (a : Z) :
  range_from a (m + r) = range_from a m ++ range_from (a + Z.of_nat m) r.
Proof.
  revert a. induction m as [| m IH]; intros a; simpl.
  - now rewrite Z.add_0_r.
  - rewrite IH. do 2 f_equal. f_equal. lia.
Qed.

Section Loop.
Variables (loop : event_loop) (f : factory) (connection_id : string)
  (now : float) (self : t).
Hypothesis Hmax : max_retry_attempts self <= 1024.

(** The loop when the factory never recovers and every wait ends: it
    runs to the last value of the range and takes the
    [attempt == max_retry_attempts] exit. *)
Lemma attempts_over_all_fail (n : nat) :
  forall (a : Z) (c : nat),
    (forall i, f i <> Recovers) ->
    (forall k, 1 < k -> a <= k <= max_retry_attempts self ->
               sleep_ends loop (backoff self k) = true) ->
    a + Z.of_nat n = max_retry_attempts self ->
    exists evs,
      attempts_over loop f connection_id now self (range_from a (S n)) c
      = (Some false,
         record_stats connection_id
           {| last_recovery := now;
              attempts_used := max_retry_attempts self;
              success := false |} self,
         evs)
      /\ creations evs = S n
      /\ waits evs = omap (wait_before self) (range_from a (S n))
      /\ schedule evs = flat_map (attempt_schedule self) (range_from a (S n)).
Proof.
  induction n as [| n IH]; intros a c Hf Hs Ha.
  - destruct (try_attempt_fails loop f self a c ltac:(lia)
                ltac:(intros; apply Hs; lia) (Hf c))
      as (evs & Htry & Hcr & Hw & Hsch).
    exists evs. simpl. rewrite Htry.
    replace (a =? max_retry_attempts self) with true
      by (symmetry; apply Z.eqb_eq; lia).
    replace a with (max_retry_attempts self) at 1 by lia.
    split; [reflexivity |]. split; [exact Hcr |]. split.
    + rewrite Hw. destruct (wait_before self a); reflexivity.
    + rewrite Hsch. now rewrite app_nil_r.
  - destruct (try_attempt_fails loop f self a c ltac:(lia)
                ltac:(intros; apply Hs; lia) (Hf c))
      as (evs & Htry & Hcr & Hw & Hsch).
    destruct (IH (a + 1) (S c) Hf ltac:(intros; apply Hs; lia) ltac:(lia))
      as (evs' & Hrec & Hcr' & Hw' & Hsch').
    exists (evs ++ evs').
    change (range_from a (S (S n))) with (a :: range_from (a + 1) (S n)).
    cbn [attempts_over]. rewrite Htry.
    replace (a =? max_retry_attempts self) with false
      by (symmetry; apply Z.eqb_neq; lia).
    rewrite Hrec. split; [reflexivity |]. split; [| split].
    + rewrite creations_app, Hcr, Hcr'. reflexivity.
    + rewrite waits_app, Hw, Hw'. symmetry. apply omap_cons_option_list.
    + rewrite schedule_app, Hsch, Hsch'. reflexivity.
Qed.

(** The loop when the factory recovers for the first time after [m]
    failed creations: it returns at that attempt, whatever values of
    the range are left. *)
Lemma attempts_over_first_success (m : nat) :
  forall (a : Z) (c : nat) (rest : list Z),
    (forall i, (c <= i < c + m)%nat -> f i <> Recovers) ->
    f (c + m)%nat = Recovers ->
    (forall k, 1 < k -> a <= k <= a + Z.of_nat m ->
               sleep_ends loop (backoff self k) = true) ->
    a + Z.of_nat m <= max_retry_attempts self ->
    exists evs,
      attempts_over loop f connection_id now self
        (range_from a m ++ (a + Z.of_nat m) :: rest) c
      = (Some true,
         record_stats connection_id
           {| last_recovery := now;
              attempts_used := a + Z.of_nat m;
              success := true |} self,
         evs)
      /\ creations evs = S m
      /\ waits evs = omap (wait_before self) (range_from a (S m))
      /\ schedule evs = flat_map (attempt_schedule self) (range_from a (S m))
      /\ exists before,
           evs = before ++ [CreateConnection; Query; CloseConnection].
Proof.
  induction m as [| m IH]; intros a c rest Hfail Hok Hs Ha.
  - rewrite Nat.add_0_r in Hok. simpl in Ha |- *. rewrite Z.add_0_r in *.
    destruct (try_attempt_recovers loop f self a c ltac:(lia)
                ltac:(intros; apply Hs; lia) Hok)
      as (evs & Htry & Hcr & Hw & Hsch & Hlast).
    exists evs. rewrite Htry. split; [reflexivity |]. split; [exact Hcr |].
    split; [rewrite Hw; destruct (wait_before self a); reflexivity |].
    split; [rewrite Hsch; now rewrite app_nil_r | exact Hlast].
  - destruct (try_attempt_fails loop f self a c ltac:(lia)
                ltac:(intros; apply Hs; lia) (Hfail c ltac:(lia)))
      as (evs & Htry & Hcr & Hw & Hsch).
    destruct (IH (a + 1) (S c) rest)
      as (evs' & Hrec & Hcr' & Hw' & Hsch' & b & Hlast).
    { intros i Hi. apply Hfail. lia. }
    { rewrite <- Hok. f_equal. lia. }
    { intros k Hk1 Hk. apply Hs; lia. }
    { lia. }
    exists (evs ++ evs').
    change (range_from a (S m)) with (a :: range_from (a + 1) m).
    replace (a + Z.of_nat (S m)) with (a + 1 + Z.of_nat m) by lia.
    cbn [app attempts_over]. rewrite Htry.
    replace (a =? max_retry_attempts self) with false
      by (symmetry; apply Z.eqb_neq; lia).
    rewrite Hrec. split; [reflexivity |]. split; [| split; [| split]].
    + rewrite creations_app, Hcr, Hcr'. reflexivity.
    + rewrite waits_app, Hw, Hw'. symmetry.
      change (range_from a (S (S m))) with (a :: range_from (a + 1) (S m)).
      apply omap_cons_option_list.
    + rewrite schedule_app, Hsch, Hsch'. reflexivity.
    + exists (evs ++ b). rewrite Hlast. now rewrite app_assoc.
Qed.

(** The loop when the wait before an attempt never ends, after [m]
    failed creations: the call never returns and records nothing. *)
Lemma attempts_over_never_returns (m : nat) :
  forall (a : Z) (c : nat) (rest : list Z),
    (forall i, (c <= i < c + m)%nat -> f i <> Recovers) ->
    (forall k, 1 < k -> a <= k < a + Z.of_nat m ->
               sleep_ends loop (backoff self k) = true) ->
    1 < a + Z.of_nat m ->
    sleep_ends loop (backoff self (a + Z.of_nat m)) = false ->
    a + Z.of_nat m <= max_retry_attempts self ->
    exists evs,
      attempts_over loop f connection_id now self
        (range_from a m ++ (a + Z.of_nat m) :: rest) c
      = (None, self, evs)
      /\ creations evs = m
      /\ schedule evs
         = flat_map (attempt_schedule self) (range_from a m)
           ++ [Sleep (backoff self (a + Z.of_nat m))].
Proof.
  induction m as [| m IH]; intros a c rest Hfail Hs H1 Hno Ha.
  - simpl in *. rewrite Z.add_0_r in *.
    rewrite (try_attempt_never_returns loop f self a c ltac:(lia) Hno).
    eexists. split; [reflexivity |]. split; reflexivity.
  - destruct (try_attempt_fails loop f self a c ltac:(lia)
                ltac:(intros; apply Hs; lia) (Hfail c ltac:(lia)))
      as (evs & Htry & Hcr & _ & Hsch).
    replace (a + Z.of_nat (S m)) with (a + 1 + Z.of_nat m) in * by lia.
    destruct (IH (a + 1) (S c) rest) as (evs' & Hrec & Hcr' & Hsch').
    { intros i Hi. apply Hfail. lia. }
    { intros k Hk1 Hk. apply Hs; lia. }
    { exact H1. }
    { exact Hno. }
    { lia. }
    exists (evs ++ evs').
    change (range_from a (S m)) with (a :: range_from (a + 1) m).
    cbn [app attempts_over]. rewrite Htry.
    replace (a =? max_retry_attempts self) with false
      by (symmetry; apply Z.eqb_neq; lia).
    rewrite Hrec. split; [reflexivity |]. split.
    + rewrite creations_app, Hcr, Hcr'. reflexivity.
    + rewrite schedule_app, Hsch, Hsch'. simpl flat_map.
      now rewrite <- app_assoc.
Qed.

End Loop.

(** A factory that is down: every creation raises. *)
Example recover_three_attempts :
  recover_connection (mkLoop true) (fun _ => RaisesAtCreate "down") "primary"
    500 (new 3 2)
  = (Some false,
     record_stats "primary"
       {| last_recovery := 500; attempts_used := 3; success := false |} (new 3 2),
     [CreateConnection; Sleep 4; CreateConnection; Sleep 8; CreateConnection]).
Proof. reflexivity. Qed.

(** With 1025 attempts and no delay, the last attempt fails on the
    [OverflowError] of [0.0 * 2 ** 1024] before it asks the factory: 1024
    creations, and stats that record 1025 attempts. *)
Example recover_overflow :
  let '(r, self', evs) :=
    recover_connection (mkLoop true) (fun _ => RaisesAtCreate "down") "primary"
      500 (new 1025 0) in
  r = Some false /\ creations evs = 1024%nat
  /\ option_map attempts_used (_recovery_stats self' !! "primary") = Some 1025.
Proof. vm_compute. repeat split. Qed.

(** With a base delay of 2 seconds every delay up to attempt 1023 is
    finite, and the delay of attempt 1024, [2.0 * 2 ** 1023], is
    infinite. *)
Example backoff_finite_up_to_1023 :
  forallb (fun n => sleep_ends (mkLoop true) (backoff (new 1024 2) (Z.of_nat n)))
    (seq 2 1022) = true
  /\ sleep_ends (mkLoop true) (backoff (new 1024 2) 1024) = false.
Proof. split; vm_compute; reflexivity. Qed.

(** C6, as stated, fails for [max_retry_attempts = 0] (a value the
    server configuration accepts): the range is empty, the call returns
    [False] from its last line and writes no stats. *)
Lemma C6_zero_attempts_counterexample :
  ~ (forall (loop : event_loop) (f : factory) (connection_id : string)
            (now : float) (self : t),
        (forall i, f i <> Recovers) ->
        exists (self' : t) (evs : list event) (stats : RecoveryStats),
          recover_connection loop f connection_id now self
          = (Some false, self', evs)
          /\ creations evs = Z.to_nat (max_retry_attempts self)
          /\ _recovery_stats self' !! connection_id = Some stats
          /\ attempts_used stats = max_retry_attempts self
          /\ success stats = false).
Proof.
  intros H.
  destruct (H (mkLoop true) (fun _ => RaisesAtCreate "down") "primary"
              500%float (new 0 2) ltac:(discriminate))
    as (self' & evs & stats & Hrun & _ & Hstats & _).
  change (recover_connection (mkLoop true) (fun _ => RaisesAtCreate "down")
            "primary" 500 (new 0 2))
    with (Some false, new 0 2, @nil event) in Hrun.
  injection Hrun as <- _. discriminate Hstats.
Qed.

(** C6, amended.  With [1 <= max_retry_attempts] (and at most 1024, so
    that every [2 ** (k - 1)] is a float) and delays that
    [asyncio.sleep] returns from: if every creation or probe of the
    factory fails, the creations and the sleeps of the call are, in this
    order, the creation of attempt 1 and then, for each attempt [k] from
    2 to [max_retry_attempts], a sleep of [base_delay * 2 ** (k - 1)]
    followed by the creation of attempt [k]; the call returns [False]
    and records [attempts_used = max_retry_attempts], [success = False]
    for the identity.  If attempt [k] is the first on which the factory
    recovers, the call ends with that attempt: the same creations and
    sleeps up to [k], the answer [True], and [attempts_used = k],
    [success = True].  If the delay of attempt [k] is one that
    [asyncio.sleep] never returns from (an infinite one), the call
    never returns: after the creations and sleeps of the attempts
    before [k] it starts that sleep, and it records nothing.  For
    [max_retry_attempts = 3] and [base_delay = 2.0] the sleeps are of
    4.0 s and 8.0 s, and both end. *)
Theorem C6_recover_connection (loop : event_loop) (f : factory)
    (connection_id : string) (now : float) (self : t) :
  1 <= max_retry_attempts self <= 1024 ->
  ((forall k, 2 <= k <= max_retry_attempts self ->
              sleep_ends loop (backoff self k) = true) ->
   (forall i, f i <> Recovers) ->
     exists (self' : t) (evs : list event),
       recover_connection loop f connection_id now self
       = (Some false, self', evs)
       /\ creations evs = Z.to_nat (max_retry_attempts self)
       /\ waits evs = map (backoff self) (range 2 (max_retry_attempts self + 1))
       /\ schedule evs
          = CreateConnection
            :: flat_map (fun k => [Sleep (backoff self k); CreateConnection])
                 (range 2 (max_retry_attempts self + 1))
       /\ _recovery_stats self' !! connection_id
          = Some {| last_recovery := now;
                    attempts_used := max_retry_attempts self;
                    success := false |})
  /\ (forall k : Z,
        1 <= k <= max_retry_attempts self ->
        (forall j, 2 <= j <= k -> sleep_ends loop (backoff self j) = true) ->
        (forall i, (i < Z.to_nat k - 1)%nat -> f i <> Recovers) ->
        f (Z.to_nat k - 1)%nat = Recovers ->
        exists (self' : t) (evs before : list event),
          recover_connection loop f connection_id now self
          = (Some true, self', evs)
          /\ creations evs = Z.to_nat k
          /\ waits evs = map (backoff self) (range 2 (k + 1))
          /\ schedule evs
             = CreateConnection
               :: flat_map (fun j => [Sleep (backoff self j); CreateConnection])
                    (range 2 (k + 1))
          /\ evs = before ++ [CreateConnection; Query; CloseConnection]
          /\ _recovery_stats self' !! connection_id
             = Some {| last_recovery := now; attempts_used := k;
                       success := true |})
  /\ (forall k : Z,
        2 <= k <= max_retry_attempts self ->
        (forall j, 2 <= j < k -> sleep_ends loop (backoff self j) = true) ->
        sleep_ends loop (backoff self k) = false ->
        (forall i, (i < Z.to_nat k - 1)%nat -> f i <> Recovers) ->
        exists evs : list event,
          recover_connection loop f connection_id now self = (None, self, evs)
          /\ creations evs = (Z.to_nat k - 1)%nat
          /\ schedule evs
             = CreateConnection
               :: flat_map (fun j => [Sleep (backoff self j); CreateConnection])
                    (range 2 k)
               ++ [Sleep (backoff self k)])
  /\ (max_retry_attempts self = 3 -> base_delay self = 2%float ->
        map (backoff self) (range 2 (max_retry_attempts self + 1))
        = [4; 8]%float
        /\ sleep_ends loop 4 = true /\ sleep_ends loop 8 = true).
Proof.
  intros [Hlo Hhi]. split; [| split; [| split]].
  - intros Hs Hf. unfold recover_connection, range.
    replace (Z.to_nat (max_retry_attempts self + 1 - 1))
      with (S (Z.to_nat (max_retry_attempts self) - 1)) by lia.
    destruct (attempts_over_all_fail loop f connection_id now self Hhi
                (Z.to_nat (max_retry_attempts self) - 1) 1 O Hf
                ltac:(intros; apply Hs; lia) ltac:(lia))
      as (evs & Hrun & Hcr & Hw & Hsch).
    eexists _, evs. split; [exact Hrun |]. split; [lia |].
    split; [| split].
    + rewrite Hw.
      change (range_from 1 (S (Z.to_nat (max_retry_attempts self) - 1)))
        with (1 :: range_from 2 (Z.to_nat (max_retry_attempts self) - 1)).
      rewrite omap_cons_option_list.
      change (option_list (wait_before self 1)) with (@nil float). cbn [app].
      rewrite omap_wait_before by lia. do 2 f_equal. lia.
    + rewrite Hsch.
      change (range_from 1 (S (Z.to_nat (max_retry_attempts self) - 1)))
        with (1 :: range_from 2 (Z.to_nat (max_retry_attempts self) - 1)).
      cbn [flat_map].
      change (attempt_schedule self 1) with [CreateConnection]. cbn [app].
      rewrite flat_map_attempt_schedule by lia. do 3 f_equal. lia.
    + simpl. apply lookup_insert_eq.
  - intros k [Hk1 Hk2] Hs Hfail Hok. unfold recover_connection, range.
    replace (Z.to_nat (max_retry_attempts self + 1 - 1))
      with ((Z.to_nat k - 1) + S (Z.to_nat (max_retry_attempts self - k)))%nat
      by lia.
    rewrite range_from_app.
    change (range_from (1 + Z.of_nat (Z.to_nat k - 1))
              (S (Z.to_nat (max_retry_attempts self - k))))
      with ((1 + Z.of_nat (Z.to_nat k - 1))
              :: range_from (1 + Z.of_nat (Z.to_nat k - 1) + 1)
                   (Z.to_nat (max_retry_attempts self - k))).
    destruct (attempts_over_first_success loop f connection_id now self Hhi
                (Z.to_nat k - 1) 1 O
                (range_from (1 + Z.of_nat (Z.to_nat k - 1) + 1)
                   (Z.to_nat (max_retry_attempts self - k))))
      as (evs & Hrun & Hcr & Hw & Hsch & before & Hlast).
    { intros i Hi. apply Hfail. lia. }
    { exact Hok. }
    { intros j Hj1 Hj. apply Hs. lia. }
    { lia. }
    replace (1 + Z.of_nat (Z.to_nat k - 1)) with k in Hrun |- * by lia.
    eexists _, evs, before. split; [exact Hrun |]. split; [lia |].
    split; [| split; [| split]].
    + rewrite Hw.
      change (range_from 1 (S (Z.to_nat k - 1)))
        with (1 :: range_from 2 (Z.to_nat k - 1)).
      rewrite omap_cons_option_list.
      change (option_list (wait_before self 1)) with (@nil float). cbn [app].
      rewrite omap_wait_before by lia. unfold range. do 2 f_equal. lia.
    + rewrite Hsch.
      change (range_from 1 (S (Z.to_nat k - 1)))
        with (1 :: range_from 2 (Z.to_nat k - 1)).
      cbn [flat_map].
      change (attempt_schedule self 1) with [CreateConnection]. cbn [app].
      rewrite flat_map_attempt_schedule by lia. unfold range.
      do 3 f_equal. lia.
    + exact Hlast.
    + simpl. apply lookup_insert_eq.
  - intros k [Hk1 Hk2] Hs Hno Hfail. unfold recover_connection, range.
    replace (Z.to_nat (max_retry_attempts self + 1 - 1))
      with ((Z.to_nat k - 1) + S (Z.to_nat (max_retry_attempts self - k)))%nat
      by lia.
    rewrite range_from_app.
    change (range_from (1 + Z.of_nat (Z.to_nat k - 1))
              (S (Z.to_nat (max_retry_attempts self - k))))
      with ((1 + Z.of_nat (Z.to_nat k - 1))
              :: range_from (1 + Z.of_nat (Z.to_nat k - 1) + 1)
                   (Z.to_nat (max_retry_attempts self - k))).
    destruct (attempts_over_never_returns loop f connection_id now self Hhi
                (Z.to_nat k - 1) 1 O
                (range_from (1 + Z.of_nat (Z.to_nat k - 1) + 1)
                   (Z.to_nat (max_retry_attempts self - k))))
      as (evs & Hrun & Hcr & Hsch).
    { intros i Hi. apply Hfail. lia. }
    { intros j Hj1 Hj. apply Hs. lia. }
    { lia. }
    { replace (1 + Z.of_nat (Z.to_nat k - 1)) with k by lia. exact Hno. }
    { lia. }
    replace (1 + Z.of_nat (Z.to_nat k - 1)) with k in Hrun, Hsch |- * by lia.
    exists evs. split; [exact Hrun |]. split; [exact Hcr |].
    rewrite Hsch.
    replace (Z.to_nat k - 1)%nat with (S (Z.to_nat k - 2)) by lia.
    change (range_from 1 (S (Z.to_nat k - 2)))
      with (1 :: range_from 2 (Z.to_nat k - 2)).
    cbn [flat_map].
    change (attempt_schedule self 1) with [CreateConnection]. cbn [app].
    rewrite flat_map_attempt_schedule by lia.
    replace (Z.to_nat (k - 2)) with (Z.to_nat k - 2)%nat by lia.
    reflexivity.
  - intros H3 H2. unfold backoff. rewrite H3, H2.
    split; [reflexivity |]. split; reflexivity.
Qed.

(** C6 on the defaults of the manager ([max_retry_attempts = 3],
    [base_delay = 2.0]): a factory that is down, and one that recovers
    on the second attempt; and with [max_retry_attempts = 1024], where
    the last delay is infinite. *)
Lemma C6_recover_connection_witness :
  (exists (self' : t) (evs : list event),
      recover_connection (mkLoop true) (fun _ => RaisesAtQuery "down")
        "primary" 500 (new 3 2)
      = (Some false, self', evs)
      /\ creations evs = 3%nat
      /\ waits evs = [4; 8]%float
      /\ schedule evs
         = [CreateConnection; Sleep 4; CreateConnection; Sleep 8;
            CreateConnection]
      /\ _recovery_stats self' !! "primary"
         = Some {| last_recovery := 500; attempts_used := 3; success := false |})
  /\ (exists (self' : t) (evs before : list event),
        recover_connection (mkLoop true)
          (fun i => match i with 1%nat => Recovers | _ => RaisesAtCreate "down" end)
          "primary" 500 (new 3 2)
        = (Some true, self', evs)
        /\ creations evs = 2%nat
        /\ waits evs = [4]%float
        /\ schedule evs = [CreateConnection; Sleep 4; CreateConnection]
        /\ evs = before ++ [CreateConnection; Query; CloseConnection]
        /\ _recovery_stats self' !! "primary"
           = Some {| last_recovery := 500; attempts_used := 2; success := true |})
  /\ (exists evs : list event,
        recover_connection (mkLoop true) (fun _ => RaisesAtCreate "down")
          "primary" 500 (new 1024 2)
        = (None, new 1024 2, evs)
        /\ creations evs = 1023%nat).
Proof.
  assert (Hsleep3 : forall k, 2 <= k <= 3 ->
            sleep_ends (mkLoop true) (backoff (new 3 2) k) = true).
  { intros k Hk. assert (Hc : k = 2 \/ k = 3) by lia.
    destruct Hc as [-> | ->]; reflexivity. }
  split; [| split].
  - destruct (C6_recover_connection (mkLoop true) (fun _ => RaisesAtQuery "down")
                "primary" 500%float (new 3 2) ltac:(simpl; lia))
      as (Hall & _ & _).
    destruct (Hall Hsleep3 ltac:(discriminate))
      as (self' & evs & H1 & H2 & H3 & H4 & H5).
    exists self', evs. repeat split; assumption.
  - destruct (C6_recover_connection (mkLoop true)
                (fun i => match i with 1%nat => Recovers | _ => RaisesAtCreate "down" end)
                "primary" 500%float (new 3 2) ltac:(simpl; lia))
      as (_ & Hk & _).
    destruct (Hk 2 ltac:(simpl; lia))
      as (self' & evs & before & H1 & H2 & H3 & H4 & H5 & H6).
    { intros j Hj. apply Hsleep3. lia. }
    { intros i Hi. assert (i = O) as -> by (simpl in Hi; lia). discriminate. }
    { reflexivity. }
    exists self', evs, before. repeat split; assumption.
  - destruct (C6_recover_connection (mkLoop true)
                (fun _ => RaisesAtCreate "down")
                "primary" 500%float (new 1024 2) ltac:(simpl; lia))
      as (_ & _ & Hnever & _).
    destruct (Hnever 1024 ltac:(simpl; lia)) as (evs & H1 & H2 & _).
    { intros j Hj.
      pose proof (proj1 backoff_finite_up_to_1023) as Hall.
      rewrite forallb_forall in Hall.
      specialize (Hall (Z.to_nat j)). rewrite Z2Nat.id in Hall by lia.
      apply Hall. apply in_seq. lia. }
    { exact (proj2 backoff_finite_up_to_1023). }
    { intros i _. discriminate. }
    exists evs. split; [exact H1 | exact H2].
Defined.

End ConnectionRecoveryManagerFacts.

Section SqlConnectionFactoryFacts.
Import SqlConnectionFactory.

(** Three failed attempts: two sleeps of two seconds between them, and
    tenacity's [RetryError] around the last [ConnectionError]. *)
Example create_connection_down :
  create_connection (down "timeout") (new 0)
  = (inr (RetryError (ConnectionError "Failed to connect to database: timeout")),
     {| _connection_pool := None; _pool_size := 0; _pool_initialized := false;
        connects := 3%nat; closed := [];
        trace := [EvConnect 0%nat false; EvWait 2; EvConnect 1%nat false; EvWait 2;
                  EvConnect 2%nat false] |}).
Proof. reflexivity. Qed.

(** What one call of [connect()] changes. *)
Lemma connect_once_effect (d : driver) (s s1 : t) (r : conn + exn) :
  connect_once d s = (r, s1) ->
  _connection_pool s1 = _connection_pool s
  /\ _pool_size s1 = _pool_size s
  /\ closed s1 = closed s
  /\ connects s1 = S (connects s)
  /\ match r with
     | inl c => c = connects s /\ connect d c = Connects
                /\ trace s1 = trace s ++ [EvConnect c true]
     | inr e => (exists e0, connect d (connects s) = ConnectRaises e0
                            /\ e = raised_by_connect e0)
                /\ trace s1 = trace s ++ [EvConnect (connects s) false]
     end.
Proof.
  unfold connect_once. destruct (connect d (connects s)) eqn:Hc;
    intros [= <- <-]; simpl; repeat split; eauto.
Qed.

(** A call of [connect()] that returns ends [create_connection] with the
    new connection. *)
Lemma connected_effect (d : driver) (s s0 : t) :
  _connection_pool s0 = _connection_pool s ->
  _pool_size s0 = _pool_size s ->
  closed s0 = closed s ->
  connects s0 = S (connects s) ->
  connect d (connects s) = Connects ->
  trace s0 = trace s ++ [EvConnect (connects s) true] ->
  create_connection_effect d s (inl (connects s)) s0.
Proof.
  intros Hp Hz Hcl Hn Hd Ht. unfold create_connection_effect, made.
  repeat split; try assumption; try lia.
  - intros c' [Hlt Hc'].
    destruct (decide (c' = connects s)) as [-> | Hne]; [now right |].
    left. split; [lia | assumption].
  - exists [EvConnect (connects s) true]. repeat split; [assumption | repeat constructor |].
    now apply list_elem_of_singleton.
Qed.

(** A call of [connect()] that raises and ends [create_connection]: no
    connection is made. *)
Lemma failed_attempt_effect (d : driver) (s s0 : t) (e0 e : exn) :
  _connection_pool s0 = _connection_pool s ->
  _pool_size s0 = _pool_size s ->
  closed s0 = closed s ->
  connects s0 = S (connects s) ->
  connect d (connects s) = ConnectRaises e0 ->
  trace s0 = trace s ++ [EvConnect (connects s) false] ->
  (exists e1, e = RetryError e1 /\ is_Exception e1 = true) \/ is_Exception e = false ->
  create_connection_effect d s (inr e) s0.
Proof.
  intros Hp Hz Hcl Hn Hd Ht He. unfold create_connection_effect, made.
  repeat split; try assumption; try lia.
  - intros c' [Hlt Hc']. left. split; [| assumption].
    destruct (decide (c' = connects s)) as [-> | Hne]; [congruence | lia].
  - exists [EvConnect (connects s) false]. repeat split; [assumption | repeat constructor].
Qed.

(** A call of [connect()] that raises and is followed by a sleep and the
    rest of the loop. *)
Lemma retried_attempt_effect (d : driver) (s s0 s1 : t) (e0 : exn) (w : Z)
    (r : conn + exn) :
  _connection_pool s0 = _connection_pool s ->
  _pool_size s0 = _pool_size s ->
  closed s0 = closed s ->
  connects s0 = S (connects s) ->
  connect d (connects s) = ConnectRaises e0 ->
  trace s0 = trace s ++ [EvConnect (connects s) false] ->
  create_connection_effect d (log (EvWait w) s0) r s1 ->
  create_connection_effect d s r s1.
Proof.
  intros Hp Hz Hcl Hn Hd Ht (Hp' & Hz' & Hcl' & Hn' & Hm' & (evs & Ht' & Hev & Hin) & Hr').
  simpl in Hp', Hz', Hcl', Hn', Ht'.
  unfold create_connection_effect. repeat split; try congruence; try lia.
  - intros c' Hc'. destruct (Hm' c' Hc') as [[Hlt Hd'] | ->]; [| now right].
    simpl in Hlt. left. split; [| assumption].
    destruct (decide (c' = connects s)) as [-> | Hne]; [congruence | lia].
  - exists ([EvConnect (connects s) false; EvWait w] ++ evs). repeat split.
    + rewrite Ht', Ht. now rewrite <- !app_assoc.
    + apply Forall_app; split; [repeat constructor | assumption].
    + destruct r as [c | e]; [| exact I]. apply elem_of_app. right. exact Hin.
  - destruct r as [c | e]; [| assumption].
    destruct Hr' as [Hmade Hle]. simpl in Hle. split; [assumption | lia].
Qed.

Lemma retrying_effect (d : driver) (fuel : nat) :
  forall (k : Z) (s s1 : t) (r : conn + exn),
    retrying d fuel k s = (r, s1) -> create_connection_effect d s r s1.
Proof.
  induction fuel as [| fuel IH]; intros k s s1 r; simpl;
    destruct (connect_once d s) as [[c | e] s0] eqn:Hc;
    apply connect_once_effect in Hc;
    destruct Hc as (Hp & Hz & Hcl & Hn & Hr);
    try (destruct Hr as (-> & Hd & Ht); intros [= <- <-];
         now apply connected_effect);
    destruct Hr as ((e0 & Hd & ->) & Ht);
    (destruct (is_Exception (raised_by_connect e0)) eqn:Hex; simpl;
     [ destruct (stop_after_attempt 3 k) |]);
    try (intros [= <- <-]; apply (failed_attempt_effect d s s0 e0);
         solve [assumption | left; eauto | now right]).
  intros Hrec. apply IH in Hrec.
  now apply (retried_attempt_effect d s s0 s1 e0 (wait_exponential 1 2 10 k)).
Qed.

Lemma create_connection_has_effect (d : driver) (s s1 : t) (r : conn + exn) :
  create_connection d s = (r, s1) -> create_connection_effect d s r s1.
Proof. apply retrying_effect. Qed.

(** The fuel of [create_connection] is never used up: more of it changes
    nothing. *)
Lemma create_connection_fuel (d : driver) (s : t) (extra : nat) :
  retrying d (3 + extra) 1 s = create_connection d s.
Proof.
  unfold create_connection. simpl.
  destruct (connect_once d s) as [[c | e] s1]; [reflexivity |].
  destruct (negb (is_Exception e)); [reflexivity |]. simpl.
  destruct (connect_once d _) as [[c | e2] s2]; [reflexivity |].
  destruct (negb (is_Exception e2)); [reflexivity |]. simpl.
  destruct (connect_once d _) as [[c | e3] s3]; [reflexivity |].
  destruct (negb (is_Exception e3)); reflexivity.
Qed.

(** Whatever the database does, three [pyodbc.Error]s in a row end
    [create_connection] with [RetryError] around the [ConnectionError]
    made from the third, after three calls of [connect()] and two
    sleeps of two seconds. *)
Lemma create_connection_exhausted (d : driver) (s : t) (m1 m2 m3 : string) :
  connect d (connects s) = ConnectRaises (PyodbcError m1) ->
  connect d (S (connects s)) = ConnectRaises (PyodbcError m2) ->
  connect d (S (S (connects s))) = ConnectRaises (PyodbcError m3) ->
  exists s1,
    create_connection d s
    = (inr (RetryError
              (ConnectionError (String.append "Failed to connect to database: " m3))),
       s1)
    /\ trace s1 = trace s ++ [EvConnect (connects s) false; EvWait 2;
                              EvConnect (S (connects s)) false; EvWait 2;
                              EvConnect (S (S (connects s))) false].
Proof.
  intros H1 H2 H3. unfold create_connection. simpl.
  unfold connect_once at 1. rewrite H1. simpl.
  unfold connect_once at 1. simpl. rewrite H2. simpl.
  unfold connect_once at 1. simpl. rewrite H3. simpl.
  eexists. split; [reflexivity |].
  simpl. rewrite <- !app_assoc. reflexivity.
Qed.

(** C7 (the code at the failing input).  The database refuses three
    connections in a row with a [pyodbc.Error]: [create_connection]
    raises tenacity's [RetryError], which holds the [ConnectionError] of
    the third attempt, and not a [ConnectionError], the error its
    docstring announces and its callers catch. *)
Theorem C7_create_connection_raises_RetryError :
  fst (create_connection (down "timeout") (new 0))
  = inr (RetryError (ConnectionError "Failed to connect to database: timeout"))
  /\ (forall msg : string,
        fst (create_connection (down "timeout") (new 0))
        <> inr (ConnectionError msg))
  /\ connects (snd (create_connection (down "timeout") (new 0))) = 3%nat.
Proof. repeat split. intros msg. discriminate. Qed.

(** *** The queue, [close] and [validate] *)

Lemma pool_put_room (c : conn) (s : t) :
  has_room s ->
  exists s1, pool_put c s = Some s1
             /\ pooled s1 = pooled s ++ [c]
             /\ closed s1 = closed s
             /\ connects s1 = connects s
             /\ trace s1 = trace s ++ [EvPut c].
Proof.
  unfold has_room, pool_put, pooled.
  destruct (_connection_pool s) as [q |] eqn:Hq; [| tauto]. intros Hroom.
  destruct (Z.ltb_spec 0 (_pool_size s)) as [Hpos | Hneg]; simpl.
  - destruct (Z.leb_spec (_pool_size s) (Z.of_nat (length q))); [lia |].
    eexists. split; [reflexivity |]. simpl. tauto.
  - eexists. split; [reflexivity |]. simpl. tauto.
Qed.

Lemma pool_get_effect (c : conn) (s s1 : t) :
  queue_within_maxsize s ->
  pool_get s = Some (c, s1) ->
  pooled s = c :: pooled s1
  /\ closed s1 = closed s
  /\ connects s1 = connects s
  /\ has_room s1
  /\ trace s1 = trace s ++ [EvGet c].
Proof.
  unfold queue_within_maxsize, pool_get, pooled, has_room.
  destruct (_connection_pool s) as [[| c0 q] |] eqn:Hq; try discriminate.
  intros Hwf [= <- <-]. simpl in *. repeat split. lia.
Qed.

Lemma made_same_connects (d : driver) (s s1 : t) (c : conn) :
  connects s1 = connects s -> made d s1 c <-> made d s c.
Proof. unfold made. now intros ->. Qed.



(** *** Entering the [async with] *)




Example initialize_pool_of_one : initialize_pool up (new 1) = inr pool_of_one.
Proof. reflexivity. Qed.


(** *** Leaving the [async with] *)

Lemma has_room_same (s s1 : t) :
  _connection_pool s1 = _connection_pool s -> _pool_size s1 = _pool_size s ->
  has_room s -> has_room s1.
Proof. unfold has_room. now intros -> ->. Qed.

Lemma accounted_start (d : driver) (self : t) : accounted d self [] self.
Proof.
  intros c' Hm. unfold outstanding.
  destruct (decide (c' ∈ closed self)); [now left |].
  destruct (decide (c' ∈ pooled self)); [right; now left |].
  right; right; right. tauto.
Qed.

(** One step of the bookkeeping: what is made is old or accounted for,
    and what was closed, pooled or held still is, up to moving between
    the three. *)
Lemma accounted_step (d : driver) (self0 s s1 : t) (held held1 : list conn) :
  accounted d self0 held s ->
  (forall c', made d s1 c' ->
     made d s c' \/ c' ∈ held1 \/ c' ∈ closed s1 \/ c' ∈ pooled s1) ->
  (forall c', c' ∈ closed s -> c' ∈ closed s1) ->
  (forall c', c' ∈ pooled s -> c' ∈ pooled s1 \/ c' ∈ held1 \/ c' ∈ closed s1) ->
  (forall c', c' ∈ held -> c' ∈ held1 \/ c' ∈ closed s1 \/ c' ∈ pooled s1) ->
  accounted d self0 held1 s1.
Proof.
  intros Hacc Hmade Hcl Hpo Hhe c' Hm.
  destruct (Hmade c' Hm) as [Hold | [? | [? | ?]]]; try tauto.
  destruct (Hacc c' Hold) as [? | [Hp | [Hh | ?]]]; try tauto.
  - left. auto.
  - destruct (Hpo c' Hp) as [? | [? | ?]]; tauto.
  - destruct (Hhe c' Hh) as [? | [? | ?]]; tauto.
Qed.

Lemma accounted_close (d : driver) (self0 s : t) (c : conn) (held : list conn) :
  accounted d self0 (c :: held) s -> accounted d self0 held (close c s).
Proof.
  intros H. apply (accounted_step d self0 s _ (c :: held)); [exact H | ..];
    simpl; intros c'.
  - intros Hm. left. exact Hm.
  - intros Hc. now apply elem_of_cons; right.
  - intros Hp. left. exact Hp.
  - intros Hh. apply elem_of_cons in Hh as [-> | Hh]; [| now left].
    right; left. now apply elem_of_cons; left.
Qed.

Lemma accounted_create (d : driver) (self0 s s1 : t) (r : conn + exn)
    (held : list conn) :
  accounted d self0 held s ->
  create_connection d s = (r, s1) ->
  accounted d self0 (match r with inl c => c :: held | inr _ => held end) s1
  /\ closed s1 = closed s /\ pooled s1 = pooled s
  /\ (has_room s -> has_room s1).
Proof.
  intros H Hc. apply create_connection_has_effect in Hc.
  destruct Hc as (Hp & Hz & Hcl & Hn & Hm & _ & Hr).
  assert (Hpo : pooled s1 = pooled s) by (unfold pooled; now rewrite Hp).
  repeat split; try assumption; [| now apply has_room_same].
  apply (accounted_step d self0 s _ held); [exact H | ..]; intros c'.
  - intros Hm'. destruct (Hm c' Hm') as [? | ->]; [now left |].
    right; left. now apply elem_of_cons; left.
  - now rewrite Hcl.
  - rewrite Hpo. now left.
  - intros Hh. left. destruct r; [now apply elem_of_cons; right | exact Hh].
Qed.

Lemma accounted_put (d : driver) (self0 s : t) (c : conn) (held : list conn) :
  has_room s ->
  accounted d self0 (c :: held) s ->
  exists s1, pool_put c s = Some s1
             /\ accounted d self0 held s1
             /\ c ∈ pooled s1
             /\ closed s1 = closed s
             /\ (forall c', c' ∈ pooled s -> c' ∈ pooled s1).
Proof.
  intros Hroom H.
  destruct (pool_put_room c s Hroom) as (s1 & Hput & Hpo & Hcl & Hn & _).
  exists s1. split; [exact Hput |]. repeat split.
  - apply (accounted_step d self0 s _ (c :: held)); [exact H | ..]; intros c'.
    + intros Hm. left. now apply (made_same_connects d s s1 c' Hn).
    + now rewrite Hcl.
    + intros Hp. left. rewrite Hpo. apply elem_of_app. now left.
    + intros Hh. apply elem_of_cons in Hh as [-> | Hh]; [| now left].
      right; right. rewrite Hpo. apply elem_of_app. right.
      now apply list_elem_of_singleton.
  - rewrite Hpo. apply elem_of_app. right. now apply list_elem_of_singleton.
  - exact Hcl.
  - intros c' Hp. rewrite Hpo. apply elem_of_app. now left.
Qed.

Lemma accounted_weaken (d : driver) (self0 s : t) (held held1 : list conn) :
  accounted d self0 held s ->
  (forall c', c' ∈ held -> c' ∈ held1) ->
  accounted d self0 held1 s.
Proof.
  intros H Hsub c' Hm. destruct (H c' Hm) as [? | [? | [? | ?]]]; auto.
Qed.

Lemma accounted_get (d : driver) (self0 s s1 : t) (c : conn) (held : list conn) :
  queue_within_maxsize s ->
  accounted d self0 held s ->
  pool_get s = Some (c, s1) ->
  accounted d self0 (c :: held) s1 /\ has_room s1.
Proof.
  intros Hwf H Hget.
  destruct (pool_get_effect c s s1 Hwf Hget) as (Hpo & Hcl & Hn & Hroom & _).
  split; [| exact Hroom].
  apply (accounted_step d self0 s _ held); [exact H | ..]; intros c'.
  - intros Hm. left. now apply (made_same_connects d s s1 c' Hn).
  - now rewrite Hcl.
  - rewrite Hpo. intros Hp. apply elem_of_cons in Hp as [-> | Hp].
    + right; left. now apply elem_of_cons; left.
    + now left.
  - intros Hh. left. now apply elem_of_cons; right.
Qed.

(** The [except] handler of the pooled branch: the connection it was
    entered with is closed; it ends in the error of the creation, with
    nothing left in the generator's hands, or at the third [yield] with
    the replacement. *)
Lemma handler_ok (d : driver) (self0 s s' : t) (c : conn) (r : gen_result) :
  has_room s ->
  accounted d self0 [c] s ->
  handler d c s = (r, s') ->
  c ∈ closed s'
  /\ (((exists e, r = Raises e) /\ accounted d self0 [] s')
      \/ exists c1, r = Yields c1 (AtYieldReplacement c1)
                    /\ gen_ok d self0 (AtYieldReplacement c1) s').
Proof.
  intros Hroom Hacc. unfold handler.
  pose proof (accounted_close d self0 s c [] Hacc) as Hacc1.
  assert (Hroom1 : has_room (close c s)) by exact Hroom.
  assert (Hc1 : c ∈ closed (close c s)) by (simpl; now apply elem_of_cons; left).
  destruct (create_connection d (close c s)) as [[c1 | e] s2] eqn:Hcr;
    destruct (accounted_create d self0 _ _ _ [] Hacc1 Hcr)
      as (Hacc2 & Hcl2 & Hpo2 & Hroom2).
  - intros [= <- <-]. split; [now rewrite Hcl2 |].
    right. exists c1. split; [reflexivity |]. split; [now apply Hroom2 | exact Hacc2].
  - unfold finally_put.
    destruct (accounted_put d self0 s2 c [] (Hroom2 Hroom1))
      as (s3 & Hput & Hacc3 & _ & Hcl3 & _).
    { apply (accounted_weaken d self0 s2 [] [c] Hacc2). intros c' Hc'. inversion Hc'. }
    rewrite Hput. intros [= <- <-]. split; [now rewrite Hcl3, Hcl2 |].
    left. split; [eauto | exact Hacc3].
Qed.

(** Up to the first [yield]: the generator holds the connection it
    yields, and everything else is accounted for. *)
Lemma get_pooled_connection_ok (d : driver) (self s : t) (c : conn) (g : gen_state) :
  queue_within_maxsize self ->
  get_pooled_connection d self = (Yields c g, s) ->
  held_by g = [c] /\ gen_ok d self g s.
Proof.
  intros Hwf. unfold get_pooled_connection. destruct (pooling_enabled self).
  - destruct (pool_get self) as [[c0 s1] |] eqn:Hget; [| discriminate].
    destruct (accounted_get d self self s1 c0 [] Hwf (accounted_start d self) Hget)
      as [Hacc1 Hroom1].
    unfold validate. destruct (select_1 d c0 && _).
    + intros [= <- <- <-]. split; [reflexivity |]. split; [exact Hroom1 | exact Hacc1].
    + intros Hh.
      destruct (handler_ok d self (log (EvSelect1 c0 false) s1) _ c0 _
                  Hroom1 Hacc1 Hh)
        as (_ & [((e & [=]) & _) | (c1 & [= -> ->] & Hok)]).
      split; [reflexivity | exact Hok].
  - destruct (create_connection d self) as [[c0 | e] s1] eqn:Hcr; [| discriminate].
    destruct (accounted_create d self _ _ _ [] (accounted_start d self) Hcr)
      as (Hacc1 & _).
    intros [= <- <- <-]. split; [reflexivity |]. split; [exact I | exact Hacc1].
Qed.

(** The generator resumed after the block: it stops, and its connection
    is closed (pooling disabled) or back in the queue. *)
Lemma gen_next_ok (d : driver) (self0 s s' : t) (c : conn) (g : gen_state)
    (r : gen_result) :
  gen_ok d self0 g s -> held_by g = [c] ->
  gen_next g s = (r, s') ->
  r = Stops /\ accounted d self0 [] s' /\ (c ∈ closed s' \/ c ∈ pooled s').
Proof.
  intros [Hroom Hacc] Hheld.
  destruct g as [c0 | c0 | c0 |]; simpl in Hheld; try discriminate;
    injection Hheld as ->; simpl in Hacc |- *.
  - intros [= <- <-]. split; [reflexivity |]. split.
    + now apply accounted_close.
    + left. simpl. now apply elem_of_cons; left.
  - unfold finally_put.
    destruct (accounted_put d self0 s c [] Hroom Hacc) as (s1 & -> & Ha & Hin & _).
    intros [= <- <-]. tauto.
  - unfold finally_put.
    destruct (accounted_put d self0 s c [] Hroom Hacc) as (s1 & -> & Ha & Hin & _).
    intros [= <- <-]. tauto.
Qed.

(** An exception thrown into the generator: its connection is closed or
    back in the queue; the generator ends with an exception, or, when an
    [Exception] reaches the [yield] of the [try], it yields again with a
    replacement in its hands. *)
Lemma gen_throw_ok (d : driver) (self0 s s' : t) (c : conn) (g : gen_state)
    (e : exn) (r : gen_result) :
  gen_ok d self0 g s -> held_by g = [c] ->
  gen_throw d e g s = (r, s') ->
  (c ∈ closed s' \/ c ∈ pooled s')
  /\ (((exists e', r = Raises e') /\ accounted d self0 [] s')
      \/ exists c1, r = Yields c1 (AtYieldReplacement c1)
                    /\ gen_ok d self0 (AtYieldReplacement c1) s'
                    /\ is_Exception e = true /\ g = AtYieldPooled c
                    /\ c ∈ closed s').
Proof.
  intros [Hroom Hacc] Hheld.
  destruct g as [c0 | c0 | c0 |]; simpl in Hheld; try discriminate;
    injection Hheld as ->; simpl in Hacc |- *.
  - intros [= <- <-]. split.
    + left. simpl. now apply elem_of_cons; left.
    + left. split; [eauto | now apply accounted_close].
  - destruct (is_Exception e) eqn:Hex.
    + intros Hh. destruct (handler_ok d self0 _ _ c _ Hroom Hacc Hh) as [Hc Hr].
      split; [now left |].
      destruct Hr as [Hr | (c1 & Hr & Hok)]; [now left |].
      right. exists c1. tauto.
    + unfold finally_put.
      destruct (accounted_put d self0 s c [] Hroom Hacc) as (s1 & -> & Ha & Hin & _).
      intros [= <- <-]. split; [now right |]. left. split; [eauto | exact Ha].
  - unfold finally_put.
    destruct (accounted_put d self0 s c [] Hroom Hacc) as (s1 & -> & Ha & Hin & _).
    intros [= <- <-]. split; [now right |]. left. split; [eauto | exact Ha].
Qed.

(** A generator that is finalised lets go of what it holds. *)
Lemma gen_close_ok (d : driver) (self0 s : t) (g : gen_state) :
  gen_ok d self0 g s -> accounted d self0 [] (gen_close d g s).
Proof.
  intros Hok. destruct g as [c | c | c |]; [| | | exact (proj2 Hok)].
  all: match goal with
       | |- accounted _ _ _ (gen_close _ ?g _) =>
           change (gen_close d g s) with (snd (gen_throw d GeneratorExit g s));
           destruct (gen_throw d GeneratorExit g s) as [r s'] eqn:Hth;
           destruct (gen_throw_ok d self0 s s' c g GeneratorExit r Hok eq_refl Hth)
             as (_ & [(_ & Ha) | (c1 & -> & _)]); [exact Ha |]
       end.
  - discriminate Hth.
  - simpl in Hth. unfold finally_put in Hth.
    destruct (pool_put c s); discriminate Hth.
  - simpl in Hth. unfold finally_put in Hth.
    destruct (pool_put c s); discriminate Hth.
Qed.

(** The block raises while it holds the connection of a pool of one:
    the handler meant for a failed validation catches the exception,
    closes the connection, makes another one and yields a second time;
    contextlib answers with [RuntimeError] and the generator stays
    suspended with the replacement, which reaches the queue when the
    generator is finalised. *)
Example block_raises_in_pooled_mode :
  async_with up (fun _ => BodyRaises (OtherException "query failed")) pool_of_one
  = (Some O,
     Propagates (RuntimeError "generator didn't stop after athrow()"),
     AtYieldReplacement 1%nat,
     {| _connection_pool := Some []; _pool_size := 1; _pool_initialized := true;
        connects := 2%nat; closed := [O];
        trace := [EvConnect O true; EvPut O; EvGet O; EvSelect1 O true;
                  EvClose O; EvConnect 1%nat true] |})
  /\ pooled (gen_close up (AtYieldReplacement 1%nat)
               (snd (async_with up
                       (fun _ => BodyRaises (OtherException "query failed"))
                       pool_of_one)))
     = [1%nat].
Proof. split; reflexivity. Qed.

(** The accounting of the lease.  Whatever the block does with the
    connection it obtained from [get_pooled_connection], the
    [async with] statement ends, and at that point the connection the
    block had is closed or in the queue.  The generator is left
    unfinished only when the block raised an [Exception] on a pooled,
    validated connection; what it then holds leaves its hands only if
    the generator is finalised later, which the statement does not do. *)
Lemma lease_accounting (d : driver)
    (body : conn -> body_outcome) (self s' : t) (c : conn) (r : exit_result)
    (g : gen_state) :
  queue_within_maxsize self ->
  async_with d body self = (Some c, r, g, s') ->
  r <> Hangs
  /\ (c ∈ closed s' \/ c ∈ pooled s')
  /\ (forall c', outstanding d (gen_close d g s') c' -> outstanding d self c')
  /\ (g <> Finished ->
      exists e c1,
        body c = BodyRaises e /\ is_Exception e = true
        /\ g = AtYieldReplacement c1 /\ c ∈ closed s'
        /\ r = Propagates (RuntimeError "generator didn't stop after athrow()")).
Proof.
  intros Hwf. unfold async_with.
  destruct (get_pooled_connection d self) as [[c0 g0 | | e |] s0] eqn:Hst; try discriminate.
  destruct (aexit d (body c0) g0 s0) as [[r0 g1] s1] eqn:Hex.
  intros [= -> -> -> ->].
  destruct (get_pooled_connection_ok d self s0 c g0 Hwf Hst) as [Hheld Hok].
  assert (Hfin : forall s2, accounted d self [] s2 ->
                   forall c', outstanding d s2 c' -> outstanding d self c').
  { intros s2 Hacc c' (Hm & Hnc & Hnp).
    destruct (Hacc c' Hm) as [? | [? | [Hin | ?]]]; try tauto. inversion Hin. }
  unfold aexit in Hex. destruct (body c) as [| e] eqn:Hbody.
  - destruct (gen_next g0 s0) as [r1 s2] eqn:Hn.
    destruct (gen_next_ok d self s0 s2 c g0 r1 Hok Hheld Hn) as (-> & Hacc & Hc).
    injection Hex as <- <- <-.
    split; [discriminate |]. split; [exact Hc |]. split; [| congruence].
    apply Hfin. exact Hacc.
  - destruct (gen_throw d e g0 s0) as [r1 s2] eqn:Hth.
    destruct (gen_throw_ok d self s0 s2 c g0 e r1 Hok Hheld Hth)
      as (Hc & [((e' & ->) & Hacc) | (c1 & -> & Hok1 & Hexc & Hg0 & Hcl)]);
      injection Hex as <- <- <-.
    + split; [discriminate |]. split; [exact Hc |]. split; [| congruence].
      apply Hfin. exact Hacc.
    + split; [discriminate |]. split; [exact Hc |]. split.
      * apply Hfin. now apply gen_close_ok.
      * intros _. exists e, c1. tauto.
Qed.



End SqlConnectionFactoryFacts.

(* ===================================================================== *)
(** * Further properties of the code                                       *)
(* ===================================================================== *)

(** ** [ConnectionHealthMonitor]: what a history of calls keeps *)
Section ConnectionHealthMonitorHistory.
Import ConnectionHealthMonitor.

Lemma max_errors_start (a : string) (self : t) :
  max_errors (start_monitoring a self) = max_errors self.
Proof.
  unfold start_monitoring.
  destruct (decide (a ∈ _monitoring_tasks self)); reflexivity.
Qed.

Lemma max_errors_stop (a : string) (self : t) :
  max_errors (stop_monitoring a self) = max_errors self.
Proof.
  unfold stop_monitoring.
  destruct (decide (a ∈ _monitoring_tasks self)); simpl;
    destruct (connection_health self !! a); reflexivity.
Qed.

Lemma max_errors_run_call (c : call) (self : t) :
  max_errors (run_call c self) = max_errors self.
Proof.
  destruct c as [a | a | a p k]; simpl.
  - apply max_errors_start.
  - apply max_errors_stop.
  - unfold _check_connection_health.
    destruct (connection_health self !! a); reflexivity.
Qed.

Lemma stop_monitoring_tasks (a b : string) (self : t) :
  b ∈ _monitoring_tasks (stop_monitoring a self)
  <-> b ∈ _monitoring_tasks self /\ b <> a.
Proof.
  unfold stop_monitoring.
  destruct (decide (a ∈ _monitoring_tasks self)) as [Hin | Hout]; simpl;
    destruct (connection_health self !! a); simpl;
    rewrite ?elem_of_difference, ?elem_of_singleton;
    split; try tauto; intros Hb; split; try tauto; congruence.
Qed.

Lemma stop_monitoring_health (a b : string) (self : t) :
  connection_health (stop_monitoring a self) !! b
  = if decide (b = a) then None else connection_health self !! b.
Proof.
  destruct (decide (b = a)) as [-> | Hne].
  - apply stop_monitoring_deletes.
  - unfold stop_monitoring.
    destruct (decide (a ∈ _monitoring_tasks self)); simpl;
      destruct (connection_health self !! a); simpl;
      rewrite ?lookup_delete_ne by congruence; reflexivity.
Qed.

Lemma fresh_record_ok (m : Z) :
  record_ok m {| state := UNKNOWN; last_check := 0%float;
                 response_time_ms := 0%float; error_count := 0;
                 last_error := None; recovery_attempts := 0 |}.
Proof. unfold record_ok; simpl. repeat split; (lia || discriminate). Qed.

Lemma update_health_ok (m : Z) (p : probe) (k : clock) (h : ConnectionHealth) :
  record_ok m h -> record_ok m (update_health m p k h).
Proof.
  intros (Hnn & _ & Hrec & _).
  destruct p as [| msg]; unfold record_ok; simpl.
  - repeat split; (lia || discriminate || assumption).
  - destruct (m <=? error_count h + 1) eqn:H1;
      [| destruct (m / 2 <=? error_count h + 1) eqn:H2]; simpl;
      repeat split; (lia || discriminate || assumption).
Qed.

Lemma consistent_new (i m : Z) : consistent (new i m).
Proof.
  split; simpl.
  - intros a. rewrite lookup_empty. split.
    + intros H. now apply not_elem_of_empty in H.
    + intros [x Hx]. discriminate.
  - intros a h. rewrite lookup_empty. discriminate.
Qed.

Lemma consistent_run_call (c : call) (self : t) :
  consistent self -> consistent (run_call c self).
Proof.
  intros [Hdom Hrec]. split.
  - intros b. destruct c as [a | a | a p k]; simpl.
    + unfold start_monitoring.
      destruct (decide (a ∈ _monitoring_tasks self)); [apply Hdom |].
      simpl. rewrite elem_of_union, elem_of_singleton.
      destruct (decide (b = a)) as [-> | Hne].
      * rewrite lookup_insert_eq. split; eauto.
      * rewrite lookup_insert_ne by congruence. rewrite <- Hdom. tauto.
    + rewrite stop_monitoring_tasks, stop_monitoring_health.
      destruct (decide (b = a)) as [-> | Hne].
      * split; [tauto | intros [x Hx]; discriminate].
      * rewrite <- Hdom. tauto.
    + unfold _check_connection_health.
      destruct (connection_health self !! a) as [h |] eqn:Ha; [| apply Hdom].
      simpl. destruct (decide (b = a)) as [-> | Hne].
      * rewrite lookup_insert_eq, Hdom, Ha. split; eauto.
      * rewrite lookup_insert_ne by congruence. apply Hdom.
  - intros b h. rewrite max_errors_run_call.
    destruct c as [a | a | a p k]; simpl.
    + unfold start_monitoring.
      destruct (decide (a ∈ _monitoring_tasks self)); [apply Hrec |].
      simpl. destruct (decide (b = a)) as [-> | Hne].
      * rewrite lookup_insert_eq. intros [= <-]. apply fresh_record_ok.
      * rewrite lookup_insert_ne by congruence. apply Hrec.
    + rewrite stop_monitoring_health.
      destruct (decide (b = a)); [discriminate | apply Hrec].
    + unfold _check_connection_health.
      destruct (connection_health self !! a) as [h0 |] eqn:Ha; [| apply Hrec].
      simpl. destruct (decide (b = a)) as [-> | Hne].
      * rewrite lookup_insert_eq. intros [= <-].
        apply update_health_ok. now apply (Hrec a).
      * rewrite lookup_insert_ne by congruence. apply Hrec.
Qed.

Lemma consistent_run_calls (cs : list call) (self : t) :
  consistent self -> consistent (run_calls cs self).
Proof.
  revert self. induction cs as [| c cs IH]; intros self H; simpl; [exact H |].
  apply IH. now apply consistent_run_call.
Qed.

Lemma reachable_consistent (self : t) : reachable self -> consistent self.
Proof.
  intros (i & m & cs & ->). apply consistent_run_calls, consistent_new.
Qed.

(** X1.  On a monitor built by [__init__] and any calls of
    [start_monitoring], [stop_monitoring] and health checks, an identity
    has a monitoring task exactly when it has a health record. *)
Theorem monitor_tasks_match_records (self : t) (connection_id : string) :
  reachable self ->
  (connection_id ∈ _monitoring_tasks self
   <-> is_Some (get_connection_health connection_id self)).
Proof.
  intros H. apply reachable_consistent in H. apply (proj1 H).
Qed.

Lemma monitor_tasks_match_records_witness :
  "replica" ∈ _monitoring_tasks
                (run_calls [Start "primary"; Start "replica"; Stop "primary"]
                   (new 60 5))
  <-> is_Some (get_connection_health "replica"
                 (run_calls [Start "primary"; Start "replica"; Stop "primary"]
                    (new 60 5))).
Proof.
  apply (monitor_tasks_match_records
           (run_calls [Start "primary"; Start "replica"; Stop "primary"]
              (new 60 5)) "replica").
  exists 60, 5, [Start "primary"; Start "replica"; Stop "primary"].
  reflexivity.
Defined.

(** X2.  Every health record of such a monitor has a non-negative error
    count, never the state CLOSED, and zero recovery attempts; its state
    agrees with its count: UNKNOWN only with no error, UNHEALTHY only at
    or above [max_errors], DEGRADED only from [max_errors // 2] up to
    [max_errors - 1]; and [is_connection_healthy] answers [False] only
    for a record that was never probed or whose count has reached
    [max_errors]. *)
Theorem monitor_record_invariant (self : t) (connection_id : string)
    (h : ConnectionHealth) :
  reachable self ->
  get_connection_health connection_id self = Some h ->
  0 <= error_count h
  /\ state h <> CLOSED
  /\ recovery_attempts h = 0
  /\ (state h = UNKNOWN -> error_count h = 0 /\ last_error h = None)
  /\ (state h = UNHEALTHY -> max_errors self <= error_count h)
  /\ (state h = DEGRADED ->
        max_errors self / 2 <= error_count h < max_errors self)
  /\ (is_connection_healthy connection_id self = false ->
        state h = UNKNOWN \/ max_errors self <= error_count h).
Proof.
  intros H Hh. apply reachable_consistent in H. destruct H as [_ Hrec].
  destruct (Hrec connection_id h Hh) as (H1 & H2 & H3 & H4 & H5 & H6).
  repeat split; try assumption; try (apply H4; assumption);
    try (apply H6; assumption).
  unfold is_connection_healthy. rewrite Hh.
  destruct (state h) eqn:Hs; try discriminate; intros _.
  - right. now apply H5.
  - now contradiction H2.
  - now left.
Qed.

Lemma monitor_record_invariant_witness :
  let self :=
    run_calls [Start "primary";
               Check "primary" (ProbeRaises "timeout") (mkClock 10 11 11);
               Check "primary" (ProbeRaises "timeout") (mkClock 70 71 71)]
      (new 60 5) in
  exists h, get_connection_health "primary" self = Some h
            /\ state h = DEGRADED
            /\ max_errors self / 2 <= error_count h < max_errors self.
Proof.
  intros self.
  assert (Hr : reachable self).
  { exists 60, 5,
      [Start "primary";
       Check "primary" (ProbeRaises "timeout") (mkClock 10 11 11);
       Check "primary" (ProbeRaises "timeout") (mkClock 70 71 71)].
    reflexivity. }
  eexists. split; [reflexivity |]. split; [reflexivity |].
  refine (proj1 (proj2 (proj2 (proj2 (proj2 (proj2
            (monitor_record_invariant self "primary" _ Hr eq_refl)))))) _).
  reflexivity.
Defined.

Lemma fold_stop_monitoring (l : list string) :
  forall self : t,
    let self' := fold_left (fun s a => stop_monitoring a s) l self in
    (forall b, b ∈ _monitoring_tasks self'
               <-> b ∈ _monitoring_tasks self /\ b ∉ l)
    /\ (forall b, connection_health self' !! b
                  = if decide (b ∈ l) then None else connection_health self !! b)
    /\ _shutdown_event self' = _shutdown_event self
    /\ max_errors self' = max_errors self.
Proof.
  induction l as [| a l IH]; intros self; simpl.
  - split; [| split; [| split; reflexivity]].
    + intros b. split; [| tauto].
      intros Hb. split; [exact Hb |]. apply not_elem_of_nil.
    + intros b. destruct (decide (b ∈ [])) as [Hin | _]; [| reflexivity].
      now apply not_elem_of_nil in Hin.
  - destruct (IH (stop_monitoring a self)) as (Ht & Hh & He & Hm).
    split; [| split; [| split]].
    + intros b. rewrite Ht, stop_monitoring_tasks, elem_of_cons. tauto.
    + intros b. rewrite Hh, stop_monitoring_health.
      destruct (decide (b ∈ l)) as [Hin | Hout];
        destruct (decide (b ∈ a :: l)) as [Hin' | Hout'];
        rewrite elem_of_cons in *; try tauto;
        destruct (decide (b = a)); tauto.
    + rewrite He. unfold stop_monitoring.
      destruct (decide (a ∈ _monitoring_tasks self)); simpl;
        destruct (connection_health self !! a); reflexivity.
    + rewrite Hm. apply max_errors_stop.
Qed.

(** X3.  [shutdown] on such a monitor sets the shutdown event and leaves
    no monitoring task and no health record: afterwards no identity is
    reported healthy. *)
Theorem shutdown_clears_monitor (self : t) :
  reachable self ->
  _shutdown_event (shutdown self) = true
  /\ _monitoring_tasks (shutdown self) = ∅
  /\ connection_health (shutdown self) = ∅
  /\ (forall connection_id,
         is_connection_healthy connection_id (shutdown self) = false).
Proof.
  intros H. apply reachable_consistent in H. destruct H as [Hdom _].
  unfold shutdown.
  match goal with
  | |- context [fold_left _ ?l ?s] =>
      destruct (fold_stop_monitoring l s) as (Ht & Hh & He & _)
  end.
  simpl in Ht, Hh, He.
  assert (Hempty : forall b,
             connection_health
               (fold_left (fun s a => stop_monitoring a s)
                  (elements (_monitoring_tasks self))
                  {| check_interval := check_interval self;
                     max_errors := max_errors self;
                     connection_health := connection_health self;
                     _monitoring_tasks := _monitoring_tasks self;
                     _shutdown_event := true |}) !! b = None).
  { intros b. rewrite Hh.
    destruct (decide (b ∈ elements (_monitoring_tasks self))) as [| Hout];
      [reflexivity |].
    destruct (connection_health self !! b) eqn:Hb; [| reflexivity].
    exfalso. apply Hout. apply elem_of_elements, Hdom. rewrite Hb. eauto. }
  repeat split.
  - exact He.
  - apply elem_of_equiv_empty_L. intros b Hb. apply Ht in Hb.
    destruct Hb as [Hb Hl]. apply Hl. now apply elem_of_elements.
  - apply map_empty. exact Hempty.
  - intros b. unfold is_connection_healthy, get_connection_health.
    simpl. now rewrite Hempty.
Qed.

Lemma shutdown_clears_monitor_witness :
  let self :=
    run_calls [Start "primary"; Start "replica";
               Check "primary" ProbeSucceeds (mkClock 10 11 11)]
      (new 60 5) in
  is_connection_healthy "primary" self = true
  /\ connection_health (shutdown self) = ∅
  /\ is_connection_healthy "primary" (shutdown self) = false.
Proof.
  intros self.
  assert (Hr : reachable self).
  { exists 60, 5,
      [Start "primary"; Start "replica";
       Check "primary" ProbeSucceeds (mkClock 10 11 11)].
    reflexivity. }
  destruct (shutdown_clears_monitor self Hr) as (_ & _ & Hh & Hno).
  split; [reflexivity |]. split; [exact Hh | apply Hno].
Defined.

Lemma check_known (a : string) (p : probe) (k : clock) (self : t)
    (h : ConnectionHealth) :
  get_connection_health a self = Some h ->
  get_connection_health a (run_call (Check a p k) self)
  = Some (update_health (max_errors self) p k h).
Proof.
  unfold get_connection_health. intros Ha. simpl.
  unfold _check_connection_health. rewrite Ha. simpl.
  apply lookup_insert_eq.
Qed.

Lemma healthy_by_count (a : string) (self : t) (h : ConnectionHealth)
    (msg : string) (k : clock) :
  get_connection_health a self
  = Some (update_health (max_errors self) (ProbeRaises msg) k h) ->
  is_connection_healthy a self
  = negb (max_errors self <=? error_count h + 1).
Proof.
  intros Ha. unfold is_connection_healthy. rewrite Ha. simpl.
  destruct (max_errors self <=? error_count h + 1);
    [| destruct (max_errors self / 2 <=? error_count h + 1)]; reflexivity.
Qed.

Lemma run_calls_nil (self : t) : run_calls [] self = self.
Proof. reflexivity. Qed.

Lemma run_calls_app (xs ys : list call) (self : t) :
  run_calls (xs ++ ys) self = run_calls ys (run_calls xs self).
Proof. unfold run_calls. apply fold_left_app. Qed.

(** X4.  After [n >= 1] health checks of an identity in a row that all
    fail, its error count has grown by [n], its last error is the
    message of the last failure, and [is_connection_healthy] answers
    [True] exactly while the count is below [max_errors]. *)
Theorem consecutive_failures (self : t) (connection_id : string)
    (h : ConnectionHealth) (probes : list (string * clock)) :
  get_connection_health connection_id self = Some h ->
  probes <> [] ->
  exists h',
    get_connection_health connection_id
      (run_calls (failed_checks connection_id probes) self) = Some h'
    /\ error_count h' = error_count h + Z.of_nat (length probes)
    /\ last_error h' = fst <$> last probes
    /\ is_connection_healthy connection_id
         (run_calls (failed_checks connection_id probes) self)
       = negb (max_errors self <=? error_count h').
Proof.
  revert self h.
  induction probes as [| [msg k] probes IH]; intros self h Hh Hne;
    [congruence |].
  pose proof (check_known connection_id (ProbeRaises msg) k self h Hh) as H1.
  destruct probes as [| p probes].
  - exists (update_health (max_errors self) (ProbeRaises msg) k h).
    cbn [failed_checks map run_calls fold_left fst snd].
    split; [exact H1 |]. split; [simpl; lia |]. split; [reflexivity |].
    rewrite (healthy_by_count _ _ h msg k)
      by (rewrite max_errors_run_call; exact H1).
    now rewrite max_errors_run_call.
  - destruct (IH (run_call (Check connection_id (ProbeRaises msg) k) self) _ H1)
      as (h' & Hh' & Hc & Hl & Hv); [discriminate |].
    exists h'. rewrite max_errors_run_call in Hv.
    change (run_calls (failed_checks connection_id ((msg, k) :: p :: probes)) self)
      with (run_calls (failed_checks connection_id (p :: probes))
              (run_call (Check connection_id (ProbeRaises msg) k) self)).
    split; [exact Hh' |]. split; [| split; [exact Hl | exact Hv]].
    rewrite Hc. simpl error_count. simpl length. lia.
Qed.

Lemma consecutive_failures_witness :
  let self := run_calls [Start "primary"] (new 60 5) in
  let probes := [("timeout", mkClock 10 11 11); ("timeout", mkClock 70 71 71);
                 ("reset", mkClock 130 131 131)]%float in
  exists h',
    get_connection_health "primary"
      (run_calls (failed_checks "primary" probes) self) = Some h'
    /\ error_count h' = 0 + 3
    /\ last_error h' = Some "reset"
    /\ is_connection_healthy "primary"
         (run_calls (failed_checks "primary" probes) self)
       = negb (5 <=? error_count h').
Proof.
  intros self probes.
  apply (consecutive_failures self "primary"
           {| state := UNKNOWN; last_check := 0%float;
              response_time_ms := 0%float; error_count := 0;
              last_error := None; recovery_attempts := 0 |} probes).
  - reflexivity.
  - discriminate.
Defined.

Lemma flapping_round (a : string) (self : t) (h : ConnectionHealth)
    (k1 k2 : clock) (msg : string) :
  get_connection_health a self = Some h ->
  1 <= error_count h ->
  let self' :=
    run_calls [Check a ProbeSucceeds k1; Check a (ProbeRaises msg) k2] self in
  exists h',
    get_connection_health a self' = Some h'
    /\ error_count h' = error_count h
    /\ max_errors self' = max_errors self
    /\ is_connection_healthy a self' = negb (max_errors self <=? error_count h).
Proof.
  intros Hh Hc self'. subst self'.
  change (run_calls [Check a ProbeSucceeds k1; Check a (ProbeRaises msg) k2] self)
    with (run_call (Check a (ProbeRaises msg) k2)
            (run_call (Check a ProbeSucceeds k1) self)).
  pose proof (check_known a ProbeSucceeds k1 self h Hh) as H1.
  pose proof (check_known a (ProbeRaises msg) k2 _ _ H1) as H2.
  set (s1 := run_call (Check a ProbeSucceeds k1) self) in *.
  set (s2 := run_call (Check a (ProbeRaises msg) k2) s1) in *.
  assert (Hm1 : max_errors s1 = max_errors self)
    by apply max_errors_run_call.
  assert (Hm2 : max_errors s2 = max_errors self)
    by (unfold s2; rewrite max_errors_run_call; exact Hm1).
  eexists. split; [exact H2 |].
  split; [simpl; lia |]. split; [exact Hm2 |].
  rewrite <- Hm2 in H2 at 1.
  rewrite (healthy_by_count a s2 _ msg k2) by (rewrite Hm2, <- Hm1; exact H2).
  rewrite Hm2. simpl error_count.
  replace (Z.max 0 (error_count h - 1) + 1) with (error_count h) by lia.
  reflexivity.
Qed.

(** X5.  A connection whose probes succeed and fail in turn never
    recovers: with an error count of at least 1, after any number of
    rounds of one success followed by one failure the count is what it
    was, and [is_connection_healthy] answers [False] if the count had
    reached [max_errors]; yet after the success of the next round the
    connection is reported healthy, with a count of one less. *)
Theorem flapping_keeps_error_count (self : t) (connection_id : string)
    (h : ConnectionHealth) (rounds : list (clock * (string * clock)))
    (k : clock) :
  get_connection_health connection_id self = Some h ->
  1 <= error_count h ->
  rounds <> [] ->
  let self' := run_calls (flapping_checks connection_id rounds) self in
  (exists h',
      get_connection_health connection_id self' = Some h'
      /\ error_count h' = error_count h
      /\ is_connection_healthy connection_id self'
         = negb (max_errors self <=? error_count h))
  /\ (exists h'',
         get_connection_health connection_id
           (run_call (Check connection_id ProbeSucceeds k) self') = Some h''
         /\ error_count h'' = error_count h - 1
         /\ is_connection_healthy connection_id
              (run_call (Check connection_id ProbeSucceeds k) self') = true).
Proof.
  intros Hh Hc Hne self'.
  assert (Hfirst :
            exists h',
              get_connection_health connection_id self' = Some h'
              /\ error_count h' = error_count h
              /\ is_connection_healthy connection_id self'
                 = negb (max_errors self <=? error_count h)).
  { unfold self'. clear self'. revert self h Hh Hc.
    induction rounds as [| [k1 [msg k2]] rounds IH]; intros self h Hh Hc;
      [congruence |].
    destruct (flapping_round connection_id self h k1 k2 msg Hh Hc)
      as (h1 & Hh1 & Hc1 & Hm1 & Hv1).
    change (flapping_checks connection_id ((k1, (msg, k2)) :: rounds))
      with ([Check connection_id ProbeSucceeds k1;
             Check connection_id (ProbeRaises msg) k2]
              ++ flapping_checks connection_id rounds).
    rewrite !run_calls_app.
    destruct rounds as [| r rounds].
    - exists h1.
      change (flapping_checks connection_id []) with (@nil call).
      rewrite !run_calls_nil.
      split; [exact Hh1 |]. split; [exact Hc1 | exact Hv1].
    - destruct (IH ltac:(discriminate) _ h1 Hh1 ltac:(lia))
        as (h' & Hh' & Hc' & Hv').
      exists h'. split; [exact Hh' |]. split; [lia |].
      rewrite Hv', Hm1, Hc1. reflexivity. }
  split; [exact Hfirst |].
  destruct Hfirst as (h' & Hh' & Hc' & _).
  pose proof (check_known connection_id ProbeSucceeds k self' h' Hh') as H1.
  eexists. split; [exact H1 |]. split; [simpl; lia |].
  unfold is_connection_healthy. rewrite H1. reflexivity.
Qed.

Lemma flapping_keeps_error_count_witness :
  let self :=
    run_calls
      (Start "primary"
       :: failed_checks "primary"
            [("timeout", mkClock 10 11 11); ("timeout", mkClock 20 21 21);
             ("timeout", mkClock 30 31 31); ("timeout", mkClock 40 41 41);
             ("timeout", mkClock 50 51 51); ("timeout", mkClock 60 61 61);
             ("timeout", mkClock 70 71 71)]%float)
      (new 60 5) in
  let self' :=
    run_calls (flapping_checks "primary"
                 [(mkClock 80 81 81, ("timeout", mkClock 90 91 91));
                  (mkClock 100 101 101, ("timeout", mkClock 110 111 111))]%float)
      self in
  (exists h', get_connection_health "primary" self' = Some h'
              /\ error_count h' = 7
              /\ is_connection_healthy "primary" self' = negb (5 <=? 7))
  /\ (exists h'',
         get_connection_health "primary"
           (run_call (Check "primary" ProbeSucceeds (mkClock 120 121 121)) self')
         = Some h''
         /\ error_count h'' = 7 - 1
         /\ is_connection_healthy "primary"
              (run_call (Check "primary" ProbeSucceeds (mkClock 120 121 121)) self')
            = true).
Proof.
  intros self self'.
  refine (flapping_keeps_error_count self "primary"
            {| state := UNHEALTHY; last_check := 71%float;
               response_time_ms := 1000%float; error_count := 7;
               last_error := Some "timeout"; recovery_attempts := 0 |}
            _ (mkClock 120 121 121) _ _ _).
  - reflexivity.
  - simpl. lia.
  - discriminate.
Defined.

Lemma run_call_other (c : call) (a : string) (self : t) :
  call_id c <> a ->
  get_connection_health a (run_call c self) = get_connection_health a self
  /\ (a ∈ _monitoring_tasks (run_call c self) <-> a ∈ _monitoring_tasks self).
Proof.
  intros Hne. unfold get_connection_health.
  destruct c as [b | b | b p k]; simpl in *.
  - split; [apply start_monitoring_other; congruence |].
    unfold start_monitoring.
    destruct (decide (b ∈ _monitoring_tasks self)); [tauto |].
    simpl. rewrite elem_of_union, elem_of_singleton. split; [| tauto].
    intros [Hab | Hin]; [congruence | exact Hin].
  - rewrite stop_monitoring_health, stop_monitoring_tasks.
    destruct (decide (a = b)); [congruence |]. tauto.
  - unfold _check_connection_health.
    destruct (connection_health self !! b); [| tauto].
    simpl. rewrite lookup_insert_ne by congruence. tauto.
Qed.

(** X6.  Calls about other identities change nothing for an identity:
    its health record, whether it has a monitoring task, and the answer
    of [is_connection_healthy] are what they were. *)
Theorem calls_about_other_identities (self : t) (cs : list call)
    (connection_id : string) :
  Forall (fun c => call_id c <> connection_id) cs ->
  get_connection_health connection_id (run_calls cs self)
  = get_connection_health connection_id self
  /\ (connection_id ∈ _monitoring_tasks (run_calls cs self)
      <-> connection_id ∈ _monitoring_tasks self)
  /\ is_connection_healthy connection_id (run_calls cs self)
     = is_connection_healthy connection_id self.
Proof.
  intros Hcs.
  assert (H : get_connection_health connection_id (run_calls cs self)
              = get_connection_health connection_id self
              /\ (connection_id ∈ _monitoring_tasks (run_calls cs self)
                  <-> connection_id ∈ _monitoring_tasks self)).
  { revert self. induction Hcs as [| c cs Hc _ IH]; intros self; simpl;
      [tauto |].
    destruct (IH (run_call c self)) as [IH1 IH2].
    destruct (run_call_other c connection_id self Hc) as [H1 H2].
    unfold run_calls in *. rewrite IH1, IH2. tauto. }
  destruct H as [H1 H2]. split; [exact H1 |]. split; [exact H2 |].
  unfold is_connection_healthy. now rewrite H1.
Qed.

Lemma calls_about_other_identities_witness :
  let self :=
    run_calls [Start "primary";
               Check "primary" ProbeSucceeds (mkClock 10 11 11)] (new 60 5) in
  let cs := [Start "replica";
             Check "replica" (ProbeRaises "timeout") (mkClock 20 21 21);
             Stop "replica"] in
  get_connection_health "primary" (run_calls cs self)
  = get_connection_health "primary" self
  /\ ("primary" ∈ _monitoring_tasks (run_calls cs self)
      <-> "primary" ∈ _monitoring_tasks self)
  /\ is_connection_healthy "primary" (run_calls cs self)
     = is_connection_healthy "primary" self.
Proof.
  intros self cs.
  apply (calls_about_other_identities self cs "primary").
  repeat constructor; discriminate.
Defined.

(** X7.  The report of [get_all_health_status] on such a monitor has an
    entry exactly for the identities with a monitoring task; the
    [is_healthy] of an entry is the answer of [is_connection_healthy],
    its state is never ["closed"], and an entry that is not healthy has
    the state ["unknown"], or the state ["unhealthy"] and an error count
    of at least [max_errors]. *)
Theorem health_report_agrees (self : t) (connection_id : string) :
  reachable self ->
  (is_Some (get_all_health_status self !! connection_id)
   <-> connection_id ∈ _monitoring_tasks self)
  /\ (forall st,
         get_all_health_status self !! connection_id = Some st ->
         status_is_healthy st = is_connection_healthy connection_id self
         /\ status_state st <> "closed"
         /\ (status_is_healthy st = false ->
               status_state st = "unknown"
               \/ (status_state st = "unhealthy"
                   /\ max_errors self <= status_error_count st))).
Proof.
  intros Hr. pose proof (reachable_consistent self Hr) as [Hdom Hrec].
  unfold get_all_health_status. rewrite lookup_fmap. split.
  - rewrite Hdom. unfold get_connection_health.
    destruct (connection_health self !! connection_id); simpl;
      split; intros [x Hx]; (discriminate || eauto).
  - intros st. unfold is_connection_healthy, get_connection_health.
    destruct (connection_health self !! connection_id) as [h |] eqn:Hh;
      simpl; [| discriminate].
    intros [= <-]. simpl.
    destruct (Hrec connection_id h Hh) as (_ & Hc & _ & _ & Hu & _).
    destruct (state h) eqn:Hs; simpl;
      repeat split; try discriminate; try congruence; intros _.
    + right. split; [reflexivity | now apply Hu].
    + now left.
Qed.

Lemma health_report_agrees_witness :
  let self :=
    run_calls [Start "primary"; Start "replica";
               Check "primary" ProbeSucceeds (mkClock 10 11 11)] (new 60 5) in
  (is_Some (get_all_health_status self !! "replica")
   <-> "replica" ∈ _monitoring_tasks self)
  /\ (forall st,
         get_all_health_status self !! "replica" = Some st ->
         status_is_healthy st = is_connection_healthy "replica" self
         /\ status_state st <> "closed"
         /\ (status_is_healthy st = false ->
               status_state st = "unknown"
               \/ (status_state st = "unhealthy"
                   /\ max_errors self <= status_error_count st))).
Proof.
  intros self. apply (health_report_agrees self "replica").
  exists 60, 5,
    [Start "primary"; Start "replica";
     Check "primary" ProbeSucceeds (mkClock 10 11 11)].
  reflexivity.
Defined.

(** X8.  [start_monitoring] for an identity that has a task changes
    nothing, so it does not reset the record; [stop_monitoring] followed
    by [start_monitoring] does: the identity then has a task and a fresh
    record (state UNKNOWN, no error), and is reported not healthy until
    a probe has run. *)
Theorem restart_resets_record (self : t) (connection_id : string) :
  (connection_id ∈ _monitoring_tasks self ->
     start_monitoring connection_id self = self)
  /\ get_connection_health connection_id
       (start_monitoring connection_id (stop_monitoring connection_id self))
     = Some {| state := UNKNOWN; last_check := 0%float;
               response_time_ms := 0%float; error_count := 0;
               last_error := None; recovery_attempts := 0 |}
  /\ connection_id ∈ _monitoring_tasks
       (start_monitoring connection_id (stop_monitoring connection_id self))
  /\ is_connection_healthy connection_id
       (start_monitoring connection_id (stop_monitoring connection_id self))
     = false.
Proof.
  assert (Hout : connection_id ∉ _monitoring_tasks
                   (stop_monitoring connection_id self)).
  { rewrite stop_monitoring_tasks. tauto. }
  assert (Hrec : get_connection_health connection_id
                   (start_monitoring connection_id
                      (stop_monitoring connection_id self))
                 = Some {| state := UNKNOWN; last_check := 0%float;
                           response_time_ms := 0%float; error_count := 0;
                           last_error := None; recovery_attempts := 0 |}).
  { unfold get_connection_health, start_monitoring at 1.
    destruct (decide (connection_id ∈ _monitoring_tasks
                        (stop_monitoring connection_id self)));
      [contradiction |].
    simpl. apply lookup_insert_eq. }
  split; [| split; [exact Hrec | split]].
  - intros Hin. unfold start_monitoring.
    destruct (decide (connection_id ∈ _monitoring_tasks self));
      [reflexivity | contradiction].
  - unfold start_monitoring at 1.
    destruct (decide (connection_id ∈ _monitoring_tasks
                        (stop_monitoring connection_id self)));
      [contradiction |].
    simpl. rewrite elem_of_union, elem_of_singleton. now left.
  - unfold is_connection_healthy. rewrite Hrec. reflexivity.
Qed.

Lemma restart_resets_record_witness :
  let self :=
    run_calls [Start "primary";
               Check "primary" (ProbeRaises "timeout") (mkClock 10 11 11)]
      (new 60 5) in
  start_monitoring "primary" self = self.
Proof.
  intros self. apply (proj1 (restart_resets_record self "primary")).
  vm_compute. reflexivity.
Defined.

End ConnectionHealthMonitorHistory.

(** ** [ConnectionRecoveryManager.recover_connection] for any factory *)
Section RecoverConnectionAnyFactory.
Import ConnectionRecoveryManager.

Lemma elem_of_range_from (k : Z) (n : nat) :
  forall a : Z, k ∈ range_from a n <-> a <= k < a + Z.of_nat n.
Proof.
  induction n as [| n IH]; intros a; simpl range_from.
  - rewrite elem_of_nil. lia.
  - rewrite elem_of_cons, IH. lia.
Qed.

(** The three ways the body of the [try] goes: the [OverflowError] of
    the delay, with no event; a sleep that never ends; or the wait, if
    the attempt has one, and then the creation. *)
Lemma try_attempt_shape (loop : event_loop) (f : factory) (self : t) (a : Z)
    (c : nat) :
  let r := try_attempt loop f self a c in
  (1024 < a /\ fst (fst r) = Fails /\ snd (fst r) = [])
  \/ (1 < a <= 1024 /\ fst (fst r) = NeverReturns
      /\ snd (fst r) = [Sleep (backoff self a)]
      /\ sleep_ends loop (backoff self a) = false)
  \/ (a <= 1024 /\ fst (fst r) <> NeverReturns
      /\ (1 < a -> sleep_ends loop (backoff self a) = true)
      /\ exists tl,
           snd (fst r)
           = (if 1 <? a then [Sleep (backoff self a)] else [])
               ++ CreateConnection :: tl
           /\ schedule tl = [] /\ creations tl = O /\ waits tl = []).
Proof.
  intros r. subst r. destruct (Z_le_gt_dec a 1024) as [Ha | Ha].
  - right. unfold try_attempt. rewrite (delay_of_in_range self a Ha).
    destruct (1 <? a) eqn:H1; cbn [andb].
    + apply Z.ltb_lt in H1.
      destruct (sleep_ends loop (backoff self a)) eqn:Hs; cbn [negb].
      * right. split; [exact Ha |].
        destruct (f c); cbn [fst snd];
          (split; [discriminate |]); (split; [reflexivity |]);
          eexists; (split; [reflexivity |]); repeat split; reflexivity.
      * left. cbn [fst snd]. repeat split; try reflexivity; lia.
    + apply Z.ltb_ge in H1. right. split; [exact Ha |].
      destruct (f c); cbn [fst snd];
        (split; [discriminate |]); (split; [intros; lia |]);
        eexists; (split; [reflexivity |]); repeat split; reflexivity.
  - left. unfold try_attempt, delay_of, float_of_pow2.
    replace (a - 1 <? 1024) with false by (symmetry; apply Z.ltb_ge; lia).
    cbn [fst snd]. repeat split; try reflexivity; lia.
Qed.

Lemma try_attempt_bounds (loop : event_loop) (f : factory) (self : t) (a : Z)
    (c : nat) :
  (creations (snd (fst (try_attempt loop f self a c))) <= 1)%nat
  /\ (length (waits (snd (fst (try_attempt loop f self a c)))) <= 1)%nat
  /\ (a <= 1 -> waits (snd (fst (try_attempt loop f self a c))) = [])
  /\ Forall (fun d => d = backoff self a)
       (waits (snd (fst (try_attempt loop f self a c)))).
Proof.
  destruct (try_attempt_shape loop f self a c)
    as [(Ha & _ & ->) | [(Ha & _ & -> & _) | (Ha & _ & _ & tl & -> & _ & Hc & Hw)]].
  - cbn. repeat split; try lia. constructor.
  - cbn. repeat split; try lia. repeat constructor.
  - rewrite creations_app, waits_app.
    change (CreateConnection :: tl) with ([CreateConnection] ++ tl).
    rewrite creations_app, waits_app, Hc, Hw.
    destruct (1 <? a) eqn:H1; cbn.
    + apply Z.ltb_lt in H1. repeat split; try lia. repeat constructor.
    + repeat split; try lia. constructor.
Qed.

Lemma attempts_over_any (loop : event_loop) (f : factory)
    (connection_id : string) (now : float) (self : t) (l : list Z) :
  forall c : nat,
    let r := attempts_over loop f connection_id now self l c in
    max_retry_attempts (snd (fst r)) = max_retry_attempts self
    /\ base_delay (snd (fst r)) = base_delay self
    /\ (forall other, other <> connection_id ->
          _recovery_stats (snd (fst r)) !! other = _recovery_stats self !! other)
    /\ (creations (snd r) <= length l)%nat
    /\ Forall (fun d => exists k, k ∈ l /\ 1 < k /\ d = backoff self k)
         (waits (snd r))
    /\ match fst (fst r) with
       | Some true =>
           exists k, k ∈ l
                     /\ _recovery_stats (snd (fst r)) !! connection_id
                        = Some {| last_recovery := now; attempts_used := k;
                                  success := true |}
       | Some false =>
           (max_retry_attempts self ∈ l
            /\ _recovery_stats (snd (fst r)) !! connection_id
               = Some {| last_recovery := now;
                         attempts_used := max_retry_attempts self;
                         success := false |})
           \/ ((max_retry_attempts self ∉ l) /\ snd (fst r) = self)
       | None =>
           snd (fst r) = self
           /\ exists k, k ∈ l /\ 1 < k <= 1024
                        /\ sleep_ends loop (backoff self k) = false
       end.
Proof.
  induction l as [| a l IH]; intros c; cbn [attempts_over].
  - cbn [fst snd]. split; [reflexivity |]. split; [reflexivity |].
    split; [reflexivity |]. split; [cbn; lia |].
    split; [constructor |].
    right. split; [apply not_elem_of_nil | reflexivity].
  - pose proof (try_attempt_bounds loop f self a c) as (Hc & _ & Hw1 & Hw).
    pose proof (try_attempt_shape loop f self a c) as Hshape.
    destruct (try_attempt loop f self a c) as [[ok evs] c'] eqn:Htry.
    cbn [fst snd] in Hc, Hw1, Hw, Hshape.
    assert (Hwaits : Forall (fun d => exists k, k ∈ a :: l /\ 1 < k
                                                /\ d = backoff self k)
                       (waits evs)).
    { destruct (Z_le_gt_dec a 1) as [Hle | Hgt].
      - rewrite (Hw1 Hle). constructor.
      - eapply Forall_impl; [exact Hw |]. intros d ->.
        exists a. rewrite elem_of_cons.
        split; [now left | split; [lia | reflexivity]]. }
    destruct ok.
    + cbn [fst snd]. simpl length.
      split; [reflexivity |]. split; [reflexivity |].
      split; [intros other Hne; simpl; apply lookup_insert_ne; congruence |].
      split; [lia |]. split; [exact Hwaits |].
      exists a. split; [rewrite elem_of_cons; now left |].
      simpl. apply lookup_insert_eq.
    + destruct (a =? max_retry_attempts self) eqn:Hmax.
      * apply Z.eqb_eq in Hmax. cbn [fst snd]. simpl length.
        split; [reflexivity |]. split; [reflexivity |].
        split; [intros other Hne; simpl; apply lookup_insert_ne; congruence |].
        split; [lia |]. split; [exact Hwaits |].
        left. split; [rewrite elem_of_cons; now left |].
        simpl. rewrite Hmax. apply lookup_insert_eq.
      * apply Z.eqb_neq in Hmax.
        specialize (IH c'). cbv zeta in IH.
        destruct (attempts_over loop f connection_id now self l c')
          as [[r self'] evs'] eqn:Hrest.
        cbn [fst snd] in IH |- *.
        destruct IH as (H1 & H2 & H3 & H4 & H5 & H6).
        split; [exact H1 |]. split; [exact H2 |]. split; [exact H3 |].
        split; [rewrite creations_app; simpl length; lia |].
        split.
        { rewrite waits_app. apply Forall_app. split; [exact Hwaits |].
          eapply Forall_impl; [exact H5 |].
          intros d (k & Hk & Hk1 & ->). exists k.
          rewrite elem_of_cons. tauto. }
        destruct r as [[|] |].
        -- destruct H6 as (k & Hk & Hs). exists k.
           rewrite elem_of_cons. tauto.
        -- destruct H6 as [[Hin Hs] | [Hout Hs]].
           ++ left. rewrite elem_of_cons. tauto.
           ++ right. rewrite elem_of_cons. split; [| exact Hs].
              intros [Heq | Hin]; [congruence | contradiction].
        -- destruct H6 as (Hs & k & Hk & Hk1 & Hno).
           split; [exact Hs |]. exists k. rewrite elem_of_cons. tauto.
    + cbn [fst snd]. simpl length.
      split; [reflexivity |]. split; [reflexivity |].
      split; [reflexivity |].
      split; [lia |]. split; [exact Hwaits |].
      split; [reflexivity |].
      destruct Hshape as [(_ & Hf & _) | [(Ha & _ & _ & Hno) | (_ & Hf & _)]];
        [discriminate | | congruence].
      exists a. rewrite elem_of_cons. tauto.
Qed.

(** From attempt 1025 on the delay overflows before anything is done:
    no event. *)
Lemma attempts_over_overflow (loop : event_loop) (f : factory)
    (connection_id : string) (now : float) (self : t) (n : nat) :
  forall (a : Z) (c : nat),
    1024 < a ->
    snd (attempts_over loop f connection_id now self (range_from a n) c) = [].
Proof.
  induction n as [| n IH]; intros a c Ha; [reflexivity |].
  cbn [range_from attempts_over].
  unfold try_attempt, delay_of, float_of_pow2.
  replace (a - 1 <? 1024) with false by (symmetry; apply Z.ltb_ge; lia).
  destruct (a =? max_retry_attempts self); [reflexivity |].
  specialize (IH (a + 1) c ltac:(lia)).
  destruct (attempts_over loop f connection_id now self
              (range_from (a + 1) n) c) as [[r self'] evs'].
  cbn [snd] in IH |- *. now rewrite IH.
Qed.

(** The creations and the sleeps of the loop are, in their order, a
    beginning of those of the attempts it was to make. *)
Lemma attempts_over_schedule (loop : event_loop) (f : factory)
    (connection_id : string) (now : float) (self : t) (n : nat) :
  forall (a : Z) (c : nat),
    schedule (snd (attempts_over loop f connection_id now self
                     (range_from a n) c))
    `prefix_of` flat_map (attempt_schedule self) (range_from a n).
Proof.
  induction n as [| n IH]; intros a c; [apply prefix_nil |].
  destruct (Z_le_gt_dec a 1024) as [Ha | Ha];
    [| rewrite attempts_over_overflow by lia; apply prefix_nil].
  cbn [range_from attempts_over flat_map].
  pose proof (try_attempt_shape loop f self a c) as Hshape.
  destruct (try_attempt loop f self a c) as [[e evs] c'].
  cbn [fst snd] in Hshape.
  destruct Hshape
    as [(Hb & _) | [(Hb & -> & -> & _) | (_ & He & _ & tl & -> & Htl & _)]];
    [lia | |].
  - cbn [snd]. unfold attempt_schedule.
    replace (1 <? a) with true by (symmetry; apply Z.ltb_lt; lia).
    cbn. apply prefix_cons, prefix_nil.
  - assert (Hsch : schedule
                     ((if 1 <? a then [Sleep (backoff self a)] else [])
                        ++ CreateConnection :: tl)
                   = attempt_schedule self a).
    { rewrite schedule_app.
      change (CreateConnection :: tl) with ([CreateConnection] ++ tl).
      rewrite schedule_app, Htl, app_nil_r. unfold attempt_schedule.
      destruct (1 <? a); reflexivity. }
    destruct e; [| | congruence].
    + cbn [snd]. rewrite Hsch. apply prefix_app_r. reflexivity.
    + destruct (a =? max_retry_attempts self).
      * cbn [snd]. rewrite Hsch. apply prefix_app_r. reflexivity.
      * specialize (IH (a + 1) c').
        destruct (attempts_over loop f connection_id now self
                    (range_from (a + 1) n) c') as [[r self'] evs'].
        cbn [snd] in IH |- *. rewrite schedule_app, Hsch.
        apply prefix_app. exact IH.
Qed.

(** X9.  Whatever the factory does and whatever the settings are,
    [recover_connection] changes nothing but the stats of the identity
    it was called for, and its answer agrees with what it records there:
    [True] comes with stats {attempts_used = k, success = True} for some
    [1 <= k <= max_retry_attempts]; [False] comes with stats
    {attempts_used = max_retry_attempts, success = False} when
    [max_retry_attempts >= 1], and with no change at all and no event
    otherwise.  A call that never returns has changed nothing, and is in
    the sleep of an attempt [2 <= k <= max_retry_attempts] that does not
    end. *)
Theorem recover_connection_answer_matches_stats (loop : event_loop)
    (f : factory) (connection_id : string) (now : float) (self : t) :
  let r := recover_connection loop f connection_id now self in
  max_retry_attempts (snd (fst r)) = max_retry_attempts self
  /\ base_delay (snd (fst r)) = base_delay self
  /\ (forall other, other <> connection_id ->
        get_recovery_stats (snd (fst r)) !! other
        = get_recovery_stats self !! other)
  /\ match fst (fst r) with
     | Some true =>
         exists k, 1 <= k <= max_retry_attempts self
                   /\ get_recovery_stats (snd (fst r)) !! connection_id
                      = Some {| last_recovery := now; attempts_used := k;
                                success := true |}
     | Some false =>
         if 1 <=? max_retry_attempts self
         then get_recovery_stats (snd (fst r)) !! connection_id
              = Some {| last_recovery := now;
                        attempts_used := max_retry_attempts self;
                        success := false |}
         else snd (fst r) = self /\ snd r = []
     | None =>
         snd (fst r) = self
         /\ exists k, 2 <= k <= max_retry_attempts self
                      /\ sleep_ends loop (backoff self k) = false
     end.
Proof.
  intros r. subst r. unfold recover_connection, get_recovery_stats.
  pose proof (attempts_over_any loop f connection_id now self
                (range 1 (max_retry_attempts self + 1)) O)
    as (H1 & H2 & H3 & _ & _ & H6).
  split; [exact H1 |]. split; [exact H2 |]. split; [exact H3 |].
  destruct (fst (fst (attempts_over loop f connection_id now self
                        (range 1 (max_retry_attempts self + 1)) O)))
    as [[|] |] eqn:Hr.
  - destruct H6 as (k & Hk & Hs). exists k. split; [| exact Hs].
    unfold range in Hk. apply elem_of_range_from in Hk. lia.
  - destruct (1 <=? max_retry_attempts self) eqn:Hmax.
    + apply Z.leb_le in Hmax.
      destruct H6 as [[_ Hs] | [Hout _]]; [exact Hs |].
      exfalso. apply Hout. unfold range. apply elem_of_range_from. lia.
    + apply Z.leb_gt in Hmax.
      replace (range 1 (max_retry_attempts self + 1)) with (@nil Z).
      * split; reflexivity.
      * unfold range.
        replace (Z.to_nat (max_retry_attempts self + 1 - 1)) with O by lia.
        reflexivity.
  - destruct H6 as (Hs & k & Hk & Hk1 & Hno). split; [exact Hs |].
    exists k. split; [| exact Hno].
    unfold range in Hk. apply elem_of_range_from in Hk. lia.
Qed.

(** X10.  Whatever the factory does and whether or not the call returns,
    the creations and the sleeps of [recover_connection] are, in their
    order, a beginning of: the creation of attempt 1, then for each
    attempt [k] from 2 to [max_retry_attempts] the sleep of
    [base_delay * 2 ** (k - 1)] followed by the creation of attempt [k].
    So the first thing the call does, if it does anything, is to ask
    the factory for a connection: it never sleeps before the first
    attempt; each sleep is the backoff of the attempt whose creation
    comes next; it asks for at most [max_retry_attempts] connections,
    and it does not sleep at all with [max_retry_attempts <= 1]. *)
Theorem recover_connection_bounded (loop : event_loop) (f : factory)
    (connection_id : string) (now : float) (self : t) :
  let evs := snd (recover_connection loop f connection_id now self) in
  schedule evs
  `prefix_of` CreateConnection
              :: flat_map (fun k => [Sleep (backoff self k); CreateConnection])
                   (range 2 (max_retry_attempts self + 1))
  /\ (evs = [] \/ exists tl, evs = CreateConnection :: tl)
  /\ (creations evs <= Z.to_nat (max_retry_attempts self))%nat
  /\ Forall (fun d => exists k, 2 <= k <= max_retry_attempts self
                                /\ d = backoff self k) (waits evs)
  /\ (max_retry_attempts self <= 1 -> waits evs = []).
Proof.
  intros evs. subst evs. unfold recover_connection.
  pose proof (attempts_over_any loop f connection_id now self
                (range 1 (max_retry_attempts self + 1)) O)
    as (_ & _ & _ & H4 & H5 & _).
  assert (Hw : Forall (fun d => exists k, 2 <= k <= max_retry_attempts self
                                          /\ d = backoff self k)
                 (waits (snd (attempts_over loop f connection_id now self
                                (range 1 (max_retry_attempts self + 1)) O)))).
  { eapply Forall_impl; [exact H5 |].
    intros d (k & Hk & Hk1 & ->). exists k. split; [| reflexivity].
    unfold range in Hk. apply elem_of_range_from in Hk. lia. }
  split; [| split; [| split; [| split; [exact Hw |]]]].
  - destruct (Z_le_gt_dec (max_retry_attempts self) 0) as [H0 | H0].
    + unfold range at 1.
      replace (Z.to_nat (max_retry_attempts self + 1 - 1)) with O by lia.
      apply prefix_nil.
    + pose proof (attempts_over_schedule loop f connection_id now self
                    (Z.to_nat (max_retry_attempts self + 1 - 1)) 1 O) as Hp.
      unfold range at 1.
      replace (Z.to_nat (max_retry_attempts self + 1 - 1))
        with (S (Z.to_nat (max_retry_attempts self) - 1)) in Hp |- * by lia.
      cbn [range_from flat_map] in Hp.
      change (attempt_schedule self 1) with [CreateConnection] in Hp.
      rewrite flat_map_attempt_schedule in Hp by lia.
      unfold range.
      replace (Z.to_nat (max_retry_attempts self + 1 - 2))
        with (Z.to_nat (max_retry_attempts self) - 1)%nat by lia.
      exact Hp.
  - destruct (Z_le_gt_dec (max_retry_attempts self) 0) as [H0 | H0].
    + left. unfold range.
      replace (Z.to_nat (max_retry_attempts self + 1 - 1)) with O by lia.
      reflexivity.
    + right. unfold range.
      replace (Z.to_nat (max_retry_attempts self + 1 - 1))
        with (S (Z.to_nat (max_retry_attempts self) - 1)) by lia.
      cbn [range_from attempts_over].
      pose proof (try_attempt_shape loop f self 1 O) as Hshape.
      destruct (try_attempt loop f self 1 O) as [[e evs] c'].
      cbn [fst snd] in Hshape.
      destruct Hshape
        as [(Hb & _) | [(Hb & _) | (_ & He & _ & tl & -> & _)]];
        [lia | lia |].
      change (1 <? 1) with false. cbn [app].
      destruct e; [| | congruence].
      * cbn [snd]. eauto.
      * destruct (1 =? max_retry_attempts self); [cbn [snd]; eauto |].
        destruct (attempts_over loop f connection_id now self
                    (range_from (1 + 1)
                       (Z.to_nat (max_retry_attempts self) - 1)) c')
          as [[r self'] evs'].
        cbn [snd]. eexists. reflexivity.
  - unfold range in H4 |- *.
    assert (Hlen : forall n a, length (range_from a n) = n).
    { induction n as [| n IHn]; intros a; simpl; [reflexivity |].
      now rewrite IHn. }
    rewrite Hlen in H4. lia.
  - intros Hmax.
    destruct (waits (snd (attempts_over loop f connection_id now self
                            (range 1 (max_retry_attempts self + 1)) O)))
      as [| d ds]; [reflexivity |].
    apply Forall_cons in Hw. destruct Hw as [(k & Hk & _) _]. lia.
Qed.

Lemma recover_connection_answer_matches_stats_witness :
  let self :=
    record_stats "replica"
      {| last_recovery := 100; attempts_used := 1; success := true |}
      (new 3 2) in
  let r :=
    recover_connection (mkLoop true)
      (fun i => match i with 1%nat => Recovers | _ => RaisesAtCreate "down" end)
      "primary" 500 self in
  get_recovery_stats (snd (fst r)) !! "replica"
  = get_recovery_stats self !! "replica".
Proof.
  intros self r.
  apply (proj1 (proj2 (proj2
           (recover_connection_answer_matches_stats (mkLoop true)
              (fun i => match i with
                        | 1%nat => Recovers
                        | _ => RaisesAtCreate "down"
                        end)
              "primary" 500%float self)))).
  discriminate.
Defined.

(** X10 on a factory that is down, with three attempts (the creations
    and the two sleeps, of 4.0 s and 8.0 s, each before its creation)
    and with one (no sleep). *)
Lemma recover_connection_bounded_witness :
  (let evs := snd (recover_connection (mkLoop true)
                     (fun _ => RaisesAtQuery "down") "primary" 500 (new 3 2)) in
   schedule evs
   `prefix_of` [CreateConnection; Sleep 4; CreateConnection; Sleep 8;
                CreateConnection]
   /\ schedule evs
      = [CreateConnection; Sleep 4; CreateConnection; Sleep 8;
         CreateConnection]
   /\ (evs = [] \/ exists tl, evs = CreateConnection :: tl))
  /\ waits (snd (recover_connection (mkLoop true)
                   (fun _ => RaisesAtQuery "down") "primary" 500 (new 1 2)))
     = [].
Proof.
  split.
  - intros evs.
    destruct (recover_connection_bounded (mkLoop true)
                (fun _ => RaisesAtQuery "down") "primary" 500%float (new 3 2))
      as (Hp & Hhead & _).
    split; [exact Hp |]. split; [reflexivity | exact Hhead].
  - apply (proj2 (proj2 (proj2 (proj2
             (recover_connection_bounded (mkLoop true)
                (fun _ => RaisesAtQuery "down") "primary" 500%float
                (new 1 2)))))).
    simpl. lia.
Defined.

End RecoverConnectionAnyFactory.

(** ** [DatabaseInfo.is_cache_valid] on any day *)
Section CacheAnyDay.
Import DatabaseInfo.

Lemma floor_seconds_shift (x n : Z) :
  ((x + n * 86400 * 1000000) / 1000000) mod 86400 = (x / 1000000) mod 86400.
Proof.
  replace (x + n * 86400 * 1000000) with (x + (n * 86400) * 1000000) by lia.
  rewrite Z.div_add by lia.
  rewrite Z.mul_comm.
  replace (x / 1000000 + 86400 * n) with (x / 1000000 + n * 86400) by lia.
  apply Z.mod_add. lia.
Qed.

(** X11.  The answer of [is_cache_valid] recurs every 24 hours: two
    readings of the clock at which the ages of the entry differ by a
    whole number of days get the same answer, so an entry that has
    expired is reported valid again on each following day. *)
Theorem cache_validity_recurs_daily (now now' : datetime.t) (self : t) (n : Z) :
  datetime.total_microseconds (datetime.sub now' (last_updated self))
  = datetime.total_microseconds (datetime.sub now (last_updated self))
    + n * 86400 * 1000000 ->
  is_cache_valid now' self = is_cache_valid now self.
Proof.
  intros H. rewrite !is_cache_valid_mod_day, H, floor_seconds_shift.
  reflexivity.
Qed.

Lemma cache_validity_recurs_daily_witness :
  is_cache_valid (datetime.mk 2025 3 17 12 1 0 0) noon_entry
  = is_cache_valid (datetime.mk 2025 3 10 12 1 0 0) noon_entry.
Proof.
  apply (cache_validity_recurs_daily
           (datetime.mk 2025 3 10 12 1 0 0) (datetime.mk 2025 3 17 12 1 0 0)
           noon_entry 7).
  reflexivity.
Defined.

(** X12.  During the first 24 hours after [last_updated] the answer is
    the intended one: the entry is valid exactly while its age is less
    than [cache_ttl] seconds. *)
Theorem cache_valid_during_first_day (now : datetime.t) (self : t) :
  0 <= datetime.total_microseconds (datetime.sub now (last_updated self))
    < 86400 * 1000000 ->
  (is_cache_valid now self = true
   <-> datetime.total_microseconds (datetime.sub now (last_updated self))
       < cache_ttl self * 1000000).
Proof. apply is_cache_valid_within_a_day. Qed.

Lemma cache_valid_during_first_day_witness :
  is_cache_valid (datetime.mk 2025 3 10 12 4 59 999999) noon_entry = true
  <-> datetime.total_microseconds
        (datetime.sub (datetime.mk 2025 3 10 12 4 59 999999)
           (last_updated noon_entry))
      < cache_ttl noon_entry * 1000000.
Proof.
  apply (cache_valid_during_first_day
           (datetime.mk 2025 3 10 12 4 59 999999) noon_entry).
  vm_compute. split; [discriminate | reflexivity].
Defined.

(** X13.  An entry with a [cache_ttl] of a day or more never expires,
    whatever the clock reads, and one with a [cache_ttl] of zero or less
    is never valid. *)
Theorem cache_ttl_out_of_range (now : datetime.t) (self : t) :
  (86400 <= cache_ttl self -> is_cache_valid now self = true)
  /\ (cache_ttl self <= 0 -> is_cache_valid now self = false).
Proof.
  unfold is_cache_valid, datetime.sub.
  match goal with
  | |- context [datetime.new_timedelta ?d ?s ?us] =>
      destruct (new_timedelta_normal d s us) as [Hs _]
  end.
  split; intros H; [apply Z.ltb_lt | apply Z.ltb_ge]; lia.
Qed.

Lemma cache_ttl_out_of_range_witness :
  is_cache_valid (datetime.mk 2031 7 4 23 59 59 0)
    (written_at (datetime.mk 2025 3 10 12 0 0 0) 86400) = true.
Proof.
  apply (proj1 (cache_ttl_out_of_range (datetime.mk 2031 7 4 23 59 59 0)
                  (written_at (datetime.mk 2025 3 10 12 0 0 0) 86400))).
  simpl. lia.
Defined.

(** X14.  After [invalidate_cache] the entry is not invalid for good: it
    is reported valid exactly when the time of day of the clock is less
    than [cache_ttl] seconds after midnight, on every day. *)
Theorem invalidated_entry_valid_by_time_of_day (now : datetime.t) (self : t) :
  datetime.time_in_range now ->
  (is_cache_valid now (invalidate_cache self) = true
   <-> datetime.hour now * 3600 + datetime.minute now * 60
       + datetime.second now < cache_ttl self).
Proof.
  intros H. rewrite (is_cache_valid_after_invalidate now self H).
  unfold datetime._secs. rewrite Z.ltb_lt. lia.
Qed.

Lemma invalidated_entry_valid_by_time_of_day_witness :
  is_cache_valid (datetime.mk 2031 7 4 0 4 59 0) (invalidate_cache noon_entry)
  = true
  <-> 0 * 3600 + 4 * 60 + 59 < 300.
Proof.
  apply (invalidated_entry_valid_by_time_of_day
           (datetime.mk 2031 7 4 0 4 59 0) noon_entry).
  unfold datetime.time_in_range. simpl. lia.
Defined.

End CacheAnyDay.

(** ** [AgenticSQLClient]: the breaker over a history, and [connect] *)
Section ClientConnect.
Import AgenticSQLClient.

Lemma breaker_settings_run_call (c : call) (self : t) :
  _circuit_breaker_threshold (run_call c self) = _circuit_breaker_threshold self
  /\ _circuit_breaker_timeout (run_call c self) = _circuit_breaker_timeout self.
Proof.
  destruct c as [now | now |]; simpl.
  - unfold _is_circuit_breaker_open.
    destruct (_circuit_breaker_threshold self <=? _circuit_breaker_failures self);
      [| split; reflexivity].
    destruct (PrimFloat.ltb _ _); split; reflexivity.
  - split; reflexivity.
  - unfold _record_success.
    destruct (0 <? _circuit_breaker_failures self); split; reflexivity.
Qed.

Lemma failures_run_call_bound (c : call) (self : t) :
  0 <= _circuit_breaker_failures self ->
  _circuit_breaker_failures (run_call c self)
  <= _circuit_breaker_failures self + recorded_failures [c].
Proof.
  intros H0. unfold recorded_failures.
  destruct c as [now | now |]; simpl.
  - unfold _is_circuit_breaker_open.
    destruct (_circuit_breaker_threshold self <=? _circuit_breaker_failures self);
      [| simpl; lia].
    destruct (PrimFloat.ltb _ _); simpl; lia.
  - lia.
  - unfold _record_success.
    destruct (0 <? _circuit_breaker_failures self); simpl; lia.
Qed.

Lemma recorded_failures_cons (c : call) (cs : list call) :
  recorded_failures (c :: cs) = recorded_failures [c] + recorded_failures cs.
Proof. unfold recorded_failures. destruct c; simpl; lia. Qed.

Lemma breaker_history (cs : list call) :
  forall self : t,
    0 <= _circuit_breaker_failures self ->
    _circuit_breaker_threshold (run_calls cs self)
    = _circuit_breaker_threshold self
    /\ _circuit_breaker_timeout (run_calls cs self)
       = _circuit_breaker_timeout self
    /\ 0 <= _circuit_breaker_failures (run_calls cs self)
       <= _circuit_breaker_failures self + recorded_failures cs.
Proof.
  induction cs as [| c cs IH]; intros self H0.
  - simpl. unfold recorded_failures. simpl. repeat split; lia.
  - simpl. pose proof (run_call_failures_nonneg c self H0) as H1.
    destruct (IH (run_call c self) H1) as (Hth & Hto & Hlo & Hhi).
    destruct (breaker_settings_run_call c self) as [Hth1 Hto1].
    pose proof (failures_run_call_bound c self H0) as Hb.
    unfold run_calls in *. rewrite Hth, Hto, Hth1, Hto1.
    rewrite (recorded_failures_cons c cs).
    repeat split; lia.
Qed.

(** X15.  Over any history of calls on the breaker of a new client the
    threshold stays 5 and the timeout 60 seconds, the failure count is
    never negative and never more than the number of [_record_failure]
    calls; so [_is_circuit_breaker_open] cannot answer [True] before
    five failures have been recorded. *)
Theorem breaker_opens_only_after_five_failures (cs : list call) (now : float) :
  _circuit_breaker_threshold (run_calls cs init) = 5
  /\ _circuit_breaker_timeout (run_calls cs init) = 60%float
  /\ 0 <= _circuit_breaker_failures (run_calls cs init) <= recorded_failures cs
  /\ (fst (_is_circuit_breaker_open now (run_calls cs init)) = true ->
        5 <= recorded_failures cs).
Proof.
  destruct (breaker_history cs init ltac:(simpl; lia)) as (Hth & Hto & Hlo & Hhi).
  simpl in Hth, Hto, Hhi.
  split; [exact Hth |]. split; [exact Hto |]. split; [lia |].
  unfold _is_circuit_breaker_open. rewrite Hth.
  destruct (5 <=? _circuit_breaker_failures (run_calls cs init)) eqn:H5;
    [| discriminate].
  apply Z.leb_le in H5. intros _. lia.
Qed.

Lemma breaker_opens_only_after_five_failures_witness :
  5 <= recorded_failures
         [RecordFailure 1000; RecordFailure 1001; RecordSuccess;
          RecordFailure 1002; RecordFailure 1003; RecordFailure 1004;
          RecordFailure 1005]%float.
Proof.
  apply (proj2 (proj2 (proj2
           (breaker_opens_only_after_five_failures
              [RecordFailure 1000; RecordFailure 1001; RecordSuccess;
               RecordFailure 1002; RecordFailure 1003; RecordFailure 1004;
               RecordFailure 1005]%float 1010%float)))).
  reflexivity.
Defined.

Lemma pow_2_exceeds_10 (a : Z) :
  4 <= a < 1024 -> PrimFloat.ltb 10%float (FloatOps.Z.ldexp 1%float a) = true.
Proof.
  intros Ha.
  assert (Hall : forallb
                   (fun i => PrimFloat.ltb 10%float
                               (FloatOps.Z.ldexp 1%float (Z.of_nat i)))
                   (seq 4 1020) = true) by (vm_compute; reflexivity).
  rewrite forallb_forall in Hall.
  specialize (Hall (Z.to_nat a)).
  rewrite Z2Nat.id in Hall by lia.
  apply Hall. apply in_seq. lia.
Qed.

Lemma retry_delay_capped (a : Z) :
  0 <= a < 1024 -> retry_delay a = Some (capped_delay a).
Proof.
  intros Ha.
  assert (Hcases : a = 0 \/ a = 1 \/ a = 2 \/ a = 3 \/ 4 <= a) by lia.
  destruct Hcases as [-> | [-> | [-> | [-> | H4]]]]; try reflexivity.
  unfold retry_delay, float_pow_2, capped_delay.
  replace (a <? 1024) with true by (symmetry; apply Z.ltb_lt; lia).
  rewrite pow_2_exceeds_10 by lia.
  replace (a =? 0) with false by (symmetry; apply Z.eqb_neq; lia).
  replace (a =? 1) with false by (symmetry; apply Z.eqb_neq; lia).
  replace (a =? 2) with false by (symmetry; apply Z.eqb_neq; lia).
  replace (a =? 3) with false by (symmetry; apply Z.eqb_neq; lia).
  reflexivity.
Qed.

Lemma same_settings_refl (self : client) : same_settings_and_cache self self.
Proof. unfold same_settings_and_cache. tauto. Qed.

Lemma same_settings_trans (a b c : client) :
  same_settings_and_cache a b -> same_settings_and_cache b c ->
  same_settings_and_cache a c.
Proof.
  unfold same_settings_and_cache.
  intros (H1 & H2 & H3 & H4 & H5) (G1 & G2 & G3 & G4 & G5).
  repeat split; congruence.
Qed.

(** A failed attempt: the client it leaves, and how the loop goes on. *)
Lemma connect_attempts_failed (tr : transport) (k : connect_clock)
    (self : client) (a : Z) (rest : list Z) :
  tr a <> Connected ->
  exists self1,
    breaker self1 = breaker self
    /\ _connection_verified self1 = _connection_verified self
    /\ same_settings_and_cache self self1
    /\ connect_attempts tr k self (a :: rest)
       = if a <? max_retries self - 1 then
           match retry_delay a with
           | Some delay =>
               let '(r, self2, evs) := connect_attempts tr k self1 rest in
               (r, self2, Attempt a :: Sleep delay :: evs)
           | None => (RaisesOverflowError, self1, [Attempt a])
           end
         else
           let '(r, self3, evs) :=
             connect_attempts tr k
               (set_breaker (_record_failure (t_end k) (breaker self1)) self1)
               rest in
           (r, self3, Attempt a :: evs).
Proof.
  intros Hf. cbn [connect_attempts].
  destruct (tr a) as [msg | msg |]; [| | congruence].
  - exists self. repeat split; reflexivity.
  - exists (set_client_handle (Some a) self). repeat split; reflexivity.
Qed.

Lemma seq_range_cons (i n : nat) :
  map Z.of_nat (seq i (S n)) = Z.of_nat i :: map Z.of_nat (seq (S i) n).
Proof. reflexivity. Qed.

Lemma attempts_of_attempt (a : Z) (evs : list connect_event) :
  attempts_of (Attempt a :: evs) = a :: attempts_of evs.
Proof. reflexivity. Qed.

Lemma attempts_of_sleep (d : float) (evs : list connect_event) :
  attempts_of (Sleep d :: evs) = attempts_of evs.
Proof. reflexivity. Qed.

Lemma sleeps_of_attempt (a : Z) (evs : list connect_event) :
  sleeps_of (Attempt a :: evs) = sleeps_of evs.
Proof. reflexivity. Qed.

Lemma sleeps_of_sleep (d : float) (evs : list connect_event) :
  sleeps_of (Sleep d :: evs) = d :: sleeps_of evs.
Proof. reflexivity. Qed.

Lemma connect_attempts_all_fail (tr : transport) (k : connect_clock) (n : nat) :
  forall (i : nat) (self : client),
    Z.of_nat (i + S n) = max_retries self ->
    max_retries self <= 1025 ->
    fails_before tr (max_retries self) ->
    exists self' evs,
      connect_attempts tr k self (map Z.of_nat (seq i (S n)))
      = (Returns false, self', evs)
      /\ breaker self' = _record_failure (t_end k) (breaker self)
      /\ _connection_verified self' = _connection_verified self
      /\ same_settings_and_cache self self'
      /\ attempts_of evs = map Z.of_nat (seq i (S n))
      /\ sleeps_of evs = map capped_delay (map Z.of_nat (seq i n))
      /\ evs = flat_map (fun a => [Attempt a; Sleep (capped_delay a)])
                 (map Z.of_nat (seq i n))
               ++ [Attempt (Z.of_nat (i + n))].
Proof.
  induction n as [| n IH]; intros i self Hmax H1025 Hfail.
  - destruct (connect_attempts_failed tr k self (Z.of_nat i) [] ltac:(apply Hfail; lia))
      as (self1 & Hb & Hv & Hs & Heq).
    simpl seq. simpl map. rewrite Heq.
    replace (Z.of_nat i <? max_retries self - 1) with false
      by (symmetry; apply Z.ltb_ge; lia).
    cbn [connect_attempts].
    eexists _, _. split; [reflexivity |].
    split; [simpl; now rewrite Hb |]. split; [exact Hv |].
    split; [| split; [reflexivity | split; [reflexivity |]]].
    + destruct Hs as (S1 & S2 & S3 & S4 & S5).
      unfold same_settings_and_cache. simpl. tauto.
    + rewrite Nat.add_0_r. reflexivity.
  - destruct (connect_attempts_failed tr k self (Z.of_nat i)
                (map Z.of_nat (seq (S i) (S n))) ltac:(apply Hfail; lia))
      as (self1 & Hb & Hv & Hs & Heq).
    rewrite seq_range_cons, Heq.
    replace (Z.of_nat i <? max_retries self - 1) with true
      by (symmetry; apply Z.ltb_lt; lia).
    rewrite retry_delay_capped by lia.
    pose proof Hs as (S1 & _).
    destruct (IH (S i) self1)
      as (self' & evs & Hrun & Hb' & Hv' & Hs' & Ha & Hsl & Hevs);
      [lia | lia | now rewrite S1 |].
    rewrite Hrun. eexists _, _. split; [reflexivity |].
    split; [now rewrite Hb', Hb |]. split; [now rewrite Hv', Hv |].
    split; [exact (same_settings_trans _ _ _ Hs Hs') |].
    split; [| split].
    + rewrite attempts_of_attempt, attempts_of_sleep, Ha. reflexivity.
    + rewrite sleeps_of_attempt, sleeps_of_sleep, Hsl. reflexivity.
    + cbn [flat_map app]. rewrite Hevs.
      replace (S i + n)%nat with (i + S n)%nat by lia. reflexivity.
Qed.

Lemma connect_attempts_first_success (tr : transport) (k : connect_clock)
    (m : nat) :
  forall (i : nat) (self : client) (rest : list Z),
    Z.of_nat (i + m) < max_retries self ->
    Z.of_nat (i + m) <= 1024 ->
    fails_before tr (Z.of_nat (i + m)) ->
    tr (Z.of_nat (i + m)) = Connected ->
    exists self' evs,
      connect_attempts tr k self
        (map Z.of_nat (seq i m) ++ Z.of_nat (i + m) :: rest)
      = (Returns true, self', evs)
      /\ breaker self' = _record_success (breaker self)
      /\ _connection_verified self' = true
      /\ _last_activity self' = t_end k
      /\ client_handle self' = Some (Z.of_nat (i + m))
      /\ same_settings_and_cache self self'
      /\ attempts_of evs = map Z.of_nat (seq i (S m))
      /\ sleeps_of evs = map capped_delay (map Z.of_nat (seq i m))
      /\ evs = flat_map (fun a => [Attempt a; Sleep (capped_delay a)])
                 (map Z.of_nat (seq i m))
               ++ [Attempt (Z.of_nat (i + m))].
Proof.
  induction m as [| m IH]; intros i self rest Hmax H1024 Hfail Hok.
  - replace (i + 0)%nat with i in * by lia.
    simpl seq. simpl map. simpl app. cbn [connect_attempts]. rewrite Hok.
    eexists _, _. split; [reflexivity |].
    repeat split; reflexivity.
  - destruct (connect_attempts_failed tr k self (Z.of_nat i)
                (map Z.of_nat (seq (S i) m) ++ Z.of_nat (i + S m) :: rest)
                ltac:(apply Hfail; lia))
      as (self1 & Hb & Hv & Hs & Heq).
    rewrite seq_range_cons. rewrite <- app_comm_cons, Heq.
    replace (Z.of_nat i <? max_retries self - 1) with true
      by (symmetry; apply Z.ltb_lt; lia).
    rewrite retry_delay_capped by lia.
    pose proof Hs as (S1 & _).
    replace (i + S m)%nat with (S i + m)%nat in * by lia.
    destruct (IH (S i) self1 rest)
      as (self' & evs & Hrun & Hb' & Hv' & Hl' & Hh' & Hs' & Ha & Hsl & Hevs);
      [lia | lia | exact Hfail | exact Hok |].
    rewrite Hrun. eexists _, _. split; [reflexivity |].
    split; [now rewrite Hb', Hb |]. split; [exact Hv' |].
    split; [exact Hl' |]. split; [exact Hh' |].
    split; [exact (same_settings_trans _ _ _ Hs Hs') |].
    split; [| split].
    + rewrite attempts_of_attempt, attempts_of_sleep, Ha. reflexivity.
    + rewrite sleeps_of_attempt, sleeps_of_sleep, Hsl. reflexivity.
    + cbn [flat_map app]. rewrite Hevs. reflexivity.
Qed.

Lemma set_breaker_same (self : client) : set_breaker (breaker self) self = self.
Proof. destruct self. reflexivity. Qed.

Lemma same_settings_set_breaker (b : t) (self : client) :
  same_settings_and_cache self (set_breaker b self).
Proof. unfold same_settings_and_cache. simpl. tauto. Qed.

Lemma connect_blocked_by_breaker (tr : transport) (k : connect_clock)
    (self : client) :
  _circuit_breaker_threshold (breaker self)
  <= _circuit_breaker_failures (breaker self) ->
  cooling_down (t_gate k) (breaker self) = true ->
  connect tr k self = (Returns false, self, []).
Proof.
  intros Hth Hcool. unfold connect, _is_circuit_breaker_open.
  apply Z.leb_le in Hth. rewrite Hth.
  unfold cooling_down in Hcool. rewrite Hcool.
  now rewrite set_breaker_same.
Qed.

(** X16.  [connect] makes no attempt when the breaker is open (the
    failure count has reached the threshold and the cooldown is still
    running): it returns [False] and the client is as it was.  It makes
    no attempt either with [max_retries <= 0]: it returns [False]
    without recording a failure, so such a client never trips its
    breaker. *)
Theorem connect_without_attempt (tr : transport) (k : connect_clock)
    (self : client) :
  (_circuit_breaker_threshold (breaker self)
   <= _circuit_breaker_failures (breaker self) ->
   cooling_down (t_gate k) (breaker self) = true ->
   connect tr k self = (Returns false, self, []))
  /\ (max_retries self <= 0 ->
      connect tr k self
      = (Returns false,
         set_breaker (snd (_is_circuit_breaker_open (t_gate k) (breaker self)))
           self,
         [])).
Proof.
  split.
  - apply connect_blocked_by_breaker.
  - intros Hmax. unfold connect.
    destruct (_is_circuit_breaker_open (t_gate k) (breaker self)) as [o b].
    destruct o; [reflexivity |].
    unfold range. replace (Z.to_nat (max_retries self)) with O by lia.
    reflexivity.
Qed.

Lemma connect_without_attempt_witness :
  let self :=
    set_breaker
      (run_calls [RecordFailure 1000; RecordFailure 1001; RecordFailure 1002;
                  RecordFailure 1003; RecordFailure 1004]%float init)
      (new_client 3 300 900) in
  connect (fun _ => Connected) (mkConnectClock 1030 1031) self
  = (Returns false, self, [])
  /\ connect (fun _ => Connected) (mkConnectClock 1030 1031) (new_client 0 300 900)
     = (Returns false, new_client 0 300 900, []).
Proof.
  intros self. split.
  - apply (proj1 (connect_without_attempt (fun _ => Connected)
                    (mkConnectClock 1030 1031) self)).
    + simpl. lia.
    + reflexivity.
  - apply (proj2 (connect_without_attempt (fun _ => Connected)
                    (mkConnectClock 1030 1031) (new_client 0 300 900))).
    simpl. lia.
Defined.

(** [connect] when no attempt connects. *)
Lemma connect_every_attempt_fails (tr : transport) (k : connect_clock)
    (self : client) :
  1 <= max_retries self <= 1025 ->
  fst (_is_circuit_breaker_open (t_gate k) (breaker self)) = false ->
  fails_before tr (max_retries self) ->
  exists self' evs,
    connect tr k self = (Returns false, self', evs)
    /\ attempts_of evs = range (max_retries self)
    /\ sleeps_of evs = map capped_delay (range (max_retries self - 1))
    /\ breaker self'
       = _record_failure (t_end k)
           (snd (_is_circuit_breaker_open (t_gate k) (breaker self)))
    /\ _connection_verified self' = _connection_verified self
    /\ same_settings_and_cache self self'
    /\ evs = flat_map (fun a => [Attempt a; Sleep (capped_delay a)])
               (range (max_retries self - 1))
             ++ [Attempt (max_retries self - 1)].
Proof.
  intros Hmax Hgate Hfail. unfold connect.
  destruct (_is_circuit_breaker_open (t_gate k) (breaker self)) as [o b].
  simpl in Hgate. subst o. cbn [snd].
  unfold range.
  destruct (Z.to_nat (max_retries self)) as [| n] eqn:Hn; [lia |].
  destruct (connect_attempts_all_fail tr k n O (set_breaker b self))
    as (self' & evs & Hrun & Hb & Hv & Hs & Ha & Hsl & Hevs).
  - simpl max_retries. lia.
  - simpl max_retries. lia.
  - exact Hfail.
  - exists self', evs. split; [exact Hrun |]. split; [exact Ha |].
    replace (Z.to_nat (max_retries self - 1)) with n by lia.
    split; [exact Hsl |].
    split; [exact Hb |]. split; [exact Hv |].
    split;
      [exact (same_settings_trans _ _ _ (same_settings_set_breaker b self) Hs) |].
    rewrite Hevs. do 3 f_equal. lia.
Qed.

(** X17.  When every attempt fails ([1 <= max_retries <= 1025], breaker
    not open), [connect] returns [False] after exactly [max_retries]
    attempts, numbered from 0.  What it does is, in this order: each
    attempt [a] but the last followed by a sleep of [min(2 ** a, 10)]
    seconds (1, 2, 4, 8 and then 10), and then the last attempt, with no
    sleep after it.  It records exactly one failure, at the time of the
    last attempt, whatever the number of attempts;
    [_connection_verified], the settings and the cache are as they
    were. *)
Theorem connect_all_attempts_fail (tr : transport) (k : connect_clock)
    (self : client) :
  1 <= max_retries self <= 1025 ->
  fst (_is_circuit_breaker_open (t_gate k) (breaker self)) = false ->
  fails_before tr (max_retries self) ->
  exists self' evs,
    connect tr k self = (Returns false, self', evs)
    /\ attempts_of evs = range (max_retries self)
    /\ sleeps_of evs = map capped_delay (range (max_retries self - 1))
    /\ breaker self'
       = _record_failure (t_end k)
           (snd (_is_circuit_breaker_open (t_gate k) (breaker self)))
    /\ _connection_verified self' = _connection_verified self
    /\ same_settings_and_cache self self'
    /\ evs = flat_map (fun a => [Attempt a; Sleep (capped_delay a)])
               (range (max_retries self - 1))
             ++ [Attempt (max_retries self - 1)].
Proof. exact (connect_every_attempt_fails tr k self). Qed.

Lemma connect_all_attempts_fail_witness :
  exists self' evs,
    connect (fun _ => EnterRaises "refused") (mkConnectClock 1000 1007)
      (new_client 3 300 900)
    = (Returns false, self', evs)
    /\ attempts_of evs = [0; 1; 2]
    /\ sleeps_of evs = [1; 2]%float
    /\ breaker self' = _record_failure 1007 init
    /\ _connection_verified self' = false
    /\ same_settings_and_cache (new_client 3 300 900) self'
    /\ evs = [Attempt 0; Sleep 1; Attempt 1; Sleep 2; Attempt 2].
Proof.
  apply (connect_all_attempts_fail (fun _ => EnterRaises "refused")
           (mkConnectClock 1000 1007) (new_client 3 300 900)).
  - simpl. lia.
  - reflexivity.
  - intros a _. discriminate.
Defined.

(** X18.  When attempt [j] is the first to connect ([j < max_retries],
    [j <= 1024], breaker not open), [connect] returns [True] after the
    attempts 0 to [j].  What it does is, in this order: each failed
    attempt [a < j] followed by a sleep of [min(2 ** a, 10)] seconds (1,
    2, 4, 8 and then 10), and then attempt [j], with which it ends: every
    sleep comes after a failed attempt and before the retry.  The client
    is verified, its activity time is the time of the success, and the
    breaker has had one [_record_success]: one success takes back one
    recorded failure, not all. *)
Theorem connect_succeeds_at (tr : transport) (k : connect_clock)
    (self : client) (j : Z) :
  0 <= j < max_retries self ->
  j <= 1024 ->
  fst (_is_circuit_breaker_open (t_gate k) (breaker self)) = false ->
  fails_before tr j ->
  tr j = Connected ->
  exists self' evs,
    connect tr k self = (Returns true, self', evs)
    /\ attempts_of evs = range (j + 1)
    /\ sleeps_of evs = map capped_delay (range j)
    /\ breaker self'
       = _record_success
           (snd (_is_circuit_breaker_open (t_gate k) (breaker self)))
    /\ _connection_verified self' = true
    /\ _last_activity self' = t_end k
    /\ client_handle self' = Some j
    /\ same_settings_and_cache self self'
    /\ evs = flat_map (fun a => [Attempt a; Sleep (capped_delay a)]) (range j)
             ++ [Attempt j].
Proof.
  intros Hj H1024 Hgate Hfail Hok. unfold connect.
  destruct (_is_circuit_breaker_open (t_gate k) (breaker self)) as [o b].
  simpl in Hgate. subst o. cbn [snd].
  assert (Hsplit : range (max_retries self)
                   = map Z.of_nat (seq 0 (Z.to_nat j))
                     ++ Z.of_nat (0 + Z.to_nat j)
                     :: map Z.of_nat
                          (seq (S (Z.to_nat j))
                             (Z.to_nat (max_retries self) - S (Z.to_nat j)))).
  { unfold range.
    replace (Z.to_nat (max_retries self))
      with (Z.to_nat j + S (Z.to_nat (max_retries self) - S (Z.to_nat j)))%nat
      at 1 by lia.
    rewrite seq_app, map_app. reflexivity. }
  rewrite Hsplit.
  destruct (connect_attempts_first_success tr k (Z.to_nat j) O
              (set_breaker b self)
              (map Z.of_nat
                 (seq (S (Z.to_nat j))
                    (Z.to_nat (max_retries self) - S (Z.to_nat j)))))
    as (self' & evs & Hrun & Hb & Hv & Hl & Hh & Hs & Ha & Hsl & Hevs).
  - simpl max_retries. lia.
  - lia.
  - replace (Z.of_nat (0 + Z.to_nat j)) with j by lia. exact Hfail.
  - replace (Z.of_nat (0 + Z.to_nat j)) with j by lia. exact Hok.
  - exists self', evs. split; [exact Hrun |].
    unfold range.
    replace (Z.to_nat (j + 1)) with (S (Z.to_nat j)) by lia.
    split; [exact Ha |]. split; [exact Hsl |]. split; [exact Hb |].
    split; [exact Hv |]. split; [exact Hl |].
    split; [rewrite Hh; f_equal; lia |].
    split;
      [exact (same_settings_trans _ _ _ (same_settings_set_breaker b self) Hs) |].
    rewrite Hevs. do 3 f_equal. lia.
Qed.

Lemma connect_succeeds_at_witness :
  exists self' evs,
    connect (fun a => if a =? 2 then Connected else EnterRaises "refused")
      (mkConnectClock 1000 1004)
      (set_breaker (run_calls [RecordFailure 900; RecordFailure 950]%float init)
         (new_client 3 300 800))
    = (Returns true, self', evs)
    /\ attempts_of evs = [0; 1; 2]
    /\ sleeps_of evs = [1; 2]%float
    /\ _circuit_breaker_failures (breaker self') = 1
    /\ _connection_verified self' = true
    /\ evs = [Attempt 0; Sleep 1; Attempt 1; Sleep 2; Attempt 2].
Proof.
  destruct (connect_succeeds_at
              (fun a => if a =? 2 then Connected else EnterRaises "refused")
              (mkConnectClock 1000 1004)
              (set_breaker
                 (run_calls [RecordFailure 900; RecordFailure 950]%float init)
                 (new_client 3 300 800)) 2)
    as (self' & evs & Hrun & Ha & Hsl & Hb & Hv & _ & _ & _ & Hevs).
  - simpl. lia.
  - lia.
  - reflexivity.
  - intros a Ha. replace (a =? 2) with false by (symmetry; apply Z.eqb_neq; lia).
    discriminate.
  - reflexivity.
  - exists self', evs. split; [exact Hrun |]. split; [exact Ha |].
    split; [exact Hsl |]. split; [rewrite Hb; reflexivity |].
    split; [exact Hv | exact Hevs].
Defined.

Lemma gate_below_threshold (now : float) (b : t) :
  _circuit_breaker_failures b < _circuit_breaker_threshold b ->
  _is_circuit_breaker_open now b = (false, b).
Proof.
  intros H. unfold _is_circuit_breaker_open.
  replace (_circuit_breaker_threshold b <=? _circuit_breaker_failures b)
    with false by (symmetry; apply Z.leb_gt; lia).
  reflexivity.
Qed.

Lemma range_length (n : Z) : length (range n) = Z.to_nat n.
Proof. unfold range. now rewrite length_map, length_seq. Qed.

Lemma connect_calls_all_fail (calls : list (transport * connect_clock)) :
  forall self : client,
    _circuit_breaker_failures (breaker self) + Z.of_nat (length calls)
    <= _circuit_breaker_threshold (breaker self) ->
    1 <= max_retries self <= 1025 ->
    Forall (fun c => fails_before (fst c) (max_retries self)) calls ->
    let r := connect_calls calls self in
    fst (fst r) = repeat (Returns false) (length calls)
    /\ Z.of_nat (length (attempts_of (snd r)))
       = Z.of_nat (length calls) * max_retries self
    /\ _circuit_breaker_failures (breaker (snd (fst r)))
       = _circuit_breaker_failures (breaker self) + Z.of_nat (length calls)
    /\ _circuit_breaker_threshold (breaker (snd (fst r)))
       = _circuit_breaker_threshold (breaker self)
    /\ _circuit_breaker_timeout (breaker (snd (fst r)))
       = _circuit_breaker_timeout (breaker self).
Proof.
  induction calls as [| [tr k] calls IH]; intros self Hroom Hmax Hfail r;
    subst r.
  - simpl. repeat split; lia.
  - apply Forall_cons in Hfail. destruct Hfail as [Hf Hfail].
    simpl length in Hroom. simpl fst in Hf.
    pose proof (gate_below_threshold (t_gate k) (breaker self) ltac:(lia))
      as Hgate.
    destruct (connect_every_attempt_fails tr k self Hmax
                ltac:(now rewrite Hgate) Hf)
      as (self1 & evs & Hrun & Ha & _ & Hb & _ & Hs & _).
    rewrite Hgate in Hb. cbn [snd] in Hb.
    destruct Hs as (S1 & _).
    cbn [connect_calls]. rewrite Hrun.
    specialize (IH self1). cbv zeta in IH.
    rewrite Hb, S1 in IH. simpl _circuit_breaker_failures in IH.
    simpl _circuit_breaker_threshold in IH.
    simpl _circuit_breaker_timeout in IH.
    destruct IH as (I1 & I2 & I3 & I4 & I5); [lia | lia | exact Hfail |].
    destruct (connect_calls calls self1) as [[rs self2] evs'].
    cbn [fst snd] in *.
    split; [simpl; now rewrite I1 |].
    split.
    { unfold attempts_of in *. rewrite omap_app, length_app.
      rewrite Ha, range_length. simpl length. lia. }
    split; [simpl length; lia |]. split; [exact I4 | exact I5].
Qed.

(** X19.  Five calls of [connect] in a row that fail on every attempt
    open the breaker of a new client, whatever [max_retries] is: each
    call makes all its [max_retries] attempts and returns [False], and
    the failure count is then 5.  A further call while the cooldown of
    60 seconds runs returns [False] without any attempt and leaves the
    client as it is. *)
Theorem five_failed_connects_open_breaker (retries ttl : Z)
    (t0 : float) (calls : list (transport * connect_clock))
    (tr : transport) (k : connect_clock) :
  1 <= retries <= 1025 ->
  length calls = 5%nat ->
  Forall (fun c => fails_before (fst c) retries) calls ->
  let r := connect_calls calls (new_client retries ttl t0) in
  fst (fst r) = repeat (Returns false) 5
  /\ Z.of_nat (length (attempts_of (snd r))) = 5 * retries
  /\ _circuit_breaker_failures (breaker (snd (fst r))) = 5
  /\ (cooling_down (t_gate k) (breaker (snd (fst r))) = true ->
        connect tr k (snd (fst r)) = (Returns false, snd (fst r), [])).
Proof.
  intros Hmax Hlen Hfail r. subst r.
  destruct (connect_calls_all_fail calls (new_client retries ttl t0))
    as (H1 & H2 & H3 & H4 & _).
  - simpl. lia.
  - exact Hmax.
  - exact Hfail.
  - rewrite Hlen in *. simpl max_retries in H2.
    simpl _circuit_breaker_failures in H3.
    simpl _circuit_breaker_threshold in H4.
    split; [exact H1 |]. split; [lia |]. split; [lia |].
    intros Hcool.
    apply connect_blocked_by_breaker; [lia | exact Hcool].
Qed.

Lemma five_failed_connects_open_breaker_witness :
  let calls :=
    map (fun t => ((fun _ : Z => EnterRaises "refused"), mkConnectClock t t))
      [1000; 1010; 1020; 1030; 1040]%float in
  let r := connect_calls calls (new_client 3 300 900) in
  fst (fst r) = repeat (Returns false) 5
  /\ Z.of_nat (length (attempts_of (snd r))) = 5 * 3
  /\ _circuit_breaker_failures (breaker (snd (fst r))) = 5
  /\ (cooling_down 1099.5 (breaker (snd (fst r))) = true ->
        connect (fun _ => Connected) (mkConnectClock 1099.5 1100) (snd (fst r))
        = (Returns false, snd (fst r), [])).
Proof.
  intros calls.
  apply (five_failed_connects_open_breaker 3 300 900%float calls
           (fun _ => Connected) (mkConnectClock 1099.5 1100)).
  - lia.
  - reflexivity.
  - repeat constructor; intros a _; discriminate.
Defined.

End ClientConnect.

(** ** [AgenticSQLClient.get_database_info] and its cache *)
Section ClientDatabaseInfo.
Import AgenticSQLClient.

Lemma connect_attempts_same_settings (tr : transport) (k : connect_clock)
    (attempts : list Z) :
  forall self : client,
    same_settings_and_cache self
      (snd (fst (connect_attempts tr k self attempts))).
Proof.
  induction attempts as [| a attempts IH]; intros self.
  - apply same_settings_refl.
  - destruct (tr a) as [msg | msg |] eqn:Htr.
    + destruct (connect_attempts_failed tr k self a attempts
                  ltac:(congruence)) as (self1 & _ & _ & Hs & ->).
      destruct (a <? max_retries self - 1).
      * destruct (retry_delay a); [| exact Hs].
        pose proof (IH self1) as H1.
        destruct (connect_attempts tr k self1 attempts) as [[r s2] evs].
        exact (same_settings_trans _ _ _ Hs H1).
      * pose proof (IH (set_breaker (_record_failure (t_end k) (breaker self1))
                          self1)) as H1.
        destruct (connect_attempts tr k _ attempts) as [[r s3] evs].
        refine (same_settings_trans _ _ _ Hs
                  (same_settings_trans _ _ _ _ H1)).
        apply same_settings_set_breaker.
    + destruct (connect_attempts_failed tr k self a attempts
                  ltac:(congruence)) as (self1 & _ & _ & Hs & ->).
      destruct (a <? max_retries self - 1).
      * destruct (retry_delay a); [| exact Hs].
        pose proof (IH self1) as H1.
        destruct (connect_attempts tr k self1 attempts) as [[r s2] evs].
        exact (same_settings_trans _ _ _ Hs H1).
      * pose proof (IH (set_breaker (_record_failure (t_end k) (breaker self1))
                          self1)) as H1.
        destruct (connect_attempts tr k _ attempts) as [[r s3] evs].
        refine (same_settings_trans _ _ _ Hs
                  (same_settings_trans _ _ _ _ H1)).
        apply same_settings_set_breaker.
    + cbn [connect_attempts]. rewrite Htr.
      unfold same_settings_and_cache. simpl. tauto.
Qed.

Lemma connect_same_settings (tr : transport) (k : connect_clock)
    (self : client) :
  same_settings_and_cache self (snd (fst (connect tr k self))).
Proof.
  unfold connect.
  destruct (_is_circuit_breaker_open (t_gate k) (breaker self)) as [o b].
  destruct o; [apply same_settings_set_breaker |].
  exact (same_settings_trans _ _ _ (same_settings_set_breaker b self)
           (connect_attempts_same_settings tr k _ _)).
Qed.

(** What the calls keep of the cache and its counters. *)
Lemma client_call_keeps (c : client_call) (self : client) :
  (forall e, _db_info_cache self = Some e ->
             DatabaseInfo.connection_status e = "Connected"
             /\ DatabaseInfo.cache_ttl e = cache_ttl self
             /\ DatabaseInfo.total_tables e
                = Z.of_nat (length (DatabaseInfo.tables e))) ->
  0 <= cache_hits self -> 0 <= cache_misses self ->
  let self' := run_client_call c self in
  (forall e, _db_info_cache self' = Some e ->
             DatabaseInfo.connection_status e = "Connected"
             /\ DatabaseInfo.cache_ttl e = cache_ttl self'
             /\ DatabaseInfo.total_tables e
                = Z.of_nat (length (DatabaseInfo.tables e)))
  /\ 0 <= cache_hits self' /\ 0 <= cache_misses self'
  /\ cache_ttl self' = cache_ttl self
  /\ max_retries self' = max_retries self
  /\ cache_hits self' + cache_misses self'
     = cache_hits self + cache_misses self + info_calls [c].
Proof.
  intros Hc Hh Hm self'. subst self'. unfold info_calls.
  destruct c as [tr k | fetch k |]; simpl run_client_call.
  - destruct (connect_same_settings tr k self) as (S1 & S2 & S3 & S4 & S5).
    rewrite S1, S2, S3, S4, S5. simpl.
    split; [exact Hc |]. repeat split; lia.
  - unfold get_database_info.
    destruct (cache_hit k self) as [cached |];
      [| destruct fetch as [db tables | msg]]; cbn [fst snd]; simpl.
    + split; [exact Hc |]. repeat split; lia.
    + split; [| repeat split; lia].
      intros e [= <-]. simpl. repeat split; reflexivity.
    + split; [exact Hc |]. repeat split; lia.
  - simpl. split; [| repeat split; lia].
    intros e He.
    destruct (_db_info_cache self) as [e0 |]; [| discriminate].
    injection He as <-. simpl. now apply (Hc e0).
Qed.

Lemma info_calls_cons (c : client_call) (cs : list client_call) :
  info_calls (c :: cs) = info_calls [c] + info_calls cs.
Proof. unfold info_calls. destruct c; simpl; lia. Qed.

Lemma client_calls_keep (cs : list client_call) :
  forall self : client,
    (forall e, _db_info_cache self = Some e ->
               DatabaseInfo.connection_status e = "Connected"
               /\ DatabaseInfo.cache_ttl e = cache_ttl self
               /\ DatabaseInfo.total_tables e
                  = Z.of_nat (length (DatabaseInfo.tables e))) ->
    0 <= cache_hits self -> 0 <= cache_misses self ->
    let self' := run_client_calls cs self in
    (forall e, _db_info_cache self' = Some e ->
               DatabaseInfo.connection_status e = "Connected"
               /\ DatabaseInfo.cache_ttl e = cache_ttl self'
               /\ DatabaseInfo.total_tables e
                  = Z.of_nat (length (DatabaseInfo.tables e)))
    /\ 0 <= cache_hits self' /\ 0 <= cache_misses self'
    /\ cache_ttl self' = cache_ttl self
    /\ max_retries self' = max_retries self
    /\ cache_hits self' + cache_misses self'
       = cache_hits self + cache_misses self + info_calls cs.
Proof.
  induction cs as [| c cs IH]; intros self Hc Hh Hm self'; subst self'.
  - simpl. unfold info_calls. simpl. split; [exact Hc |]. repeat split; lia.
  - destruct (client_call_keeps c self Hc Hh Hm)
      as (Hc1 & Hh1 & Hm1 & Ht1 & Hr1 & Hn1).
    destruct (IH (run_client_call c self) Hc1 Hh1 Hm1)
      as (Hc2 & Hh2 & Hm2 & Ht2 & Hr2 & Hn2).
    simpl run_client_calls. unfold run_client_calls in *.
    rewrite info_calls_cons.
    split; [exact Hc2 |]. repeat split; try lia; try congruence.
Qed.

(** X20.  Over any history of [connect], [get_database_info] and
    [invalidate_cache] calls on a new client, the hits and misses of the
    cache add up to the number of [get_database_info] calls, and an
    entry in the cache always has the status ["Connected"], the client's
    [cache_ttl] and a [total_tables] equal to the number of its tables.
    That status says nothing of the tool calls: on a miss, when both
    tool calls raise, [gather] hands their exceptions over as results
    and the call builds, stores and returns a ["Connected"] entry with
    no tables, which replaces whatever was cached.  The one entry that
    is not stored is the ["Error"] entry of the [except], built when the
    body of the [try] itself raises: it is returned with a [cache_ttl]
    of 60 and the cache is left as it was. *)
Theorem database_info_cache_invariant (retries ttl : Z) (t0 : float)
    (cs : list client_call) :
  let self := run_client_calls cs (new_client retries ttl t0) in
  cache_hits self + cache_misses self = info_calls cs
  /\ 0 <= cache_hits self
  /\ 0 <= cache_misses self
  /\ cache_ttl self = ttl
  /\ (forall e, _db_info_cache self = Some e ->
                DatabaseInfo.connection_status e = "Connected"
                /\ DatabaseInfo.cache_ttl e = ttl
                /\ DatabaseInfo.total_tables e
                   = Z.of_nat (length (DatabaseInfo.tables e)))
  /\ (forall (k : info_clock) (db_msg tables_msg : string),
        cache_hit k self = None ->
        let r := get_database_info
                   (Fetched (ToolRaised db_msg) (ToolRaised tables_msg))
                   k self in
        snd r = true
        /\ _db_info_cache (snd (fst r)) = Some (fst (fst r))
        /\ DatabaseInfo.connection_status (fst (fst r)) = "Connected"
        /\ DatabaseInfo.tables (fst (fst r)) = []
        /\ DatabaseInfo.total_tables (fst (fst r)) = 0
        /\ DatabaseInfo.last_updated (fst (fst r)) = now_store k)
  /\ (forall (k : info_clock) (msg : string),
        cache_hit k self = None ->
        let r := get_database_info (FetchRaises msg) k self in
        snd r = true
        /\ _db_info_cache (snd (fst r)) = _db_info_cache self
        /\ DatabaseInfo.connection_status (fst (fst r)) = "Error"
        /\ DatabaseInfo.cache_ttl (fst (fst r)) = 60).
Proof.
  intros self. subst self.
  destruct (client_calls_keep cs (new_client retries ttl t0))
    as (Hc & Hh & Hm & Ht & _ & Hn).
  - intros e. discriminate.
  - simpl. lia.
  - simpl. lia.
  - simpl in Ht, Hn. split; [lia |]. split; [exact Hh |].
    split; [exact Hm |]. split; [exact Ht |].
    split; [| split].
    + intros e He. destruct (Hc e He) as (H1 & H2 & H3).
      split; [exact H1 |]. split; [congruence | exact H3].
    + intros k db_msg tables_msg Hmiss r. subst r.
      unfold get_database_info. rewrite Hmiss. cbn [fst snd].
      repeat split; reflexivity.
    + intros k msg Hmiss r. subst r.
      unfold get_database_info. rewrite Hmiss. cbn [fst snd].
      repeat split; reflexivity.
Qed.

(** X20 on a client whose cache holds two tables, read again half an
    hour later: with both tool calls failing the cache then holds a
    ["Connected"] entry with no tables; with the body raising it keeps
    the entry it had. *)
Lemma database_info_cache_invariant_witness :
  let cs :=
    [GetDatabaseInfo
       (Fetched (ToolReturned tt) (ToolReturned ["dbo.orders"; "dbo.items"]))
       (mkInfoClock (datetime.mk 2025 3 10 12 0 0 0) 1000
          (datetime.mk 2025 3 10 12 0 1 0))] in
  let self := run_client_calls cs (new_client 3 300 900) in
  let k := mkInfoClock (datetime.mk 2025 3 10 12 30 0 0) 2800
             (datetime.mk 2025 3 10 12 30 1 0) in
  (exists e, _db_info_cache self = Some e
             /\ DatabaseInfo.connection_status e = "Connected"
             /\ DatabaseInfo.cache_ttl e = 300
             /\ DatabaseInfo.tables e = ["dbo.orders"; "dbo.items"])
  /\ (let r := get_database_info
                 (Fetched (ToolRaised "timeout") (ToolRaised "timeout")) k self in
      _db_info_cache (snd (fst r)) = Some (fst (fst r))
      /\ DatabaseInfo.connection_status (fst (fst r)) = "Connected"
      /\ DatabaseInfo.tables (fst (fst r)) = [])
  /\ (let r := get_database_info (FetchRaises "closed") k self in
      _db_info_cache (snd (fst r)) = _db_info_cache self
      /\ DatabaseInfo.connection_status (fst (fst r)) = "Error").
Proof.
  intros cs self k.
  destruct (database_info_cache_invariant 3 300 900%float cs)
    as (_ & _ & _ & _ & Hentry & Hfailed & Hraised).
  split; [| split].
  - eexists. split; [reflexivity |].
    destruct (Hentry _ eq_refl) as (H1 & H2 & _).
    split; [exact H1 |]. split; [exact H2 | reflexivity].
  - destruct (Hfailed k "timeout" "timeout" eq_refl)
      as (_ & H1 & H2 & H3 & _).
    split; [exact H1 |]. split; [exact H2 | exact H3].
  - destruct (Hraised k "closed" eq_refl) as (_ & H1 & H2 & _).
    split; [exact H1 | exact H2].
Defined.

(** X21.  On such a client with an entry in the cache,
    [get_database_info] answers from the cache, without asking the
    server, exactly when the whole seconds of the entry's age, taken
    modulo one day, are fewer than [cache_ttl]: the days of the age do
    not count, so a stale entry is served again at the same time of
    every following day.  The object returned is then the cached one
    and the call counts as a hit. *)
Theorem database_info_served_by_time_of_day (self : client)
    (cached : DatabaseInfo.t) (fetch : fetch_outcome) (k : info_clock) :
  client_reachable self ->
  _db_info_cache self = Some cached ->
  let r := get_database_info fetch k self in
  (snd r = false
   <-> age_seconds (now_check k) cached mod 86400 < cache_ttl self)
  /\ (snd r = false ->
        fst (fst r) = cached
        /\ _db_info_cache (snd (fst r)) = Some cached
        /\ cache_hits (snd (fst r)) = cache_hits self + 1
        /\ cache_misses (snd (fst r)) = cache_misses self)
  /\ (snd r = true ->
        cache_misses (snd (fst r)) = cache_misses self + 1
        /\ cache_hits (snd (fst r)) = cache_hits self).
Proof.
  intros (retries & ttl & t0 & cs & ->) Hcache r. subst r.
  destruct (client_calls_keep cs (new_client retries ttl t0))
    as (Hc & _ & _ & Httl & _); [discriminate | simpl; lia | simpl; lia |].
  simpl in Httl.
  destruct (Hc cached Hcache) as (Hst & Ht & _). rewrite Httl in Ht.
  unfold get_database_info, cache_hit. rewrite Hcache, Hst. simpl String.eqb.
  rewrite andb_true_r, is_cache_valid_mod_day, Ht, Httl.
  unfold age_seconds.
  destruct (_ <? ttl) eqn:Hlt.
  - apply Z.ltb_lt in Hlt. cbn [fst snd]. simpl.
    repeat split; try tauto; try discriminate.
  - apply Z.ltb_ge in Hlt.
    destruct fetch as [db tables | msg]; cbn [fst snd]; simpl;
      repeat split; try discriminate; try lia; reflexivity.
Qed.

Lemma database_info_served_by_time_of_day_witness :
  let self :=
    run_client_calls
      [GetDatabaseInfo (Fetched (ToolReturned tt) (ToolReturned ["dbo.orders"]))
         (mkInfoClock (datetime.mk 2025 3 10 12 0 0 0) 1000
            (datetime.mk 2025 3 10 12 0 0 0))]
      (new_client 3 300 900) in
  let k := mkInfoClock (datetime.mk 2025 3 14 12 3 0 0) 346780
             (datetime.mk 2025 3 14 12 3 1 0) in
  snd (get_database_info (Fetched (ToolReturned tt) (ToolReturned ["dbo.orders"; "dbo.new"])) k self) = false
  /\ DatabaseInfo.tables
       (fst (fst (get_database_info (Fetched (ToolReturned tt) (ToolReturned ["dbo.orders"; "dbo.new"])) k self)))
     = ["dbo.orders"].
Proof.
  intros self k.
  assert (Hr : client_reachable self).
  { exists 3, 300, 900%float,
      [GetDatabaseInfo (Fetched (ToolReturned tt) (ToolReturned ["dbo.orders"]))
         (mkInfoClock (datetime.mk 2025 3 10 12 0 0 0) 1000
            (datetime.mk 2025 3 10 12 0 0 0))].
    reflexivity. }
  destruct (database_info_served_by_time_of_day self _
              (Fetched (ToolReturned tt) (ToolReturned ["dbo.orders"; "dbo.new"])) k Hr eq_refl)
    as (Hiff & Hhit & _).
  assert (Hno : snd (get_database_info (Fetched (ToolReturned tt) (ToolReturned ["dbo.orders"; "dbo.new"])) k self)
                = false).
  { apply Hiff. vm_compute. reflexivity. }
  split; [exact Hno |].
  destruct (Hhit Hno) as (-> & _). reflexivity.
Defined.

End ClientDatabaseInfo.

(** ** [SqlConnectionFactory]: creation, the pool and leases *)
Section SqlConnectionFactoryMore.
Import SqlConnectionFactory.

Lemma waits_of_app (xs ys : list event) :
  waits_of (xs ++ ys) = waits_of xs ++ waits_of ys.
Proof. apply omap_app. Qed.

Lemma closes_of_app (xs ys : list event) :
  closes_of (xs ++ ys) = closes_of xs ++ closes_of ys.
Proof. apply omap_app. Qed.

(** One attempt of the retry loop, by what [connect()] does. *)
Lemma retrying_step (d : driver) (fuel : nat) (k : Z) (s : t) :
  retrying d fuel k s
  = let s0 :=
      {| _connection_pool := _connection_pool s; _pool_size := _pool_size s;
         _pool_initialized := _pool_initialized s;
         connects := S (connects s); closed := closed s; trace := trace s |} in
    match connect d (connects s) with
    | Connects => (inl (connects s), log (EvConnect (connects s) true) s0)
    | ConnectRaises e0 =>
        let s1 := log (EvConnect (connects s) false) s0 in
        if negb (is_Exception (raised_by_connect e0))
        then (inr (raised_by_connect e0), s1)
        else if stop_after_attempt 3 k
             then (inr (RetryError (raised_by_connect e0)), s1)
        else
          match fuel with
          | O => (inr (RetryError (raised_by_connect e0)), s1)
          | S fuel' =>
              retrying d fuel' (k + 1)
                (log (EvWait (wait_exponential 1 2 10 k)) s1)
          end
    end.
Proof.
  destruct fuel; cbn [retrying]; unfold connect_once;
    destruct (connect d (connects s)); reflexivity.
Qed.

(** The outcomes of [create_connection], by the calls of [connect()]. *)
Lemma create_connection_outcome (d : driver) (s : t) :
  exists (n : nat) (evs : list event),
    (1 <= n <= 3)%nat
    /\ connects (snd (create_connection d s)) = (connects s + n)%nat
    /\ trace (snd (create_connection d s)) = trace s ++ evs
    /\ waits_of evs = repeat 2 (n - 1)
    /\ closes_of evs = []
    /\ (forall i, (i < n - 1)%nat ->
          exists e0, connect d (connects s + i) = ConnectRaises e0
                     /\ is_Exception (raised_by_connect e0) = true)
    /\ match fst (create_connection d s) with
       | inl c => c = (connects s + (n - 1))%nat /\ connect d c = Connects
       | inr e =>
           exists e0,
             connect d (connects s + (n - 1)) = ConnectRaises e0
             /\ (if is_Exception (raised_by_connect e0)
                 then n = 3%nat /\ e = RetryError (raised_by_connect e0)
                 else e = raised_by_connect e0)
       end.
Proof.
  unfold create_connection. rewrite retrying_step. cbv zeta.
  destruct (connect d (connects s)) as [| e1] eqn:H1.
  { exists 1%nat, [EvConnect (connects s) true]. cbn [fst snd].
    split; [lia |]. split; [simpl; lia |]. split; [reflexivity |].
    split; [reflexivity |]. split; [reflexivity |].
    split; [intros i Hi; lia |].
    replace (connects s + (1 - 1))%nat with (connects s) by lia.
    split; [reflexivity | exact H1]. }
  destruct (is_Exception (raised_by_connect e1)) eqn:E1; cbn [negb].
  2:{ exists 1%nat, [EvConnect (connects s) false]. cbn [fst snd].
      split; [lia |]. split; [simpl; lia |]. split; [reflexivity |].
      split; [reflexivity |]. split; [reflexivity |].
      split; [intros i Hi; lia |].
      replace (connects s + (1 - 1))%nat with (connects s) by lia.
      exists e1. split; [exact H1 |]. now rewrite E1. }
  change (stop_after_attempt 3 1) with false. cbv iota.
  rewrite retrying_step. cbv zeta. cbn [connects log].
  destruct (connect d (S (connects s))) as [| e2] eqn:H2.
  { exists 2%nat, [EvConnect (connects s) false; EvWait 2;
                   EvConnect (S (connects s)) true].
    cbn [fst snd].
    split; [lia |]. split; [simpl; lia |].
    split; [simpl; rewrite <- !app_assoc; reflexivity |].
    split; [reflexivity |]. split; [reflexivity |].
    split.
    - intros i Hi. assert (i = O) by lia. subst i.
      rewrite Nat.add_0_r. exists e1. split; assumption.
    - replace (connects s + (2 - 1))%nat with (S (connects s)) by lia.
      split; [reflexivity | exact H2]. }
  destruct (is_Exception (raised_by_connect e2)) eqn:E2; cbn [negb].
  2:{ exists 2%nat, [EvConnect (connects s) false; EvWait 2;
                     EvConnect (S (connects s)) false].
      cbn [fst snd].
      split; [lia |]. split; [simpl; lia |].
      split; [simpl; rewrite <- !app_assoc; reflexivity |].
      split; [reflexivity |]. split; [reflexivity |].
      split.
      - intros i Hi. assert (i = O) by lia. subst i.
        rewrite Nat.add_0_r. exists e1. split; assumption.
      - replace (connects s + (2 - 1))%nat with (S (connects s)) by lia.
        exists e2. split; [exact H2 |]. now rewrite E2. }
  change (stop_after_attempt 3 (1 + 1)) with false. cbv iota.
  rewrite retrying_step. cbv zeta. cbn [connects log].
  assert (Hprev : forall i, (i < 3 - 1)%nat ->
            exists e0, connect d (connects s + i) = ConnectRaises e0
                       /\ is_Exception (raised_by_connect e0) = true).
  { intros i Hi. assert (Hc : i = O \/ i = 1%nat) by lia.
    destruct Hc as [-> | ->].
    - rewrite Nat.add_0_r. exists e1. split; assumption.
    - replace (connects s + 1)%nat with (S (connects s)) by lia.
      exists e2. split; assumption. }
  destruct (connect d (S (S (connects s)))) as [| e3] eqn:H3.
  { exists 3%nat, [EvConnect (connects s) false; EvWait 2;
                   EvConnect (S (connects s)) false; EvWait 2;
                   EvConnect (S (S (connects s))) true].
    cbn [fst snd].
    split; [lia |]. split; [simpl; lia |].
    split; [simpl; rewrite <- !app_assoc; reflexivity |].
    split; [reflexivity |]. split; [reflexivity |].
    split; [exact Hprev |].
    replace (connects s + (3 - 1))%nat with (S (S (connects s))) by lia.
    split; [reflexivity | exact H3]. }
  exists 3%nat, [EvConnect (connects s) false; EvWait 2;
                 EvConnect (S (connects s)) false; EvWait 2;
                 EvConnect (S (S (connects s))) false].
  replace (connects s + (3 - 1))%nat with (S (S (connects s))) by lia.
  destruct (is_Exception (raised_by_connect e3)) eqn:E3; cbn [negb];
    [change (stop_after_attempt 3 (1 + 1 + 1)) with true; cbv iota |];
    cbn [fst snd];
    (split; [lia |]); (split; [simpl; lia |]);
    (split; [simpl; rewrite <- !app_assoc; reflexivity |]);
    (split; [reflexivity |]); (split; [reflexivity |]);
    (split; [exact Hprev |]);
    exists e3; (split; [exact H3 |]); rewrite E3.
  - split; reflexivity.
  - reflexivity.
Qed.

(** X22.  [create_connection] calls [connect()] once, twice or three
    times and sleeps 2 seconds between the calls (the exponential wait
    is 2 seconds both times); it closes nothing.  It goes on only after
    a call that raised an [Exception]; it returns the connection of the
    first call that succeeds; after a third [Exception] it raises
    tenacity's [RetryError] around it, and an exception that is not an
    [Exception] passes as it is. *)
Theorem create_connection_tries (d : driver) (s : t) :
  exists (n : nat) (evs : list event),
    (1 <= n <= 3)%nat
    /\ connects (snd (create_connection d s)) = (connects s + n)%nat
    /\ trace (snd (create_connection d s)) = trace s ++ evs
    /\ waits_of evs = repeat 2 (n - 1)
    /\ closes_of evs = []
    /\ (forall i, (i < n - 1)%nat ->
          exists e0, connect d (connects s + i) = ConnectRaises e0
                     /\ is_Exception (raised_by_connect e0) = true)
    /\ match fst (create_connection d s) with
       | inl c => c = (connects s + (n - 1))%nat /\ connect d c = Connects
       | inr e =>
           exists e0,
             connect d (connects s + (n - 1)) = ConnectRaises e0
             /\ (if is_Exception (raised_by_connect e0)
                 then n = 3%nat /\ e = RetryError (raised_by_connect e0)
                 else e = raised_by_connect e0)
       end.
Proof. exact (create_connection_outcome d s). Qed.

Lemma retrying_frame (d : driver) (fuel : nat) :
  forall (k : Z) (s : t),
    _connection_pool (snd (retrying d fuel k s)) = _connection_pool s
    /\ _pool_size (snd (retrying d fuel k s)) = _pool_size s
    /\ _pool_initialized (snd (retrying d fuel k s)) = _pool_initialized s
    /\ closed (snd (retrying d fuel k s)) = closed s.
Proof.
  induction fuel as [| fuel IH]; intros k s; rewrite retrying_step; cbv zeta;
    destruct (connect d (connects s)) as [| e0]; try (repeat split; reflexivity);
    destruct (negb (is_Exception (raised_by_connect e0)));
    try (repeat split; reflexivity);
    destruct (stop_after_attempt 3 k); try (repeat split; reflexivity).
  match goal with
  | |- context [retrying d fuel ?k' ?s'] =>
      destruct (IH k' s') as (H1 & H2 & H3 & H4)
  end.
  rewrite H1, H2, H3, H4. repeat split; reflexivity.
Qed.

Lemma create_connection_frame (d : driver) (s : t) :
  _connection_pool (snd (create_connection d s)) = _connection_pool s
  /\ _pool_size (snd (create_connection d s)) = _pool_size s
  /\ _pool_initialized (snd (create_connection d s)) = _pool_initialized s
  /\ closed (snd (create_connection d s)) = closed s.
Proof. apply retrying_frame. Qed.

Lemma pool_put_some (c : conn) (s : t) (q : list conn) :
  _connection_pool s = Some q ->
  0 < _pool_size s -> Z.of_nat (length q) < _pool_size s ->
  pool_put c s = Some (log (EvPut c) (set_pool (Some (q ++ [c])) s)).
Proof.
  intros Hq Hpos Hroom. unfold pool_put. rewrite Hq.
  replace (0 <? _pool_size s) with true by (symmetry; apply Z.ltb_lt; lia).
  replace (_pool_size s <=? Z.of_nat (length q)) with false
    by (symmetry; apply Z.leb_gt; lia).
  reflexivity.
Qed.

(** The loop of [initialize_pool], from a queue with room for the
    connections to come. *)
Lemma fill_pool_result (d : driver) (n : nat) :
  forall (s : t) (q : list conn),
    _connection_pool s = Some q ->
    0 < _pool_size s ->
    Z.of_nat (length q) + Z.of_nat n <= _pool_size s ->
    match fill_pool d n s with
    | inr s1 =>
        exists new evs,
          _connection_pool s1 = Some (q ++ new)
          /\ (length new <= n)%nat
          /\ _pool_size s1 = _pool_size s
          /\ _pool_initialized s1 = _pool_initialized s
          /\ closed s1 = closed s
          /\ (connects s + length new <= connects s1 <= connects s + 3 * n)%nat
          /\ Forall (fun c => (connects s <= c < connects s1)%nat
                              /\ connect d c = Connects) new
          /\ NoDup new
          /\ trace s1 = trace s ++ evs
          /\ closes_of evs = []
    | inl e => is_Exception e = false
    end.
Proof.
  induction n as [| n IH]; intros s q Hq Hpos Hroom.
  - simpl. exists [], []. rewrite !app_nil_r.
    split; [exact Hq |]. split; [simpl; lia |].
    split; [reflexivity |]. split; [reflexivity |]. split; [reflexivity |].
    split; [simpl; lia |]. split; [constructor |]. split; [constructor |].
    split; reflexivity.
  - cbn [fill_pool].
    destruct (create_connection_outcome d s)
      as (m & evs & Hm & Hcon & Htr & _ & Hcl & _ & Hres).
    destruct (create_connection_frame d s) as (F1 & F2 & F3 & F4).
    destruct (create_connection d s) as [[c | e] s1]; cbn [fst snd] in *.
    + destruct Hres as [Hc Hup].
      rewrite (pool_put_some c s1 q) by (rewrite ?F1, ?F2; (assumption || lia)).
      specialize (IH (log (EvPut c) (set_pool (Some (q ++ [c])) s1)) (q ++ [c])).
      cbn [log set_pool _connection_pool _pool_size _pool_initialized
             closed connects trace] in IH.
      rewrite F2 in IH.
      specialize (IH eq_refl Hpos).
      rewrite length_app in IH. simpl length in IH.
      specialize (IH ltac:(lia)).
      destruct (fill_pool d n (log (EvPut c) (set_pool (Some (q ++ [c])) s1)))
        as [e | s2]; [exact IH |].
      destruct IH as (new & evs' & I1 & I2 & I3 & I4 & I5 & I6 & I7 & I8 & I9 & I10).
      exists (c :: new), (evs ++ [EvPut c] ++ evs').
      split; [rewrite I1, <- app_assoc; reflexivity |].
      split; [simpl; lia |]. split; [exact I3 |].
      split; [now rewrite I4 |]. split; [now rewrite I5 |].
      split; [simpl length; lia |].
      split.
      { constructor.
        - split; [lia | now rewrite Hc in Hup |- *].
        - eapply Forall_impl; [exact I7 |]. intros c' [Hb Hc']. split; [lia | exact Hc']. }
      split.
      { constructor; [| exact I8].
        intros Hin. rewrite Forall_forall in I7.
        destruct (I7 c Hin) as [Hb _]. simpl in Hb. lia. }
      split; [rewrite I9, Htr, <- !app_assoc; reflexivity |].
      rewrite !closes_of_app, Hcl, I10. reflexivity.
    + destruct (is_Exception e) eqn:He; [| exact He].
      specialize (IH s1 q). rewrite F1, F2 in IH.
      specialize (IH Hq Hpos ltac:(lia)).
      destruct (fill_pool d n s1) as [e' | s2]; [exact IH |].
      destruct IH as (new & evs' & I1 & I2 & I3 & I4 & I5 & I6 & I7 & I8 & I9 & I10).
      exists new, (evs ++ evs').
      split; [exact I1 |]. split; [lia |]. split; [exact I3 |].
      split; [now rewrite I4 |]. split; [now rewrite I5 |].
      split; [lia |].
      split.
      { eapply Forall_impl; [exact I7 |]. intros c' [Hb Hc']. split; [lia | exact Hc']. }
      split; [exact I8 |].
      split; [rewrite I9, Htr, <- !app_assoc; reflexivity |].
      rewrite closes_of_app, Hcl, I10. reflexivity.
Qed.

(** X23.  [initialize_pool] does nothing for a pool size of zero or
    less or on a factory that is initialized.  Otherwise it ends only
    on an exception that is not an [Exception]; and when it returns, the
    factory is initialized with a new queue of at most [_pool_size]
    connections, all of them made by this call and distinct; it has
    called [connect()] at most three times per slot and has closed
    nothing.  A slot whose creation fails stays empty: the queue may
    hold fewer connections than [_pool_size]. *)
Theorem initialize_pool_result (d : driver) (s : t) :
  (_pool_size s <= 0 \/ _pool_initialized s = true ->
   initialize_pool d s = inr s)
  /\ (0 < _pool_size s -> _pool_initialized s = false ->
      match initialize_pool d s with
      | inr s1 =>
          _pool_initialized s1 = true
          /\ _pool_size s1 = _pool_size s
          /\ (exists q, _connection_pool s1 = Some q)
          /\ queue_within_maxsize s1
          /\ pooling_enabled s1 = true
          /\ closed s1 = closed s
          /\ (connects s1 <= connects s + 3 * Z.to_nat (_pool_size s))%nat
          /\ NoDup (pooled s1)
          /\ (forall c, c ∈ pooled s1 ->
                (connects s <= c < connects s1)%nat /\ made d s1 c)
      | inl e => is_Exception e = false
      end).
Proof.
  unfold initialize_pool. split.
  - intros [Hsize | Hinit].
    + replace (0 <? _pool_size s) with false
        by (symmetry; apply Z.ltb_ge; lia).
      reflexivity.
    + rewrite Hinit. now rewrite andb_false_r.
  - intros Hpos Hinit.
    replace (0 <? _pool_size s) with true by (symmetry; apply Z.ltb_lt; lia).
    rewrite Hinit. cbn [negb andb].
    pose proof (fill_pool_result d (Z.to_nat (_pool_size s))
                  (set_pool (Some []) s) [] eq_refl Hpos) as H.
    cbn [set_pool _pool_size _pool_initialized closed connects trace] in H.
    specialize (H ltac:(simpl; lia)).
    destruct (fill_pool d (Z.to_nat (_pool_size s)) (set_pool (Some []) s))
      as [e | s1]; [exact H |].
    destruct H as (new & evs & I1 & I2 & I3 & I4 & I5 & I6 & I7 & I8 & _).
    simpl app in I1.
    split; [reflexivity |].
    split; [exact I3 |].
    split; [exists new; exact I1 |].
    split; [unfold queue_within_maxsize; simpl; rewrite I1, I3; lia |].
    split.
    { unfold pooling_enabled. simpl. rewrite I1, I3.
      replace (_pool_size s =? 0) with false
        by (symmetry; apply Z.eqb_neq; lia).
      reflexivity. }
    split; [exact I5 |].
    split; [simpl; lia |].
    assert (Hpooled : pooled (set_initialized true s1) = new).
    { unfold pooled. simpl. now rewrite I1. }
    rewrite Hpooled. split; [exact I8 |].
    intros c Hc. rewrite Forall_forall in I7.
    destruct (I7 c Hc) as [Hb Hcon].
    split; [simpl; exact Hb |]. split; [simpl; lia | exact Hcon].
Qed.

Lemma initialize_pool_result_witness :
  match initialize_pool
          {| connect := fun i => if Nat.ltb i 3 then ConnectRaises (PyodbcError "busy")
                                 else Connects;
             select_1 := fun _ => true |}
          (new 2) with
  | inr s1 =>
      _pool_initialized s1 = true
      /\ _pool_size s1 = 2
      /\ (exists q, _connection_pool s1 = Some q)
      /\ queue_within_maxsize s1
      /\ pooling_enabled s1 = true
      /\ closed s1 = []
      /\ (connects s1 <= 0 + 3 * 2)%nat
      /\ NoDup (pooled s1)
      /\ (forall c, c ∈ pooled s1 ->
            (0 <= c < connects s1)%nat
            /\ made {| connect := fun i => if Nat.ltb i 3
                                           then ConnectRaises (PyodbcError "busy")
                                           else Connects;
                       select_1 := fun _ => true |} s1 c)
  | inl e => is_Exception e = false
  end.
Proof.
  apply (proj2 (initialize_pool_result
                  {| connect := fun i => if Nat.ltb i 3
                                         then ConnectRaises (PyodbcError "busy")
                                         else Connects;
                     select_1 := fun _ => true |}
                  (new 2))).
  - simpl. lia.
  - reflexivity.
Defined.

Lemma create_connection_always_fails (d : driver) (s : t) :
  always_fails d ->
  exists e evs,
    fst (create_connection d s) = inr e
    /\ is_Exception e = true
    /\ (exists e0, connect d (connects s + 2) = ConnectRaises e0
                   /\ e = RetryError (raised_by_connect e0))
    /\ connects (snd (create_connection d s)) = (connects s + 3)%nat
    /\ trace (snd (create_connection d s)) = trace s ++ evs
    /\ waits_of evs = [2; 2].
Proof.
  intros Hd.
  destruct (create_connection_outcome d s)
    as (m & evs & Hm & Hcon & Htr & Hw & _ & _ & Hres).
  destruct (fst (create_connection d s)) as [c | e].
  - destruct Hres as [_ Hc]. destruct (Hd c) as (e0 & He0 & _). congruence.
  - destruct Hres as (e0 & He0 & Hif).
    destruct (Hd (connects s + (m - 1))%nat) as (e1 & He1 & Hex).
    assert (e0 = e1) by congruence. subst e1. rewrite Hex in Hif.
    destruct Hif as [-> ->].
    exists (RetryError (raised_by_connect e0)), evs.
    split; [reflexivity |]. split; [reflexivity |].
    split; [exists e0; split; [exact He0 | reflexivity] |].
    repeat split; assumption.
Qed.

Lemma fill_pool_always_fails (d : driver) (n : nat) :
  always_fails d ->
  forall s : t,
    exists s1 evs,
      fill_pool d n s = inr s1
      /\ _connection_pool s1 = _connection_pool s
      /\ _pool_size s1 = _pool_size s
      /\ _pool_initialized s1 = _pool_initialized s
      /\ closed s1 = closed s
      /\ connects s1 = (connects s + 3 * n)%nat
      /\ trace s1 = trace s ++ evs
      /\ waits_of evs = repeat 2 (2 * n).
Proof.
  intros Hd. induction n as [| n IH]; intros s.
  - exists s, []. rewrite app_nil_r. simpl.
    repeat split; try reflexivity; lia.
  - cbn [fill_pool].
    destruct (create_connection_always_fails d s Hd)
      as (e & evs & Hr & He & _ & Hcon & Htr & Hw).
    destruct (create_connection_frame d s) as (F1 & F2 & F3 & F4).
    destruct (create_connection d s) as [r s1]. cbn [fst snd] in *.
    subst r. rewrite He.
    destruct (IH s1) as (s2 & evs' & I1 & I2 & I3 & I4 & I5 & I6 & I7 & I8).
    exists s2, (evs ++ evs').
    split; [exact I1 |]. split; [congruence |]. split; [congruence |].
    split; [congruence |]. split; [congruence |]. split; [lia |].
    split; [rewrite I7, Htr, <- app_assoc; reflexivity |].
    rewrite waits_of_app, Hw, I8.
    replace (2 * S n)%nat with (S (S (2 * n))) by lia. reflexivity.
Qed.

(** X24.  When every [connect()] raises an [Exception] (the database
    is down), [initialize_pool] still returns normally, after three
    calls of [connect()] and two sleeps of 2 seconds per slot, and
    leaves the factory initialized with an empty queue.  From then on,
    whatever the database does, a lease waits on the empty queue and
    never gets a connection, and [initialize_pool] does nothing when
    called again: the pool is never filled. *)
Theorem initialize_pool_database_down (d : driver) (s : t) :
  0 < _pool_size s ->
  _pool_initialized s = false ->
  always_fails d ->
  exists s1 evs,
    initialize_pool d s = inr s1
    /\ _connection_pool s1 = Some []
    /\ _pool_initialized s1 = true
    /\ connects s1 = (connects s + 3 * Z.to_nat (_pool_size s))%nat
    /\ trace s1 = trace s ++ evs
    /\ waits_of evs = repeat 2 (2 * Z.to_nat (_pool_size s))
    /\ (forall d', get_pooled_connection d' s1 = (Waits, s1))
    /\ (forall d' body, async_with d' body s1 = (None, Hangs, Finished, s1))
    /\ (forall d', initialize_pool d' s1 = inr s1).
Proof.
  intros Hpos Hinit Hd. unfold initialize_pool at 1.
  replace (0 <? _pool_size s) with true by (symmetry; apply Z.ltb_lt; lia).
  rewrite Hinit. cbn [negb andb].
  destruct (fill_pool_always_fails d (Z.to_nat (_pool_size s)) Hd
              (set_pool (Some []) s))
    as (s1 & evs & Hrun & I1 & I2 & I3 & I4 & I5 & I6 & I7).
  rewrite Hrun. cbn [set_pool _connection_pool _pool_size connects trace] in *.
  exists (set_initialized true s1), evs.
  split; [reflexivity |]. split; [exact I1 |]. split; [reflexivity |].
  split; [exact I5 |]. split; [exact I6 |]. split; [exact I7 |].
  assert (Hget : forall d', get_pooled_connection d' (set_initialized true s1)
                            = (Waits, set_initialized true s1)).
  { intros d'. unfold get_pooled_connection, pooling_enabled, pool_get.
    cbn [set_initialized _connection_pool _pool_size]. rewrite I1, I2.
    replace (_pool_size s =? 0) with false by (symmetry; apply Z.eqb_neq; lia).
    reflexivity. }
  split; [exact Hget |]. split.
  - intros d' body. unfold async_with. now rewrite Hget.
  - intros d'. unfold initialize_pool.
    cbn [set_initialized _pool_initialized]. now rewrite andb_false_r.
Qed.

Lemma initialize_pool_database_down_witness :
  exists s1 evs,
    initialize_pool (down "timeout") (new 2) = inr s1
    /\ _connection_pool s1 = Some []
    /\ _pool_initialized s1 = true
    /\ connects s1 = (0 + 3 * 2)%nat
    /\ trace s1 = [] ++ evs
    /\ waits_of evs = repeat 2 (2 * 2)
    /\ (forall d', get_pooled_connection d' s1 = (Waits, s1))
    /\ (forall d' body, async_with d' body s1 = (None, Hangs, Finished, s1))
    /\ (forall d', initialize_pool d' s1 = inr s1).
Proof.
  apply (initialize_pool_database_down (down "timeout") (new 2)).
  - simpl. lia.
  - reflexivity.
  - intros i. exists (PyodbcError "timeout"). split; reflexivity.
Defined.

Lemma drain_queue (q : list conn) :
  forall s : t,
    _connection_pool s = Some q ->
    _connection_pool (drain (length q) s) = Some []
    /\ _pool_size (drain (length q) s) = _pool_size s
    /\ _pool_initialized (drain (length q) s) = _pool_initialized s
    /\ closed (drain (length q) s) = closed s
    /\ connects (drain (length q) s) = connects s
    /\ trace (drain (length q) s) = trace s ++ map EvGet q.
Proof.
  induction q as [| c q IH]; intros s Hq.
  - simpl. rewrite app_nil_r. repeat split; try reflexivity. exact Hq.
  - simpl length. cbn [drain]. unfold pool_get. rewrite Hq.
    destruct (IH (log (EvGet c) (set_pool (Some q) s)) eq_refl)
      as (H1 & H2 & H3 & H4 & H5 & H6).
    rewrite H1, H2, H3, H4, H5, H6. simpl. rewrite <- app_assoc.
    repeat split; reflexivity.
Qed.

(** X25.  [cleanup_pool] on an initialized pool empties the queue and
    marks the factory as not initialized, but it calls [close()] on no
    connection: its only events are the removals from the queue, and
    every open connection that was in the queue is out of the factory's
    hands afterwards, neither closed nor pooled.  The empty queue stays
    in place, so a later lease waits on it.  Without a queue, or on a
    factory that is not initialized, [cleanup_pool] does nothing. *)
Theorem cleanup_pool_closes_nothing (d : driver) (s : t) (q : list conn) :
  _connection_pool s = Some q ->
  _pool_initialized s = true ->
  _connection_pool (cleanup_pool s) = Some []
  /\ _pool_initialized (cleanup_pool s) = false
  /\ closed (cleanup_pool s) = closed s
  /\ trace (cleanup_pool s) = trace s ++ map EvGet q
  /\ (forall c, c ∈ q -> made d s c -> (c ∉ closed s) ->
        outstanding d (cleanup_pool s) c)
  /\ (_pool_size s <> 0 ->
        forall d', get_pooled_connection d' (cleanup_pool s)
                   = (Waits, cleanup_pool s))
  /\ cleanup_pool (cleanup_pool s) = cleanup_pool s.
Proof.
  intros Hq Hinit.
  assert (Heq : cleanup_pool s = set_initialized false (drain (length q) s)).
  { unfold cleanup_pool. now rewrite Hq, Hinit. }
  destruct (drain_queue q s Hq) as (H1 & H2 & H3 & H4 & H5 & H6).
  assert (G1 : _connection_pool (cleanup_pool s) = Some [])
    by (rewrite Heq; exact H1).
  assert (G2 : _pool_initialized (cleanup_pool s) = false)
    by (rewrite Heq; reflexivity).
  assert (G3 : closed (cleanup_pool s) = closed s) by (rewrite Heq; exact H4).
  assert (G4 : connects (cleanup_pool s) = connects s)
    by (rewrite Heq; exact H5).
  assert (G5 : _pool_size (cleanup_pool s) = _pool_size s)
    by (rewrite Heq; exact H2).
  split; [exact G1 |]. split; [exact G2 |]. split; [exact G3 |].
  split; [rewrite Heq; exact H6 |]. split.
  { intros c _ [Hlt Hcon] Hopen. unfold outstanding, made, pooled.
    rewrite G1, G3, G4. repeat split; try assumption. apply not_elem_of_nil. }
  split.
  { intros Hsize d'. unfold get_pooled_connection, pooling_enabled, pool_get.
    rewrite G1, G5.
    replace (_pool_size s =? 0) with false by (symmetry; now apply Z.eqb_neq).
    reflexivity. }
  unfold cleanup_pool at 1. now rewrite G1, G2.
Qed.

Lemma cleanup_pool_closes_nothing_witness :
  _connection_pool (cleanup_pool pool_of_one) = Some []
  /\ _pool_initialized (cleanup_pool pool_of_one) = false
  /\ closed (cleanup_pool pool_of_one) = closed pool_of_one
  /\ trace (cleanup_pool pool_of_one) = trace pool_of_one ++ map EvGet [O]
  /\ (forall c, c ∈ [O] -> made up pool_of_one c -> (c ∉ closed pool_of_one) ->
        outstanding up (cleanup_pool pool_of_one) c)
  /\ (_pool_size pool_of_one <> 0 ->
        forall d', get_pooled_connection d' (cleanup_pool pool_of_one)
                   = (Waits, cleanup_pool pool_of_one))
  /\ cleanup_pool (cleanup_pool pool_of_one) = cleanup_pool pool_of_one.
Proof.
  apply (cleanup_pool_closes_nothing up pool_of_one [O]); reflexivity.
Defined.

(** Taking a healthy connection from the head of the queue. *)
Lemma acquire_healthy (d : driver) (s : t) (c : conn) (q : list conn) :
  _connection_pool s = Some (c :: q) ->
  _pool_size s <> 0 ->
  select_1 d c = true ->
  (c ∉ closed s) ->
  get_pooled_connection d s
  = (Yields c (AtYieldPooled c),
     log (EvSelect1 c true) (log (EvGet c) (set_pool (Some q) s))).
Proof.
  intros Hq Hsize Hsel Hopen.
  unfold get_pooled_connection, pooling_enabled, pool_get. rewrite Hq.
  replace (_pool_size s =? 0) with false by (symmetry; now apply Z.eqb_neq).
  cbn [negb]. unfold validate.
  cbn [log set_pool closed]. rewrite Hsel.
  rewrite bool_decide_eq_false_2 by exact Hopen. reflexivity.
Qed.

Lemma room_after_get (s : t) (c : conn) (q : list conn) :
  _connection_pool s = Some (c :: q) ->
  queue_within_maxsize s ->
  (0 <? _pool_size s) && (_pool_size s <=? Z.of_nat (length q)) = false.
Proof.
  intros Hq Hwf. unfold queue_within_maxsize in Hwf. rewrite Hq in Hwf.
  simpl length in Hwf.
  destruct (0 <? _pool_size s) eqn:Hpos; [| reflexivity].
  apply Z.ltb_lt in Hpos. specialize (Hwf Hpos).
  simpl. apply Z.leb_gt. lia.
Qed.

(** X26.  A lease of a healthy pooled connection whose block returns is
    a rotation of the queue: the connection at the head is the one
    leased, it is validated with [SELECT 1], and it is put back at the
    end; no connection is made or closed. *)
Theorem lease_rotates_queue (d : driver) (body : conn -> body_outcome)
    (s : t) (c : conn) (q : list conn) :
  _connection_pool s = Some (c :: q) ->
  _pool_size s <> 0 ->
  queue_within_maxsize s ->
  select_1 d c = true ->
  (c ∉ closed s) ->
  body c = BodyReturns ->
  exists s1,
    async_with d body s = (Some c, Completes, Finished, s1)
    /\ _connection_pool s1 = Some (q ++ [c])
    /\ closed s1 = closed s
    /\ connects s1 = connects s
    /\ trace s1 = trace s ++ [EvGet c; EvSelect1 c true; EvPut c].
Proof.
  intros Hq Hsize Hwf Hsel Hopen Hbody.
  unfold async_with. rewrite (acquire_healthy d s c q Hq Hsize Hsel Hopen).
  rewrite Hbody. unfold aexit, gen_next, finally_put, pool_put.
  cbn [log set_pool _connection_pool _pool_size].
  rewrite (room_after_get s c q Hq Hwf).
  eexists. split; [reflexivity |].
  cbn [log set_pool _connection_pool closed connects trace].
  rewrite <- !app_assoc. repeat split; reflexivity.
Qed.

Lemma lease_rotates_queue_witness :
  exists s1,
    async_with up (fun _ => BodyReturns)
      {| _connection_pool := Some [0; 1; 2]%nat; _pool_size := 3;
         _pool_initialized := true; connects := 3%nat; closed := [];
         trace := [] |}
    = (Some O, Completes, Finished, s1)
    /\ _connection_pool s1 = Some ([1; 2] ++ [0])%nat
    /\ closed s1 = []
    /\ connects s1 = 3%nat
    /\ trace s1 = [] ++ [EvGet O; EvSelect1 O true; EvPut O].
Proof.
  apply (lease_rotates_queue up (fun _ => BodyReturns)
           {| _connection_pool := Some [0; 1; 2]%nat; _pool_size := 3;
              _pool_initialized := true; connects := 3%nat; closed := [];
              trace := [] |} O [1; 2]%nat).
  - reflexivity.
  - simpl. lia.
  - unfold queue_within_maxsize. simpl. lia.
  - reflexivity.
  - apply not_elem_of_nil.
  - reflexivity.
Defined.



(** X28.  The exception of the block passes through the lease unchanged
    in the two other cases: without pooling, where the connection made
    for the lease is closed; and with pooling when the exception is not
    an [Exception] (a cancellation), where the leased connection is put
    back into the queue and nothing is closed.  No connection is made on
    the way out. *)
Theorem lease_exception_passes (d : driver) (body : conn -> body_outcome)
    (s s0 : t) (c : conn) (g0 : gen_state) (e : exn) :
  queue_within_maxsize s ->
  get_pooled_connection d s = (Yields c g0, s0) ->
  body c = BodyRaises e ->
  pooling_enabled s = false \/ is_Exception e = false ->
  exists s1,
    async_with d body s = (Some c, Propagates e, Finished, s1)
    /\ connects s1 = connects s0
    /\ (if pooling_enabled s
        then closed s1 = closed s0 /\ pooled s1 = pooled s0 ++ [c]
        else closed s1 = c :: closed s0
             /\ _connection_pool s1 = _connection_pool s0).
Proof.
  intros Hwf Hget Hbody Hcase.
  destruct (get_pooled_connection_ok d s s0 c g0 Hwf Hget) as [Hheld [Hroom _]].
  unfold async_with. rewrite Hget, Hbody. unfold aexit.
  unfold get_pooled_connection in Hget.
  destruct (pooling_enabled s) eqn:Hen.
  - destruct Hcase as [Hno | Hbase]; [discriminate |].
    assert (Hg : g0 = AtYieldPooled c \/ g0 = AtYieldReplacement c).
    { destruct g0 as [c0 | c0 | c0 |]; simpl in Hheld;
        try discriminate; injection Hheld as ->; [| now left | now right].
      exfalso.
      destruct (pool_get s) as [[c1 s1] |]; [| discriminate].
      destruct (validate d c1 s1) as [[|] s2]; [discriminate |].
      unfold handler in Hget.
      destruct (create_connection d (close c1 s2)) as [[c2 | e2] s3];
        [discriminate |].
      unfold finally_put in Hget.
      destruct (pool_put c1 s3); discriminate. }
    assert (Hthrow : gen_throw d e g0 s0 = finally_put c (Raises e) s0).
    { destruct Hg as [-> | ->]; unfold gen_throw; [now rewrite Hbase | reflexivity]. }
    rewrite Hthrow. unfold finally_put.
    assert (Hr : has_room s0) by (destruct Hg as [-> | ->]; exact Hroom).
    destruct (pool_put_room c s0 Hr) as (s1 & Hput & Hp & Hc & Hn & _).
    rewrite Hput. exists s1. split; [reflexivity |].
    split; [exact Hn |]. split; [exact Hc | exact Hp].
  - destruct (create_connection d s) as [[c1 | e1] s1]; [| discriminate].
    injection Hget as -> <- <-.
    unfold gen_throw, close_connection.
    eexists. split; [reflexivity |]. repeat split; reflexivity.
Qed.

Lemma lease_exception_passes_witness :
  exists s1,
    async_with up (fun _ => BodyRaises CancelledError) pool_of_one
    = (Some O, Propagates CancelledError, Finished, s1)
    /\ connects s1 = connects (snd (get_pooled_connection up pool_of_one))
    /\ closed s1 = closed (snd (get_pooled_connection up pool_of_one))
    /\ pooled s1 = pooled (snd (get_pooled_connection up pool_of_one)) ++ [O].
Proof.
  apply (lease_exception_passes up (fun _ => BodyRaises CancelledError)
           pool_of_one (snd (get_pooled_connection up pool_of_one)) O
           (AtYieldPooled O) CancelledError).
  - unfold queue_within_maxsize. simpl. lia.
  - reflexivity.
  - reflexivity.
  - now right.
Defined.

Lemma utf16_le_unit_inj (u1 u2 : Z) (r1 r2 : list Z) :
  utf16_le_unit u1 ++ r1 = utf16_le_unit u2 ++ r2 -> u1 = u2 /\ r1 = r2.
Proof.
  unfold utf16_le_unit. simpl. intros [= Hm Hd Hr]. split; [| exact Hr].
  Z.div_mod_to_equations. lia.
Qed.

Lemma utf16_le_unit_bytes (u : Z) :
  0 <= u < 65536 ->
  Forall (fun b => 0 <= b < 256) (utf16_le_unit u).
Proof.
  intros Hu. unfold utf16_le_unit.
  repeat constructor; Z.div_mod_to_equations; lia.
Qed.

(** What [encode_code_point] accepts and what it gives. *)
Lemma encode_code_point_some (cp : Z) (b : list Z) :
  encode_code_point cp = Some b ->
  encodable cp
  /\ Z.of_nat (length b) = 2 * utf16_units cp
  /\ Forall (fun x => 0 <= x < 256) b
  /\ ((cp < 0x10000 /\ b = utf16_le_unit cp)
      \/ (0x10000 <= cp
          /\ b = utf16_le_unit (0xD800 + (cp - 0x10000) / 1024)
                 ++ utf16_le_unit (0xDC00 + (cp - 0x10000) mod 1024))).
Proof.
  unfold encode_code_point, encodable, utf16_units.
  destruct (cp <? 0) eqn:H0; [discriminate |].
  destruct (0x10FFFF <? cp) eqn:H1; [discriminate |].
  apply Z.ltb_ge in H0, H1. cbn [orb].
  destruct (cp <? 0xD800) eqn:H2.
  { apply Z.ltb_lt in H2. intros [= <-].
    replace (cp <? 65536) with true by (symmetry; apply Z.ltb_lt; lia).
    split; [lia |]. split; [reflexivity |].
    split; [apply utf16_le_unit_bytes; lia |]. left. split; [lia | reflexivity]. }
  apply Z.ltb_ge in H2.
  destruct (cp <? 0xE000) eqn:H3; [discriminate |]. apply Z.ltb_ge in H3.
  destruct (cp <? 0x10000) eqn:H4.
  { apply Z.ltb_lt in H4. intros [= <-].
    split; [lia |]. split; [reflexivity |].
    split; [apply utf16_le_unit_bytes; lia |]. left. split; [lia | reflexivity]. }
  apply Z.ltb_ge in H4. intros [= <-].
  split; [lia |]. split; [reflexivity |]. split.
  - unfold utf16_le_unit. simpl.
    repeat constructor; Z.div_mod_to_equations; lia.
  - right. split; [lia | reflexivity].
Qed.

Lemma encode_code_point_encodable (cp : Z) :
  encodable cp -> exists b, encode_code_point cp = Some b.
Proof.
  unfold encodable, encode_code_point. intros [Hr Hs].
  replace (cp <? 0) with false by (symmetry; apply Z.ltb_ge; lia).
  replace (0x10FFFF <? cp) with false by (symmetry; apply Z.ltb_ge; lia).
  cbn [orb].
  destruct (cp <? 0xD800) eqn:H2; [eauto |]. apply Z.ltb_ge in H2.
  replace (cp <? 0xE000) with false by (symmetry; apply Z.ltb_ge; lia).
  destruct (cp <? 0x10000); eauto.
Qed.

Lemma encode_code_point_prefix (c1 c2 : Z) (b1 b2 r1 r2 : list Z) :
  encode_code_point c1 = Some b1 ->
  encode_code_point c2 = Some b2 ->
  b1 ++ r1 = b2 ++ r2 ->
  c1 = c2 /\ r1 = r2.
Proof.
  intros H1 H2 Heq.
  destruct (encode_code_point_some c1 b1 H1) as ([R1 S1] & _ & _ & F1).
  destruct (encode_code_point_some c2 b2 H2) as ([R2 S2] & _ & _ & F2).
  destruct F1 as [[L1 ->] | [L1 ->]]; destruct F2 as [[L2 ->] | [L2 ->]].
  - now apply utf16_le_unit_inj in Heq.
  - rewrite <- app_assoc in Heq. apply utf16_le_unit_inj in Heq.
    destruct Heq as [Hu _]. exfalso. Z.div_mod_to_equations. lia.
  - rewrite <- app_assoc in Heq. apply utf16_le_unit_inj in Heq.
    destruct Heq as [Hu _]. exfalso. Z.div_mod_to_equations. lia.
  - rewrite <- !app_assoc in Heq. apply utf16_le_unit_inj in Heq.
    destruct Heq as [Hhi Heq]. apply utf16_le_unit_inj in Heq.
    destruct Heq as [Hlo Hr]. split; [| exact Hr].
    Z.div_mod_to_equations. lia.
Qed.

Lemma encode_utf_16_le_some (s : list Z) :
  forall bs,
    encode_utf_16_le s = Some bs ->
    Forall encodable s
    /\ Z.of_nat (length bs) = 2 * utf16_length s
    /\ Forall (fun x => 0 <= x < 256) bs.
Proof.
  induction s as [| cp s IH]; intros bs; cbn [encode_utf_16_le].
  - intros [= <-]. repeat split; constructor.
  - destruct (encode_code_point cp) as [b |] eqn:Hcp; [| discriminate].
    destruct (encode_utf_16_le s) as [bs' |]; [| discriminate].
    intros [= <-].
    destruct (encode_code_point_some cp b Hcp) as (He & Hl & Hb & _).
    destruct (IH bs' eq_refl) as (IH1 & IH2 & IH3).
    split; [now constructor |].
    split; [rewrite length_app; simpl utf16_length; lia |].
    apply Forall_app. split; assumption.
Qed.

Lemma encode_utf_16_le_encodable (s : list Z) :
  Forall encodable s -> exists bs, encode_utf_16_le s = Some bs.
Proof.
  induction 1 as [| cp s Hcp _ [bs IH]]; cbn [encode_utf_16_le]; [eauto |].
  destruct (encode_code_point_encodable cp Hcp) as [b ->].
  rewrite IH. eauto.
Qed.

Lemma encode_utf_16_le_inj (s1 : list Z) :
  forall s2 bs,
    encode_utf_16_le s1 = Some bs -> encode_utf_16_le s2 = Some bs -> s1 = s2.
Proof.
  induction s1 as [| c1 s1 IH]; intros [| c2 s2] bs; cbn [encode_utf_16_le].
  - reflexivity.
  - intros [= <-].
    destruct (encode_code_point c2) as [b |] eqn:Hc; [| discriminate].
    destruct (encode_utf_16_le s2); [| discriminate].
    intros [= Hnil]. apply app_eq_nil in Hnil. destruct Hnil as [-> _].
    destruct (encode_code_point_some c2 [] Hc) as (_ & Hl & _).
    unfold utf16_units in Hl. simpl in Hl. destruct (c2 <? 65536); lia.
  - destruct (encode_code_point c1) as [b |] eqn:Hc; [| discriminate].
    destruct (encode_utf_16_le s1); [| discriminate].
    intros [= <-] [= Hnil]. symmetry in Hnil.
    apply app_eq_nil in Hnil. destruct Hnil as [-> _].
    destruct (encode_code_point_some c1 [] Hc) as (_ & Hl & _).
    unfold utf16_units in Hl. simpl in Hl. destruct (c1 <? 65536); lia.
  - destruct (encode_code_point c1) as [b1 |] eqn:Hc1; [| discriminate].
    destruct (encode_utf_16_le s1) as [bs1 |] eqn:Hs1; [| discriminate].
    destruct (encode_code_point c2) as [b2 |] eqn:Hc2; [| discriminate].
    destruct (encode_utf_16_le s2) as [bs2 |] eqn:Hs2; [| discriminate].
    intros [= <-] [= Heq].
    destruct (encode_code_point_prefix c2 c1 b2 b1 bs2 bs1 Hc2 Hc1 Heq)
      as [-> ->].
    f_equal. exact (IH s2 bs1 eq_refl Hs2).
Qed.

(** X30.  [_create_token_struct] succeeds exactly for a token whose
    code points can all be encoded (in range, no lone surrogate) and
    whose UTF-16 form has at most [2 ** 32 - 1] bytes.  The structure is
    then the byte length of the UTF-16-LE text as four bytes, least
    significant first, followed by that text, two bytes per code unit;
    and two tokens with the same structure are the same token. *)
Theorem token_struct_layout (token : list Z) :
  (is_Some (_create_token_struct token)
   <-> Forall encodable token /\ 2 * utf16_length token <= 0xFFFFFFFF)
  /\ (forall bs,
        _create_token_struct token = Some bs ->
        Z.of_nat (length bs) = 4 + 2 * utf16_length token
        /\ Forall (fun b => 0 <= b < 256) bs
        /\ (exists b0 b1 b2 b3 text,
               bs = b0 :: b1 :: b2 :: b3 :: text
               /\ b0 + 256 * b1 + 65536 * b2 + 16777216 * b3
                  = Z.of_nat (length text)
               /\ encode_utf_16_le token = Some text)
        /\ (forall token',
               _create_token_struct token' = Some bs -> token' = token)).
Proof.
  unfold _create_token_struct, pack_uint32_le. split.
  - split.
    + intros [bs Hbs].
      destruct (encode_utf_16_le token) as [text |] eqn:Ht; [| discriminate].
      destruct (encode_utf_16_le_some token text Ht) as (He & Hl & _).
      split; [exact He |].
      destruct (Z.of_nat (length text) <? 0) eqn:H0; [discriminate |].
      destruct (0xFFFFFFFF <? Z.of_nat (length text)) eqn:H1; [discriminate |].
      apply Z.ltb_ge in H1. lia.
    + intros [He Hl].
      destruct (encode_utf_16_le_encodable token He) as [text Ht].
      rewrite Ht.
      destruct (encode_utf_16_le_some token text Ht) as (_ & Hlen & _).
      replace (Z.of_nat (length text) <? 0) with false
        by (symmetry; apply Z.ltb_ge; lia).
      replace (0xFFFFFFFF <? Z.of_nat (length text)) with false
        by (symmetry; apply Z.ltb_ge; lia).
      simpl. eauto.
  - intros bs.
    destruct (encode_utf_16_le token) as [text |] eqn:Ht; [| discriminate].
    destruct (encode_utf_16_le_some token text Ht) as (He & Hl & Hb).
    destruct (Z.of_nat (length text) <? 0) eqn:H0; [discriminate |].
    destruct (0xFFFFFFFF <? Z.of_nat (length text)) eqn:H1; [discriminate |].
    apply Z.ltb_ge in H0, H1. cbn [orb]. intros [= <-].
    split; [simpl length; lia |].
    split.
    { repeat (constructor; [Z.div_mod_to_equations; lia |]). exact Hb. }
    split.
    { eexists _, _, _, _, text. split; [reflexivity |].
      split; [Z.div_mod_to_equations; lia | reflexivity]. }
    intros token'.
    destruct (encode_utf_16_le token') as [text' |] eqn:Ht'; [| discriminate].
    destruct (Z.of_nat (length text') <? 0); [discriminate |].
    destruct (0xFFFFFFFF <? Z.of_nat (length text')); [discriminate |].
    cbn [orb]. intros [= _ _ _ _ Htext]. subst text'.
    exact (encode_utf_16_le_inj token' token text Ht' Ht).
Qed.

Lemma token_struct_layout_witness :
  _create_token_struct [0x65; 0x79; 0x4A; 0x1F511]
  = Some [10; 0; 0; 0; 0x65; 0; 0x79; 0; 0x4A; 0; 0x3D; 0xD8; 0x11; 0xDD]
  /\ Z.of_nat (length [10; 0; 0; 0; 0x65; 0; 0x79; 0; 0x4A; 0;
                       0x3D; 0xD8; 0x11; 0xDD])
     = 4 + 2 * utf16_length [0x65; 0x79; 0x4A; 0x1F511].
Proof.
  split; [reflexivity |].
  apply (proj2 (token_struct_layout [0x65; 0x79; 0x4A; 0x1F511])
           [10; 0; 0; 0; 0x65; 0; 0x79; 0; 0x4A; 0; 0x3D; 0xD8; 0x11; 0xDD]).
  reflexivity.
Defined.

End SqlConnectionFactoryMore.

(** ** [ServerCore._create_connection_with_retry]: a retry around a retry *)
Section ServerCoreFacts.
Import SqlConnectionFactory ServerCore.

Lemma retrying_create_step (d : driver) (fuel : nat) (k : Z) (s : t) :
  retrying_create d fuel k s
  = match create_connection d s with
    | (inl c, s1) => (inl c, s1)
    | (inr e, s1) =>
        if negb (is_Exception e) then (inr e, s1)
        else if stop_after_attempt 3 k then (inr (RetryError e), s1)
        else
          match fuel with
          | O => (inr (RetryError e), s1)
          | S fuel' =>
              retrying_create d fuel' (k + 1)
                (log (EvWait (wait_exponential 1 2 10 k)) s1)
          end
    end.
Proof. destruct fuel; reflexivity. Qed.

Lemma retrying_create_bound (d : driver) (fuel : nat) :
  forall (k : Z) (s : t),
    1 <= k <= 3 ->
    (connects s + 1 <= connects (snd (retrying_create d fuel k s))
     <= connects s + 3 * Z.to_nat (4 - k))%nat
    /\ closed (snd (retrying_create d fuel k s)) = closed s
    /\ _connection_pool (snd (retrying_create d fuel k s)) = _connection_pool s
    /\ match fst (retrying_create d fuel k s) with
       | inl c => made d (snd (retrying_create d fuel k s)) c
                  /\ (connects s <= c)%nat
       | inr _ => True
       end.
Proof.
  induction fuel as [| fuel IH]; intros k s Hk; rewrite retrying_create_step;
    destruct (create_connection_outcome d s)
      as (m & evs & Hm & Hcon & _ & _ & _ & _ & Hres);
    destruct (create_connection_frame d s) as (F1 & _ & _ & F4);
    destruct (create_connection d s) as [[c | e] s1]; cbn [fst snd] in *.
  - split; [lia |]. split; [exact F4 |]. split; [exact F1 |].
    destruct Hres as [-> Hc]. split; [split; [lia | exact Hc] | lia].
  - destruct (negb (is_Exception e)); [| destruct (stop_after_attempt 3 k)];
      cbn [fst snd]; (split; [lia |]; split; [exact F4 |]; split; [exact F1 | exact I]).
  - split; [lia |]. split; [exact F4 |]. split; [exact F1 |].
    destruct Hres as [-> Hc]. split; [split; [lia | exact Hc] | lia].
  - destruct (negb (is_Exception e));
      [cbn [fst snd]; split; [lia |]; split; [exact F4 |]; split; [exact F1 | exact I] |].
    destruct (stop_after_attempt 3 k) eqn:Hstop;
      [cbn [fst snd]; split; [lia |]; split; [exact F4 |]; split; [exact F1 | exact I] |].
    unfold stop_after_attempt in Hstop. apply Z.leb_gt in Hstop.
    destruct (IH (k + 1) (log (EvWait (wait_exponential 1 2 10 k)) s1)
                ltac:(lia)) as (B1 & B2 & B3 & B4).
    cbn [log connects closed _connection_pool] in B1, B2, B3, B4.
    split; [| split; [congruence | split; [congruence |]]].
    + replace (Z.to_nat (4 - k)) with (S (Z.to_nat (4 - (k + 1)))) by lia. lia.
    + destruct (fst (retrying_create d fuel (k + 1)
                       (log (EvWait (wait_exponential 1 2 10 k)) s1)));
        [| exact I].
      destruct B4 as [Hmade Hge]. split; [exact Hmade | lia].
Qed.

(** X29.  [_create_connection_with_retry] retries a function that
    retries: it calls [connect()] at least once and at most nine times,
    and a connection it returns is one it made.  When every [connect()]
    raises an [Exception] it makes all nine calls, sleeps eight times
    for 2 seconds, and raises a [RetryError] whose last attempt is the
    [RetryError] of [create_connection]: not a [ConnectionError]. *)
Theorem create_connection_with_retry_nine_calls (d : driver) (s : t) :
  ((connects s + 1 <= connects (snd (_create_connection_with_retry d s))
    <= connects s + 9)%nat
   /\ closed (snd (_create_connection_with_retry d s)) = closed s
   /\ match fst (_create_connection_with_retry d s) with
      | inl c => made d (snd (_create_connection_with_retry d s)) c
                 /\ (connects s <= c)%nat
      | inr _ => True
      end)
  /\ (always_fails d ->
      exists e0 evs,
        connect d (connects s + 8) = ConnectRaises e0
        /\ fst (_create_connection_with_retry d s)
           = inr (RetryError (RetryError (raised_by_connect e0)))
        /\ connects (snd (_create_connection_with_retry d s))
           = (connects s + 9)%nat
        /\ trace (snd (_create_connection_with_retry d s)) = trace s ++ evs
        /\ waits_of evs = repeat 2 8).
Proof.
  split.
  - destruct (retrying_create_bound d 3 1 s ltac:(lia)) as (B1 & B2 & _ & B4).
    unfold _create_connection_with_retry.
    change (3 * Z.to_nat (4 - 1))%nat with 9%nat in B1.
    split; [exact B1 |]. split; [exact B2 | exact B4].
  - intros Hd. unfold _create_connection_with_retry.
    rewrite retrying_create_step.
    destruct (create_connection_always_fails d s Hd)
      as (e1 & evs1 & R1 & E1 & _ & C1 & T1 & W1).
    destruct (create_connection d s) as [r1 s1]. cbn [fst snd] in *. subst r1.
    rewrite E1. cbn [negb]. change (stop_after_attempt 3 1) with false.
    cbv iota. change (wait_exponential 1 2 10 1) with 2.
    rewrite retrying_create_step.
    destruct (create_connection_always_fails d (log (EvWait 2) s1) Hd)
      as (e2 & evs2 & R2 & E2 & _ & C2 & T2 & W2).
    destruct (create_connection d (log (EvWait 2) s1)) as [r2 s2].
    cbn [fst snd log connects trace] in *. subst r2.
    rewrite E2. cbn [negb]. change (stop_after_attempt 3 (1 + 1)) with false.
    cbv iota. change (wait_exponential 1 2 10 (1 + 1)) with 2.
    rewrite retrying_create_step.
    destruct (create_connection_always_fails d (log (EvWait 2) s2) Hd)
      as (e3 & evs3 & R3 & E3 & (e0 & H0 & ->) & C3 & T3 & W3).
    destruct (create_connection d (log (EvWait 2) s2)) as [r3 s3].
    cbn [fst snd log connects trace] in *. subst r3.
    rewrite E3. cbn [negb]. change (stop_after_attempt 3 (1 + 1 + 1)) with true.
    cbv iota. cbn [fst snd].
    exists e0, (evs1 ++ [EvWait 2] ++ evs2 ++ [EvWait 2] ++ evs3).
    split; [rewrite <- H0; f_equal; lia |].
    split; [reflexivity |]. split; [lia |].
    split; [rewrite T3, T2, T1, <- !app_assoc; reflexivity |].
    rewrite !waits_of_app, W1, W2, W3. reflexivity.
Qed.

Lemma create_connection_with_retry_nine_calls_witness :
  exists e0 evs,
    connect (down "timeout") (0 + 8) = ConnectRaises e0
    /\ fst (_create_connection_with_retry (down "timeout") (new 0))
       = inr (RetryError (RetryError (raised_by_connect e0)))
    /\ connects (snd (_create_connection_with_retry (down "timeout") (new 0)))
       = (0 + 9)%nat
    /\ trace (snd (_create_connection_with_retry (down "timeout") (new 0)))
       = [] ++ evs
    /\ waits_of evs = repeat 2 8.
Proof.
  apply (proj2 (create_connection_with_retry_nine_calls (down "timeout") (new 0))).
  intros i. exists (PyodbcError "timeout"). split; reflexivity.
Defined.

End ServerCoreFacts.
